(** * pyblockchain: the ledger engine of [blockchain.py] and [utils.py]

    A shallow embedding of the [BlockChain] class: Python values as a JSON-like
    datatype, dictionaries as insertion-ordered association lists, floats as
    IEEE binary64 ([PrimFloat]), the object's fields as an explicit state that
    every method threads, and exceptions as a result constructor.

    The Python library functions the class calls ([hashlib.sha256],
    [json.dumps], [float.__repr__], [bytes.fromhex]) are written out so that
    hashes can be computed; the ECDSA library, the network and the clock are
    inputs. *)

From Stdlib Require Import String Ascii.
From Stdlib Require Import ZArith Bool Lia Permutation Sorted QArith Qround.
From Stdlib Require Import PrimFloat SpecFloat FloatOps.
From Stdlib Require Import List.
Import ListNotations.

Local Open Scope string_scope.
Local Open Scope Z_scope.
Local Open Scope list_scope.

(* Values nest through lists and pairs: their induction principle is proved
   below, by hand. *)
Set Warnings "-register-all".

(* ===================================================================== *)
(** ** [hashlib.sha256] (FIPS 180-4), on 32-bit words held in [Z] *)
(* ===================================================================== *)

Module SHA256.

Definition w32 (x : Z) : Z := Z.land x 4294967295.

Definition add32 (x y : Z) : Z := w32 (x + y).

Definition rotr (n x : Z) : Z :=
  Z.lor (Z.shiftr x n) (w32 (Z.shiftl x (32 - n))).

Definition Ch (x y z : Z) : Z :=
  Z.lxor (Z.land x y) (Z.land (Z.lxor x 4294967295) z).

Definition Maj (x y z : Z) : Z :=
  Z.lxor (Z.lxor (Z.land x y) (Z.land x z)) (Z.land y z).

Definition Sigma0 (x : Z) : Z :=
  Z.lxor (Z.lxor (rotr 2 x) (rotr 13 x)) (rotr 22 x).

Definition Sigma1 (x : Z) : Z :=
  Z.lxor (Z.lxor (rotr 6 x) (rotr 11 x)) (rotr 25 x).

Definition sigma0 (x : Z) : Z :=
  Z.lxor (Z.lxor (rotr 7 x) (rotr 18 x)) (Z.shiftr x 3).

Definition sigma1 (x : Z) : Z :=
  Z.lxor (Z.lxor (rotr 17 x) (rotr 19 x)) (Z.shiftr x 10).

(** The round constants and the initial state are not tabulated: they are
    the first 32 bits of the fractional parts of the cube roots of the first
    64 primes, and of the square roots of the first 8. *)
Definition is_prime (n : Z) : bool :=
  forallb (fun d => negb (n mod Z.of_nat d =? 0)) (seq 2 (Z.to_nat n - 2)).

Definition primes : list Z :=
  Eval vm_compute in filter is_prime (map Z.of_nat (seq 2 310)).

(** The largest [r] below [2 ^ bits] with [r ^ 3 <= n], bit by bit. *)
Fixpoint cube_root (bits : nat) (n r : Z) : Z :=
  match bits with
  | O => r
  | S b =>
      let c := r + 2 ^ Z.of_nat b in
      cube_root b n (if c ^ 3 <=? n then c else r)
  end.

Definition K : list Z :=
  Eval vm_compute in map (fun p => w32 (cube_root 40 (p * 2 ^ 96) 0)) primes.

Definition H0 : list Z :=
  Eval vm_compute in map (fun p => w32 (Z.sqrt (p * 2 ^ 64))) (firstn 8 primes).

(** Padding: a 1 bit, zeros up to 56 mod 64 bytes, the bit length on 8 bytes. *)
Definition be_bytes (n : nat) (x : Z) : list Z :=
  map (fun i => Z.land (Z.shiftr x (8 * Z.of_nat i)) 255) (rev (seq 0 n)).

Definition pad (msg : list Z) : list Z :=
  let len := Z.of_nat (length msg) in
  let zeros := Z.to_nat ((55 - len) mod 64) in
  msg ++ [128] ++ repeat 0 zeros ++ be_bytes 8 (8 * len).

Fixpoint words (fuel : nat) (bs : list Z) : list Z :=
  match fuel, bs with
  | S fuel', b0 :: b1 :: b2 :: b3 :: rest =>
      (Z.shiftl b0 24 + Z.shiftl b1 16 + Z.shiftl b2 8 + b3) :: words fuel' rest
  | _, _ => []
  end.

(** The message schedule, newest word first: [sched] holds W[t-1], W[t-2], ... *)
Fixpoint schedule (n : nat) (sched : list Z) : list Z :=
  match n with
  | O => sched
  | S n' =>
      let w := add32 (add32 (sigma1 (nth 1 sched 0)) (nth 6 sched 0))
                     (add32 (sigma0 (nth 14 sched 0)) (nth 15 sched 0)) in
      schedule n' (w :: sched)
  end.

Record regs := Regs { ra : Z; rb : Z; rc : Z; rd : Z; re : Z; rf : Z; rg : Z; rh : Z }.

Definition round (r : regs) (kw : Z * Z) : regs :=
  let '(k, w) := kw in
  let t1 := add32 (add32 (add32 (rh r) (Sigma1 (re r))) (Ch (re r) (rf r) (rg r)))
                  (add32 k w) in
  let t2 := add32 (Sigma0 (ra r)) (Maj (ra r) (rb r) (rc r)) in
  Regs (add32 t1 t2) (ra r) (rb r) (rc r) (add32 (rd r) t1) (re r) (rf r) (rg r).

Definition regs_of (h : list Z) : regs :=
  Regs (nth 0 h 0) (nth 1 h 0) (nth 2 h 0) (nth 3 h 0)
       (nth 4 h 0) (nth 5 h 0) (nth 6 h 0) (nth 7 h 0).

Definition compress (h : list Z) (block : list Z) : list Z :=
  let w := rev (schedule 48 (rev block)) in
  let r := fold_left round (combine K w) (regs_of h) in
  [ add32 (nth 0 h 0) (ra r); add32 (nth 1 h 0) (rb r);
    add32 (nth 2 h 0) (rc r); add32 (nth 3 h 0) (rd r);
    add32 (nth 4 h 0) (re r); add32 (nth 5 h 0) (rf r);
    add32 (nth 6 h 0) (rg r); add32 (nth 7 h 0) (rh r) ].

Fixpoint blocks (fuel : nat) (h : list Z) (ws : list Z) : list Z :=
  match fuel with
  | O => h
  | S fuel' =>
      match ws with
      | [] => h
      | _ => blocks fuel' (compress h (firstn 16 ws)) (skipn 16 ws)
      end
  end.

(** The eight state words after the whole padded message. *)
Definition digest_words (msg : list Z) : list Z :=
  let p := pad msg in
  let ws := words (length p) p in
  blocks (length ws) H0 ws.

(** [.digest()]: 32 bytes. *)
Definition digest (msg : list Z) : list Z :=
  flat_map (be_bytes 4) (digest_words msg).

End SHA256.

(** Bytes of a [str] whose code points are all below 256 (the strings of this
    model), under [.encode()] (UTF-8). *)
Definition encode_utf8 (s : string) : list Z :=
  flat_map (fun c : ascii =>
              let n := Z.of_N (N_of_ascii c) in
              if n <? 128 then [n]
              else [Z.lor 192 (Z.shiftr n 6); Z.lor 128 (Z.land n 63)])
           (list_ascii_of_string s).

Definition hex_digit (n : Z) : ascii :=
  match Z.land n 15 with
  | 0 => "0" | 1 => "1" | 2 => "2" | 3 => "3" | 4 => "4" | 5 => "5" | 6 => "6"
  | 7 => "7" | 8 => "8" | 9 => "9" | 10 => "a" | 11 => "b" | 12 => "c"
  | 13 => "d" | 14 => "e" | _ => "f"
  end%char.

(** [n] hexadecimal digits of [x], most significant first. *)
Definition hex_of (n : nat) (x : Z) : list ascii :=
  map (fun i => hex_digit (Z.shiftr x (4 * Z.of_nat i))) (rev (seq 0 n)).

(** [hashlib.sha256(b).hexdigest()] *)
Definition sha256_hexdigest (msg : list Z) : string :=
  string_of_list_ascii (flat_map (hex_of 8) (SHA256.digest_words msg)).



(* ===================================================================== *)
(** ** Python values *)
(* ===================================================================== *)

(** The values that reach the ledger: what [json] parses and what the class
    builds itself. A [dict] (and an [OrderedDict]) is its list of items in
    insertion order; every key is a [str]. A [str] is a sequence of code points
    below 256. *)
Inductive pyval : Type :=
| PyNone
| PyBool (b : bool)
| PyInt (z : Z)
| PyFloat (f : float)
| PyStr (s : string)
| PyList (l : list pyval)
| PyDict (items : list (string * pyval)).

Inductive exn : Type :=
| TypeError | ValueError | KeyError | IndexError | OverflowError
| MalformedPointError | BadSignatureError | RequestException.

(** What a call produces: a value, a raised exception, or (for the unbounded
    proof-of-work loop run with a bound) no result within the bound. *)
Inductive outcome (A : Type) : Type :=
| Ok (a : A)
| Raise (e : exn)
| Unfinished.
Arguments Ok {A} a.
Arguments Raise {A} e.
Arguments Unfinished {A}.

Definition obind {A B} (o : outcome A) (k : A -> outcome B) : outcome B :=
  match o with
  | Ok a => k a
  | Raise e => Raise e
  | Unfinished => Unfinished
  end.

(** *** Decimal rendering of integers: [str(int)] *)

Fixpoint digits_of_pos (fuel : nat) (n : Z) (acc : list ascii) : list ascii :=
  match fuel with
  | O => acc
  | S fuel' =>
      let d := ascii_of_N (Z.to_N (48 + n mod 10)) in
      if n <? 10 then d :: acc else digits_of_pos fuel' (n / 10) (d :: acc)
  end.

(** Digits of a non-negative integer, without sign. *)
Definition digits_of (n : Z) : list ascii :=
  digits_of_pos (S (Z.to_nat (Z.log2 n))) n [].

Definition int_repr (z : Z) : string :=
  if z <? 0 then String "-" (string_of_list_ascii (digits_of (- z)))
  else string_of_list_ascii (digits_of z).

(** *** [float.__repr__]: the shortest decimal string that reads back as the
    same binary64 value, the one nearest to it when several are as short. *)

Definition pow10 (k : Z) : Q :=
  if 0 <=? k then inject_Z (10 ^ k) else Qinv (inject_Z (10 ^ (- k))).

Definition pow2 (k : Z) : Q :=
  if 0 <=? k then inject_Z (2 ^ k) else Qinv (inject_Z (2 ^ (- k))).

Definition Qltb (a b : Q) : bool :=
  match Qcompare a b with Lt => true | _ => false end.

(** floor (log10 x) for x > 0, from an estimate corrected upwards. *)
Fixpoint log10_fix (fuel : nat) (x : Q) (e : Z) : Z :=
  match fuel with
  | O => e
  | S fuel' => if Qle_bool (pow10 (e + 1)) x then log10_fix fuel' x (e + 1) else e
  end.

Definition floor_log10 (m e : Z) : Z :=
  let x := (inject_Z m * pow2 e)%Q in
  log10_fix 8 x ((Z.log2 m + e) * 30103 / 100000 - 2).

Fixpoint strip_zeros_rev (l : list ascii) : list ascii :=
  match l with
  | "0"%char :: l' => strip_zeros_rev l'
  | _ => l
  end.

Definition strip_trailing_zeros (l : list ascii) : list ascii :=
  rev (strip_zeros_rev (rev l)).

(** The [n]-digit decimals on either side of [x], kept when they round to [x]
    (they lie in the rounding interval [lo, hi], whose ends count when the
    mantissa is even); of two kept, the nearer to [x]. *)
Definition shortest_try (x lo hi : Q) (closed : bool) (E : Z) (n : Z) : option Z :=
  let s := pow10 (E - n + 1) in
  let d1 := Qfloor (x / s) in
  let d2 := d1 + 1 in
  let inside (d : Z) :=
    let c := (inject_Z d * s)%Q in
    if closed then Qle_bool lo c && Qle_bool c hi
    else Qltb lo c && Qltb c hi in
  match inside d1, inside d2 with
  | true, true =>
      let below := (x - inject_Z d1 * s)%Q in
      let above := (inject_Z d2 * s - x)%Q in
      match Qcompare below above with
      | Lt => Some d1
      | Gt => Some d2
      | Eq => Some (if Z.even d1 then d1 else d2)
      end
  | true, false => Some d1
  | false, true => Some d2
  | false, false => None
  end.

Fixpoint shortest_search (fuel : nat) (x lo hi : Q) (closed : bool) (E n : Z)
  : Z * Z :=
  match fuel with
  | O => (Qfloor (x / pow10 (E - 16)), 17)
  | S fuel' =>
      match shortest_try x lo hi closed E n with
      | Some d => (d, n)
      | None => shortest_search fuel' x lo hi closed E (n + 1)
      end
  end.

(** Digits and position of the decimal point: the value is 0.d1d2...dk * 10^decpt. *)
Definition shortest_digits (m e : Z) : list ascii * Z :=
  let x := (inject_Z m * pow2 e)%Q in
  let up := pow2 (e - 1) in
  let down := if (m =? 2 ^ 52) && (-1074 <? e) then pow2 (e - 2) else pow2 (e - 1) in
  let E := floor_log10 m e in
  let '(d, n) := shortest_search 17 x (x - down)%Q (x + up)%Q (Z.even m) E 1 in
  let ds := digits_of d in
  (strip_trailing_zeros ds, Z.of_nat (length ds) + (E - n + 1)).

Definition zeros (n : Z) : list ascii := repeat "0"%char (Z.to_nat n).

Definition format_repr (ds : list ascii) (decpt : Z) : list ascii :=
  if (decpt <=? -4) || (16 <? decpt) then
    let ex := decpt - 1 in
    let exd := digits_of (Z.abs ex) in
    let exd := if Z.abs ex <? 10 then "0"%char :: exd else exd in
    let mant := match ds with
                | [] => []
                | [d] => [d]
                | d :: rest => d :: "."%char :: rest
                end in
    mant ++ ["e"%char; if ex <? 0 then "-"%char else "+"%char] ++ exd
  else if decpt <=? 0 then
    ["0"; "."]%char ++ zeros (- decpt) ++ ds
  else if Z.of_nat (length ds) <=? decpt then
    ds ++ zeros (decpt - Z.of_nat (length ds)) ++ ["."; "0"]%char
  else
    firstn (Z.to_nat decpt) ds ++ ["."%char] ++ skipn (Z.to_nat decpt) ds.

(** [repr(f)] for a float, as [json.dumps] writes it ([allow_nan] is on). *)
Definition float_repr (f : float) : string :=
  match Prim2SF f with
  | S754_nan => "NaN"
  | S754_infinity false => "Infinity"
  | S754_infinity true => "-Infinity"
  | S754_zero false => "0.0"
  | S754_zero true => "-0.0"
  | S754_finite s m e =>
      let '(ds, decpt) := shortest_digits (Zpos m) e in
      let body := string_of_list_ascii (format_repr ds decpt) in
      if s then String "-" body else body
  end.

(* ===================================================================== *)
(** ** [json.dumps(obj, sort_keys=True)] *)
(* ===================================================================== *)

Definition dquote : ascii := ascii_of_N 34.

(** [ensure_ascii] escaping of one code point of a string. *)
Definition json_escape_char (c : ascii) : list ascii :=
  let n := Z.of_N (N_of_ascii c) in
  if n =? 34 then ["\"%char; dquote]
  else if n =? 92 then ["\"; "\"]%char
  else if n =? 10 then ["\"; "n"]%char
  else if n =? 13 then ["\"; "r"]%char
  else if n =? 9 then ["\"; "t"]%char
  else if n =? 8 then ["\"; "b"]%char
  else if n =? 12 then ["\"; "f"]%char
  else if (n <? 32) || (126 <? n) then ["\"; "u"]%char ++ hex_of 4 n
  else [c].

Definition json_quote (s : string) : string :=
  string_of_list_ascii
    ([dquote] ++ flat_map json_escape_char (list_ascii_of_string s) ++ [dquote]).

(** Stable insertion sort of items on their key, keys compared code point by
    code point: Python's [sorted(d.items(), key=lambda d: d[0])], and what
    [sort_keys] does to the items of a dictionary. *)
Fixpoint insert_item {V : Type} (x : string * V) (l : list (string * V))
  : list (string * V) :=
  match l with
  | [] => [x]
  | y :: l' =>
      if String.leb (fst x) (fst y) then x :: y :: l' else y :: insert_item x l'
  end.

Fixpoint sort_items {V : Type} (l : list (string * V)) : list (string * V) :=
  match l with
  | [] => []
  | x :: l' => insert_item x (sort_items l')
  end.

Definition render_item (kv : string * string) : string :=
  (json_quote (fst kv) ++ ": " ++ snd kv)%string.

(** The items of a dictionary are rendered first and sorted after: sorting
    looks at keys only, so this is the text [json.dumps] writes when it sorts
    the items and then renders each. *)
Fixpoint json_dumps (v : pyval) : string :=
  match v with
  | PyNone => "null"
  | PyBool true => "true"
  | PyBool false => "false"
  | PyInt z => int_repr z
  | PyFloat f => float_repr f
  | PyStr s => json_quote s
  | PyList l => ("[" ++ String.concat ", " (map json_dumps l) ++ "]")%string
  | PyDict items =>
      ("{" ++ String.concat ", "
                (map render_item
                   (sort_items
                      (map (fun kv => match kv with
                                      | (k, x) => (k, json_dumps x)
                                      end) items)))
           ++ "}")%string
  end.

(** [utils.sorted_dict_by_key] *)
Definition sorted_dict_by_key (unsorted_dict : list (string * pyval)) : pyval :=
  PyDict (sort_items unsorted_dict).

(** [BlockChain.hash] *)
Definition hash (block : pyval) : string :=
  let sorted_block := json_dumps block in
  sha256_hexdigest (encode_utf8 sorted_block).


(* ===================================================================== *)
(** ** Builtins the class uses on its values *)
(* ===================================================================== *)

Fixpoint assoc (k : string) (items : list (string * pyval)) : option pyval :=
  match items with
  | [] => None
  | (k', x) :: rest => if String.eqb k k' then Some x else assoc k rest
  end.

(** [d[k]] for a string key [k] *)
Definition py_getitem (d : pyval) (k : string) : outcome pyval :=
  match d with
  | PyDict items =>
      match assoc k items with
      | Some x => Ok x
      | None => Raise KeyError
      end
  | _ => Raise TypeError
  end.

(** [l[i]] on a list, for [i >= 0] *)
Definition py_index (l : list pyval) (i : nat) : outcome pyval :=
  match nth_error l i with
  | Some x => Ok x
  | None => Raise IndexError
  end.

(** [l[-1]] *)
Definition py_last (l : list pyval) : outcome pyval :=
  match l with
  | [] => Raise IndexError
  | _ => py_index l (length l - 1)
  end.

(** What [for x in v] goes through. *)
Definition py_iter (v : pyval) : outcome (list pyval) :=
  match v with
  | PyList l => Ok l
  | PyStr s => Ok (map (fun c => PyStr (String c EmptyString)) (list_ascii_of_string s))
  | PyDict items => Ok (map (fun kv => PyStr (fst kv)) items)
  | _ => Raise TypeError
  end.

(** [s == v] for a [str] s *)
Definition py_eq_str (s : string) (v : pyval) : bool :=
  match v with
  | PyStr s' => String.eqb s s'
  | _ => false
  end.

(** [float(n)] for an [int]: the nearest binary64, ties to even; too large an
    integer raises. *)
Definition float_of_int (z : Z) : outcome float :=
  match binary_normalize 53 1024 z 0 false with
  | S754_infinity _ => Raise OverflowError
  | r => Ok (SF2Prim r)
  end.

Definition is_space (c : ascii) : bool :=
  let n := Z.of_N (N_of_ascii c) in
  (n =? 32) || ((9 <=? n) && (n <=? 13)).

Definition hex_value (c : ascii) : option Z :=
  let n := Z.of_N (N_of_ascii c) in
  if (48 <=? n) && (n <=? 57) then Some (n - 48)
  else if (97 <=? n) && (n <=? 102) then Some (n - 87)
  else if (65 <=? n) && (n <=? 70) then Some (n - 55)
  else None.

(** [bytes().fromhex(s)]: pairs of hexadecimal digits, ASCII whitespace
    allowed between pairs. *)
Fixpoint fromhex (cs : list ascii) : outcome (list Z) :=
  match cs with
  | [] => Ok []
  | c :: rest =>
      if is_space c then fromhex rest
      else match hex_value c, rest with
           | Some hi, d :: rest' =>
               match hex_value d with
               | Some lo => obind (fromhex rest') (fun bs => Ok (16 * hi + lo :: bs))
               | None => Raise ValueError
               end
           | _, _ => Raise ValueError
           end
  end.

Definition bytes_fromhex (v : pyval) : outcome (list Z) :=
  match v with
  | PyStr s => fromhex (list_ascii_of_string s)
  | _ => Raise TypeError
  end.

(** [s[:n]] *)
Definition str_prefix (n : nat) (s : string) : string :=
  string_of_list_ascii (firstn n (list_ascii_of_string s)).

(** ['0' * n] *)
Definition str_zeros (n : nat) : string :=
  string_of_list_ascii (repeat "0"%char n).

(* ===================================================================== *)
(** ** What the class takes from outside *)
(* ===================================================================== *)

(** The answer to [requests.get(f'http://{node}/chain')]: the status code and
    the ['chain'] entry of the body, a JSON array. *)
Record response : Type := Response {
  status_code : Z;
  response_chain : list pyval
}.

Record world : Type := World {
  (** [float(s)] for a [str] *)
  float_of_str : string -> outcome float;
  (** [str(d)] for the [OrderedDict] of a transaction *)
  str_of : pyval -> string;
  (** [VerifyingKey.from_string(b, curve=NIST256p)]: [None] when the bytes are
      taken as a key, the exception otherwise *)
  VerifyingKey_from_string : list Z -> option exn;
  (** [verifying_key.verify(signature, message)] for the key of these bytes;
      python-ecdsa returns [True] or raises [BadSignatureError] *)
  VerifyingKey_verify : list Z -> list Z -> list Z -> outcome bool;
  (** [requests.get(url)] *)
  requests_get : string -> outcome response;
  (** [requests.put(url)] and [requests.put(url, json=body)] *)
  requests_put : string -> option pyval -> option exn;
  (** [requests.delete(url)] *)
  requests_delete : string -> option exn
}.

Definition MINING_DIFFICULTY : nat := 3.
Definition MINING_SENDER : string := "THE BLOCKCHAIN".
Definition MINING_REWARD : float := 1%float.
Definition MINING_TIMER_SEC : Z := 20.

(** A [threading.Timer] that was started: its delay and the method it calls. *)
Inductive task : Type := Task_start_mining | Task_sync_neighbours.

(** The fields of a [BlockChain] object, and the timers it has started. *)
Record BlockChain : Type := mkBlockChain {
  transaction_pool : list pyval;
  chain : list pyval;
  neighbours : list string;
  blockchain_address : pyval;
  port : pyval;
  mining_semaphore : nat;
  sync_neighbours_semaphore : nat;
  timers : list (Z * task)
}.

Definition set_transaction_pool (p : list pyval) (self : BlockChain) : BlockChain :=
  mkBlockChain p (chain self) (neighbours self) (blockchain_address self)
    (port self) (mining_semaphore self) (sync_neighbours_semaphore self) (timers self).

Definition set_chain (c : list pyval) (self : BlockChain) : BlockChain :=
  mkBlockChain (transaction_pool self) c (neighbours self) (blockchain_address self)
    (port self) (mining_semaphore self) (sync_neighbours_semaphore self) (timers self).

Definition set_mining_semaphore (n : nat) (self : BlockChain) : BlockChain :=
  mkBlockChain (transaction_pool self) (chain self) (neighbours self)
    (blockchain_address self) (port self) n (sync_neighbours_semaphore self)
    (timers self).

Definition add_timer (t : Z * task) (self : BlockChain) : BlockChain :=
  mkBlockChain (transaction_pool self) (chain self) (neighbours self)
    (blockchain_address self) (port self) (mining_semaphore self)
    (sync_neighbours_semaphore self) (timers self ++ [t]).

(** A method: from the object's state to what it returns or raises, and the
    state it leaves. *)
Definition method (A : Type) : Type := BlockChain -> outcome A * BlockChain.

Definition url (node path : string) : string :=
  ("http://" ++ node ++ path)%string.

(** [for node in nodes: call(node)], stopping at the first call that raises *)
Fixpoint for_each (call : string -> option exn) (nodes : list string) : outcome unit :=
  match nodes with
  | [] => Ok tt
  | node :: rest =>
      match call node with
      | Some e => Raise e
      | None => for_each call rest
      end
  end.

(* ===================================================================== *)
(** ** [class BlockChain] *)
(* ===================================================================== *)

Section Methods.

Variable W : world.

(** [float(v)] *)
Definition py_float (v : pyval) : outcome float :=
  match v with
  | PyFloat f => Ok f
  | PyInt z => float_of_int z
  | PyBool b => Ok (if b then 1%float else 0%float)
  | PyStr s => float_of_str W s
  | _ => Raise TypeError
  end.

(** [create_block]; [now] is what [time.time()] reads. The block and the
    emptied pool are in place before the neighbours are told. *)
Definition create_block (now : float) (nonce : Z) (previous_hash : string)
  : method pyval :=
  fun self =>
    let block := sorted_dict_by_key
                   [ ("timestamp", PyFloat now);
                     ("transactions", PyList (transaction_pool self));
                     ("nonce", PyInt nonce);
                     ("previous_hash", PyStr previous_hash) ] in
    let self := set_chain (chain self ++ [block]) self in
    let self := set_transaction_pool [] self in
    match for_each (fun node => requests_delete W (url node "/transactions"))
                   (neighbours self) with
    | Ok _ => (Ok block, self)
    | Raise e => (Raise e, self)
    | Unfinished => (Unfinished, self)
    end.

(** [__init__] *)
Definition init (now : float) (blockchain_address port : pyval) : BlockChain :=
  let self := mkBlockChain [] [] [] PyNone PyNone 0 0 [] in
  let self := snd (create_block now 0 (hash (PyDict [])) self) in
  mkBlockChain (transaction_pool self) (chain self) (neighbours self)
    blockchain_address port 1 1 (timers self).

(** [verify_transaction_signature] *)
Definition verify_transaction_signature
  (sender_public_key signature transaction : pyval) : outcome bool :=
  let message := SHA256.digest (encode_utf8 (str_of W transaction)) in
  obind (bytes_fromhex signature) (fun signature_bytes =>
  obind (bytes_fromhex sender_public_key) (fun key_bytes =>
  match VerifyingKey_from_string W key_bytes with
  | Some e => Raise e
  | None => VerifyingKey_verify W key_bytes signature_bytes message
  end)).

(** [valid_proof] *)
Definition valid_proof (transactions previous_hash nonce : pyval)
  (difficulty : nat) : bool :=
  let guess_block := sorted_dict_by_key
                       [ ("transactions", transactions);
                         ("nonce", nonce);
                         ("previous_hash", previous_hash) ] in
  let guess_hash := hash guess_block in
  String.eqb (str_prefix difficulty guess_hash) (str_zeros difficulty).

(** [calculate_total_amount]: the inner loop over one block's transactions,
    then the loop over the chain. *)
Fixpoint total_of_transactions (blockchain_address : string)
  (transactions : list pyval) (total_amount : float) : outcome float :=
  match transactions with
  | [] => Ok total_amount
  | transaction :: rest =>
      obind (py_getitem transaction "value") (fun x =>
      obind (py_float x) (fun value =>
      obind (py_getitem transaction "recipient_blockchain_address") (fun r =>
      let total_amount :=
        if py_eq_str blockchain_address r
        then (total_amount + value)%float else total_amount in
      obind (py_getitem transaction "sender_blockchain_address") (fun s =>
      let total_amount :=
        if py_eq_str blockchain_address s
        then (total_amount - value)%float else total_amount in
      total_of_transactions blockchain_address rest total_amount))))
  end.

Fixpoint total_of_blocks (blockchain_address : string) (blocks : list pyval)
  (total_amount : float) : outcome float :=
  match blocks with
  | [] => Ok total_amount
  | block :: rest =>
      obind (py_getitem block "transactions") (fun ts =>
      obind (py_iter ts) (fun transactions =>
      obind (total_of_transactions blockchain_address transactions total_amount)
            (fun total_amount =>
      total_of_blocks blockchain_address rest total_amount)))
  end.

Definition calculate_total_amount (blockchain_address : string)
  (self : BlockChain) : outcome float :=
  total_of_blocks blockchain_address (chain self) 0%float.

(** [add_transaction] *)
Definition add_transaction (sender_blockchain_address : string)
  (recipient_blockchain_address value sender_public_key signature : pyval)
  : method bool :=
  fun self =>
    match py_float value with
    | Raise e => (Raise e, self)
    | Unfinished => (Unfinished, self)
    | Ok v =>
        let transaction := sorted_dict_by_key
              [ ("sender_blockchain_address", PyStr sender_blockchain_address);
                ("recipient_blockchain_address", recipient_blockchain_address);
                ("value", PyFloat v) ] in
        if String.eqb sender_blockchain_address MINING_SENDER then
          (Ok true, set_transaction_pool (transaction_pool self ++ [transaction]) self)
        else
          match verify_transaction_signature sender_public_key signature
                  transaction with
          | Raise e => (Raise e, self)
          | Unfinished => (Unfinished, self)
          | Ok false => (Ok false, self)
          | Ok true =>
              match calculate_total_amount sender_blockchain_address self with
              | Raise e => (Raise e, self)
              | Unfinished => (Unfinished, self)
              | Ok total =>
                  if (total <? v)%float then (Ok false, self)
                  else (Ok true,
                        set_transaction_pool
                          (transaction_pool self ++ [transaction]) self)
              end
          end
    end.

(** [create_transaction] *)
Definition create_transaction (sender_blockchain_address : string)
  (recipient_blockchain_address value sender_public_key signature : pyval)
  : method bool :=
  fun self =>
    match add_transaction sender_blockchain_address recipient_blockchain_address
            value sender_public_key signature self with
    | (Ok true, self) =>
        let body := PyDict
              [ ("sender_blockchain_address", PyStr sender_blockchain_address);
                ("recipient_blockchain_address", recipient_blockchain_address);
                ("value", value);
                ("sender_public_key", sender_public_key);
                ("signature", signature) ] in
        match for_each (fun node =>
                          requests_put W (url node "/transactions") (Some body))
                       (neighbours self) with
        | Ok _ => (Ok true, self)
        | Raise e => (Raise e, self)
        | Unfinished => (Unfinished, self)
        end
    | r => r
    end.

(** The [while] loop of [proof_of_work], for at most [fuel] tests. *)
Fixpoint proof_of_work_while (fuel : nat) (transactions : list pyval)
  (previous_hash : string) (nonce : Z) : outcome Z :=
  match fuel with
  | O => Unfinished
  | S fuel' =>
      if valid_proof (PyList transactions) (PyStr previous_hash) (PyInt nonce)
           MINING_DIFFICULTY
      then Ok nonce
      else proof_of_work_while fuel' transactions previous_hash (nonce + 1)
  end.

(** [proof_of_work] *)
Definition proof_of_work (fuel : nat) (self : BlockChain) : outcome Z :=
  let transactions := transaction_pool self in
  obind (py_last (chain self)) (fun last_block =>
  let previous_hash := hash last_block in
  proof_of_work_while fuel transactions previous_hash 0).

(** [mining] *)
Definition mining (fuel : nat) (now : float) : method bool :=
  fun self =>
    match add_transaction MINING_SENDER (blockchain_address self)
            (PyFloat MINING_REWARD) PyNone PyNone self with
    | (Raise e, self) => (Raise e, self)
    | (Unfinished, self) => (Unfinished, self)
    | (Ok _, self) =>
        match proof_of_work fuel self with
        | Raise e => (Raise e, self)
        | Unfinished => (Unfinished, self)
        | Ok nonce =>
            match py_last (chain self) with
            | Raise e => (Raise e, self)
            | Unfinished => (Unfinished, self)
            | Ok last_block =>
                let previous_hash := hash last_block in
                match create_block now nonce previous_hash self with
                | (Raise e, self) => (Raise e, self)
                | (Unfinished, self) => (Unfinished, self)
                | (Ok _, self) =>
                    match for_each (fun node =>
                                      requests_put W (url node "/consensus") None)
                                   (neighbours self) with
                    | Ok _ => (Ok true, self)
                    | Raise e => (Raise e, self)
                    | Unfinished => (Unfinished, self)
                    end
                end
            end
        end
    end.

(** [mining_semaphore.acquire(blocking=False)] *)
Definition acquire_mining_semaphore : method bool :=
  fun self =>
    match mining_semaphore self with
    | O => (Ok false, self)
    | S n => (Ok true, set_mining_semaphore n self)
    end.

(** [mining_semaphore.release()] *)
Definition release_mining_semaphore (self : BlockChain) : BlockChain :=
  set_mining_semaphore (S (mining_semaphore self)) self.

(** The body of [start_mining] under the semaphore: the [with] block, and the
    release that leaving it runs, also when the block raises. *)
Definition start_mining_holding (fuel : nat) (now : float) : method unit :=
  fun self =>
    match mining fuel now self with
    | (Ok _, self) =>
        let self := add_timer (MINING_TIMER_SEC, Task_start_mining) self in
        (Ok tt, release_mining_semaphore self)
    | (Raise e, self) => (Raise e, release_mining_semaphore self)
    | (Unfinished, self) => (Unfinished, self)
    end.

(** [start_mining] *)
Definition start_mining (fuel : nat) (now : float) : method unit :=
  fun self =>
    match acquire_mining_semaphore self with
    | (Ok true, self) => start_mining_holding fuel now self
    | (_, self) => (Ok tt, self)
    end.

(** The [while] loop of [valid_chain]; [fuel] bounds the number of tests of
    its condition. *)
Fixpoint valid_chain_while (fuel : nat) (chain : list pyval) (pre_block : pyval)
  (current_index : nat) : outcome bool :=
  match fuel with
  | O => Unfinished
  | S fuel' =>
      if (current_index <? length chain)%nat then
        obind (py_index chain current_index) (fun block =>
        obind (py_getitem block "previous_hash") (fun ph =>
        if negb (py_eq_str (hash pre_block) ph) then Ok false
        else
          obind (py_getitem block "transactions") (fun transactions =>
          obind (py_getitem block "previous_hash") (fun previous_hash =>
          obind (py_getitem block "nonce") (fun nonce =>
          if negb (valid_proof transactions previous_hash nonce MINING_DIFFICULTY)
          then Ok false
          else valid_chain_while fuel' chain block (S current_index))))))
      else Ok true
  end.

(** [valid_chain] *)
Definition valid_chain (chain : list pyval) : outcome bool :=
  obind (py_index chain 0) (fun pre_block =>
  valid_chain_while (length chain) chain pre_block 1).

(** The [for] loop of [resolve_conflicts] *)
Fixpoint resolve_conflicts_for (nodes : list string)
  (longest_chain : option (list pyval)) (max_length : nat)
  : outcome (option (list pyval)) :=
  match nodes with
  | [] => Ok longest_chain
  | node :: rest =>
      obind (requests_get W (url node "/chain")) (fun response =>
      if status_code response =? 200 then
        let chain := response_chain response in
        let chain_length := length chain in
        if (max_length <? chain_length)%nat then
          obind (valid_chain chain) (fun valid =>
          if valid then resolve_conflicts_for rest (Some chain) chain_length
          else resolve_conflicts_for rest longest_chain max_length)
        else resolve_conflicts_for rest longest_chain max_length
      else resolve_conflicts_for rest longest_chain max_length)
  end.

(** [resolve_conflicts]; a list is true when it is not empty. *)
Definition resolve_conflicts : method bool :=
  fun self =>
    match resolve_conflicts_for (neighbours self) None (length (chain self)) with
    | Raise e => (Raise e, self)
    | Unfinished => (Unfinished, self)
    | Ok (Some (b :: c)) => (Ok true, set_chain (b :: c) self)
    | Ok _ => (Ok false, self)
    end.

End Methods.

(* ===================================================================== *)
(** ** [utils.find_neighbours] *)
(* ===================================================================== *)

Definition is_digit (c : ascii) : bool :=
  let n := Z.of_N (N_of_ascii c) in (48 <=? n) && (n <=? 57).

(** [\d{1,3}] at the head of [cs]: up to three digits, as many as there are,
    and what follows them. *)
Definition take_digits (cs : list ascii) : option (list ascii * list ascii) :=
  match cs with
  | d1 :: rest1 =>
      if is_digit d1 then
        match rest1 with
        | d2 :: rest2 =>
            if is_digit d2 then
              match rest2 with
              | d3 :: rest3 =>
                  if is_digit d3 then Some ([d1; d2; d3], rest3)
                  else Some ([d1; d2], rest2)
              | [] => Some ([d1; d2], [])
              end
            else Some ([d1], rest1)
        | [] => Some ([d1], [])
        end
      else None
  | [] => None
  end.

(** [\d{1,3}\.] *)
Definition take_digits_dot (cs : list ascii) : option (list ascii * list ascii) :=
  match take_digits cs with
  | Some (ds, c :: rest) =>
      if Ascii.eqb c "."%char then Some (ds ++ [c], rest) else None
  | _ => None
  end.

(** [$]: the end of the string, or a newline that ends it. *)
Definition at_end (cs : list ascii) : bool :=
  match cs with
  | [] => true
  | [c] => (Z.of_N (N_of_ascii c) =? 10)
  | _ => false
  end.

(** [RE_IP.search(my_host)]: the groups [prefix_host] and [last_ip] of a
    match. The pattern is anchored at the start of the string. *)
Definition RE_IP_search (my_host : string) : option (string * string) :=
  match take_digits_dot (list_ascii_of_string my_host) with
  | Some (g1, r1) =>
      match take_digits_dot r1 with
      | Some (g2, r2) =>
          match take_digits_dot r2 with
          | Some (g3, r3) =>
              match take_digits r3 with
              | Some (ds, rest) =>
                  if at_end rest
                  then Some (string_of_list_ascii (g1 ++ g2 ++ g3),
                             string_of_list_ascii ds)
                  else None
              | None => None
              end
          | None => None
          end
      | None => None
      end
  | None => None
  end.

(** [int(s)] for a string of digits *)
Definition int_of_digits (s : string) : Z :=
  fold_left (fun acc c => 10 * acc + (Z.of_N (N_of_ascii c) - 48))
            (list_ascii_of_string s) 0.

(** [range(a, b)] *)
Definition py_range (a b : Z) : list Z :=
  map (fun i => a + Z.of_nat i) (seq 0 (Z.to_nat (b - a))).

(** [find_neighbours]; [is_found_host] is the probe of [utils.is_found_host],
    which answers true or false whatever the socket does, and [my_port] is an
    [int]. *)
Definition find_neighbours (is_found_host : string -> Z -> bool)
  (my_host : string) (my_port : Z)
  (start_ip_range end_ip_range start_port end_port : Z) : option (list string) :=
  let address := (my_host ++ ":" ++ int_repr my_port)%string in
  match RE_IP_search my_host with
  | None => None
  | Some (prefix_host, last_ip) =>
      Some
        (flat_map
           (fun guess_port =>
              flat_map
                (fun ip_range =>
                   let guess_host :=
                     (prefix_host ++ int_repr (int_of_digits last_ip + ip_range))%string in
                   let guess_address :=
                     (guess_host ++ ":" ++ int_repr guess_port)%string in
                   if is_found_host guess_host guess_port
                      && negb (String.eqb guess_address address)
                   then [guess_address] else [])
                (py_range start_ip_range end_ip_range))
           (py_range start_port end_port))
  end.

(* ===================================================================== *)
(** ** [set_neighbours], [sync_neighbours] and [run] *)
(* ===================================================================== *)

Definition BLOCKCHAIN_PORT_RANGE : Z * Z := (5000, 5003).
Definition NEIGHBOURS_IP_RANGE_NUM : Z * Z := (0, 1).
Definition BLOCKCHAIN_NEIGHBOURS_SYNC_TIME_SEC : Z := 20.

(** What the node takes from its sockets at one call: the address
    [utils.get_host()] returns and the answers of [utils.is_found_host]. *)
Record network : Type := Network {
  get_host : string;
  is_found_host : string -> Z -> bool
}.

Definition store_neighbours (found : list string) (self : BlockChain) : BlockChain :=
  mkBlockChain (transaction_pool self) (chain self) found (blockchain_address self)
    (port self) (mining_semaphore self) (sync_neighbours_semaphore self) (timers self).

Definition set_sync_neighbours_semaphore (n : nat) (self : BlockChain) : BlockChain :=
  mkBlockChain (transaction_pool self) (chain self) (neighbours self)
    (blockchain_address self) (port self) (mining_semaphore self) n (timers self).

(** [set_neighbours], which does not raise. The port is an [int], as the
    server passes it. [get_host] returns a dotted IPv4 address, which [RE_IP]
    matches; for a host it does not match [find_neighbours] returns [None],
    and so does this function: the field then holds no list, and the state
    type has no place for that. *)
Definition set_neighbours (N : network) (self : BlockChain) : option BlockChain :=
  match port self with
  | PyInt my_port =>
      match find_neighbours (is_found_host N) (get_host N) my_port
              (fst NEIGHBOURS_IP_RANGE_NUM) (snd NEIGHBOURS_IP_RANGE_NUM)
              (fst BLOCKCHAIN_PORT_RANGE) (snd BLOCKCHAIN_PORT_RANGE) with
      | Some found => Some (store_neighbours found self)
      | None => None
      end
  | _ => None
  end.

(** [sync_neighbours]: under its semaphore, [set_neighbours] and the timer of
    the next synchronisation; the semaphore is released on leaving the [with]
    block. *)
Definition sync_neighbours (N : network) (self : BlockChain) : option BlockChain :=
  match sync_neighbours_semaphore self with
  | O => Some self
  | S n =>
      match set_neighbours N (set_sync_neighbours_semaphore n self) with
      | Some self =>
          let self :=
            add_timer (BLOCKCHAIN_NEIGHBOURS_SYNC_TIME_SEC, Task_sync_neighbours) self in
          Some (set_sync_neighbours_semaphore (S (sync_neighbours_semaphore self)) self)
      | None => None
      end
  end.

(** [run]: [sync_neighbours], [resolve_conflicts], [start_mining]. *)
Definition run (W : world) (N : network) (fuel : nat) (now : float)
  (self : BlockChain) : option (outcome unit * BlockChain) :=
  match sync_neighbours N self with
  | Some self =>
      Some match resolve_conflicts W self with
           | (Ok _, self) => start_mining W fuel now self
           | (Raise e, self) => (Raise e, self)
           | (Unfinished, self) => (Unfinished, self)
           end
  | None => None
  end.
Arguments hash : simpl never.
Arguments valid_proof : simpl never.
Arguments float_repr : simpl never.
Arguments sha256_hexdigest : simpl never.

(* ===================================================================== *)
(** ** Vocabulary of the statements *)
(* ===================================================================== *)

(** A block as the data model has it: a dictionary with (at least) its
    transactions, the previous hash and the nonce. *)
Definition is_block (b : pyval) : Prop :=
  exists t p n,
    py_getitem b "transactions" = Ok t /\
    py_getitem b "previous_hash" = Ok p /\
    py_getitem b "nonce" = Ok n.

(** [block] follows [pre_block]: its previous hash is the hash of [pre_block]
    and its proof of work holds at the system difficulty. *)
Definition block_passes (pre_block block : pyval) : Prop :=
  exists t p n,
    py_getitem block "transactions" = Ok t /\
    py_getitem block "previous_hash" = Ok p /\
    py_getitem block "nonce" = Ok n /\
    p = PyStr (hash pre_block) /\
    valid_proof t p n MINING_DIFFICULTY = true.

(** One turn of the loop of [valid_chain] on [block] after [pre_block]:
    whether the walk goes on. *)
Definition check_block (pre_block block : pyval) : outcome bool :=
  obind (py_getitem block "previous_hash") (fun ph =>
  if negb (py_eq_str (hash pre_block) ph) then Ok false
  else
    obind (py_getitem block "transactions") (fun transactions =>
    obind (py_getitem block "previous_hash") (fun previous_hash =>
    obind (py_getitem block "nonce") (fun nonce =>
    Ok (valid_proof transactions previous_hash nonce MINING_DIFFICULTY))))).

(** The walk of [valid_chain] over the blocks after [pre_block]. *)
Fixpoint walk (pre_block : pyval) (rest : list pyval) : outcome bool :=
  match rest with
  | [] => Ok true
  | block :: rest' =>
      obind (check_block pre_block block) (fun ok =>
      if ok then walk block rest' else Ok false)
  end.

(** An outcome that is a boolean. *)
Definition returns_bool (o : outcome bool) : Prop := exists b, o = Ok b.


(** The chains [resolve_conflicts] gets to see: the ['chain'] of every
    answer with status 200, in the order of the neighbours. *)
Definition fetched_chains (answers : list response) : list (list pyval) :=
  map response_chain (filter (fun r => status_code r =? 200) answers).

(** A fetched chain that is strictly longer than the local one and valid. *)
Definition candidate (self : BlockChain) (fetched : list (list pyval))
  (c : list pyval) : Prop :=
  In c fetched /\ (length (chain self) < length c)%nat /\ valid_chain c = Ok true.

Definition chain_ok (c : list pyval) : bool :=
  match valid_chain c with
  | Ok true => true
  | _ => false
  end.

(** The choice the loop of [resolve_conflicts] makes among fetched chains. *)
Fixpoint pick (chains : list (list pyval)) (longest_chain : option (list pyval))
  (max_length : nat) : option (list pyval) :=
  match chains with
  | [] => longest_chain
  | c :: rest =>
      if (max_length <? length c)%nat && chain_ok c
      then pick rest (Some c) (length c)
      else pick rest longest_chain max_length
  end.

(** The dictionary [add_transaction] builds. *)
Definition transaction_of (sender : string) (recipient : pyval) (v : float) : pyval :=
  sorted_dict_by_key
    [ ("sender_blockchain_address", PyStr sender);
      ("recipient_blockchain_address", recipient);
      ("value", PyFloat v) ].

(** The reward transaction of a node. *)
Definition reward_of (self : BlockChain) : pyval :=
  transaction_of MINING_SENDER (blockchain_address self) MINING_REWARD.

(** The block [create_block] builds. *)
Definition block_of (now : float) (transactions : list pyval) (nonce : Z)
  (previous_hash : string) : pyval :=
  sorted_dict_by_key
    [ ("timestamp", PyFloat now);
      ("transactions", PyList transactions);
      ("nonce", PyInt nonce);
      ("previous_hash", PyStr previous_hash) ].

(** *** The balance as the specification words it *)

(** A transaction of the chain, read: who sends, who receives, how much. *)
Record entry : Type := Entry {
  entry_sender : pyval;
  entry_recipient : pyval;
  entry_value : float
}.

(** What one transaction adds to the running sum for [address]: plus the
    value when [address] receives, minus the value when it sends. *)
Definition credit (address : string) (t : entry) (total : float) : float :=
  let total := if py_eq_str address (entry_recipient t)
               then (total + entry_value t)%float else total in
  if py_eq_str address (entry_sender t)
  then (total - entry_value t)%float else total.

(** The sum over the transactions of all blocks, in chain order, from 0.0. *)
Definition balance_sum (address : string) (blocks : list (list entry)) : float :=
  fold_left (fun total t => credit address t total) (concat blocks) 0%float.

Definition is_entry (W : world) (transaction : pyval) (t : entry) : Prop :=
  exists x,
    py_getitem transaction "value" = Ok x /\
    py_float W x = Ok (entry_value t) /\
    py_getitem transaction "recipient_blockchain_address" = Ok (entry_recipient t) /\
    py_getitem transaction "sender_blockchain_address" = Ok (entry_sender t).

(** [block] holds the transactions [ts], in this order. *)
Definition block_entries (W : world) (block : pyval) (ts : list entry) : Prop :=
  exists l,
    py_getitem block "transactions" = Ok (PyList l) /\ Forall2 (is_entry W) l ts.

(** Two invocations of [start_mining] that overlap: the first takes the
    semaphore, the second runs in full while the first holds it, then the
    first runs its body and releases. (When the first finds the semaphore
    taken it does nothing and the second runs alone.) Returns what the first
    and the second return and the state left. *)
Definition overlapping_start_mining (W : world) (fuel : nat) (now : float)
  (fuel2 : nat) (now2 : float) (self : BlockChain)
  : (outcome unit * outcome unit) * BlockChain :=
  match acquire_mining_semaphore self with
  | (Ok true, held) =>
      let (r2, s2) := start_mining W fuel2 now2 held in
      let (r1, s3) := start_mining_holding W fuel now s2 in
      ((r1, r2), s3)
  | (_, self) =>
      let (r2, s2) := start_mining W fuel2 now2 self in
      ((Ok tt, r2), s2)
  end.

(** *** Equal content under different insertion orders *)

(** Two values with the same logical content: equal, or lists of such values,
    or dictionaries (without repeated keys) whose items are the same up to
    their order, the values again up to the order of nested dictionaries. *)
Inductive same_content : pyval -> pyval -> Prop :=
| same_refl (v : pyval) : same_content v v
| same_list (l1 l2 : list pyval) :
    Forall2 same_content l1 l2 -> same_content (PyList l1) (PyList l2)
| same_dict (d1 d1' d2 : list (string * pyval)) :
    NoDup (map fst d1) ->
    Forall2 (fun a b => fst a = fst b /\ same_content (snd a) (snd b)) d1 d1' ->
    Permutation d1' d2 ->
    same_content (PyDict d1) (PyDict d2).

(** Items in key order. *)
Definition key_le {V : Type} (a b : string * V) : Prop :=
  String.leb (fst a) (fst b) = true.

Definition is_lower_hex (c : ascii) : bool :=
  let n := Z.of_N (N_of_ascii c) in
  ((48 <=? n) && (n <=? 57)) || ((97 <=? n) && (n <=? 102)).

(** *** The states a node goes through *)

(** One call on the object, from the server's handlers, from [run] or from a
    timer: a method of the class, or the handler of [DELETE /transactions],
    which empties the pool field itself. A call that raises, or a search that
    is cut short, leaves the state it had reached. The neighbours are set by
    [set_neighbours] and [sync_neighbours], each call with the answers its
    sockets give; [run] is three of these calls in a row. *)
Inductive step (W : world) : BlockChain -> BlockChain -> Prop :=
| step_set_neighbours N self self' :
    set_neighbours N self = Some self' -> step W self self'
| step_sync_neighbours N self self' :
    sync_neighbours N self = Some self' -> step W self self'
| step_add_transaction sender recipient value pk sig self :
    step W self (snd (add_transaction W sender recipient value pk sig self))
| step_create_transaction sender recipient value pk sig self :
    step W self (snd (create_transaction W sender recipient value pk sig self))
| step_mining fuel now self :
    step W self (snd (mining W fuel now self))
| step_start_mining fuel now self :
    step W self (snd (start_mining W fuel now self))
| step_resolve_conflicts self :
    step W self (snd (resolve_conflicts W self))
| step_delete_transactions self :
    step W self (set_transaction_pool [] self).

Inductive reachable (W : world) : BlockChain -> Prop :=
| reachable_init now blockchain_address port :
    reachable W (init W now blockchain_address port)
| reachable_step self self' :
    reachable W self -> step W self self' -> reachable W self'.

Ltac block_has_keys :=
  unfold is_block; eexists _, _, _; repeat split; reflexivity.
(* ===================================================================== *)
(** ** Sample data for concrete runs *)
(* ===================================================================== *)

(** Mining with the nonce given instead of searched: the reward, then the
    block on the hash of the last one. *)
Definition mine_with_nonce (W : world) (now : float) (nonce : Z)
  (self : BlockChain) : BlockChain :=
  let self := snd (add_transaction W MINING_SENDER (blockchain_address self)
                     (PyFloat MINING_REWARD) PyNone PyNone self) in
  match py_last (chain self) with
  | Ok last_block => snd (create_block W now nonce (hash last_block) self)
  | _ => self
  end.

Definition sample_public_key : pyval := PyStr (String.concat "" (repeat "11" 64)).
Definition sample_signature : pyval := PyStr (String.concat "" (repeat "22" 64)).

(** A world of two peers. Its verifier takes 64-byte keys and accepts one
    signature, its [float] is given no numeral in these runs, and [str] is
    stood for by the JSON text. *)
Definition sample_verify (key signature message : list Z) : outcome bool :=
  if forallb (Z.eqb 34) signature && (length signature =? 64)%nat
  then Ok true else Raise BadSignatureError.

Definition sample_key_check (key : list Z) : option exn :=
  if (length key =? 64)%nat then None else Some MalformedPointError.

Definition lone_world : world :=
  World (fun _ => Raise ValueError) json_dumps sample_key_check sample_verify
        (fun _ => Raise RequestException)
        (fun _ _ => Some RequestException)
        (fun _ => Some RequestException).

Definition transfer (sender recipient : string) (value : float) : pyval :=
  sorted_dict_by_key
    [ ("sender_blockchain_address", PyStr sender);
      ("recipient_blockchain_address", PyStr recipient);
      ("value", PyFloat value) ].

(** A fresh node, then the same node with two pending transfers. *)
Definition fresh_ledger : BlockChain :=
  Eval vm_compute in init lone_world 1700000000.5 (PyStr "miner2498") (PyInt 5000).

Definition pending_ledger : BlockChain :=
  Eval vm_compute in
    set_transaction_pool [transfer "A" "B" 5; transfer "B" "A" 2] fresh_ledger.

(** The chains of two peers, of 2 and 5 blocks, and a local chain of 3. *)
Definition peer5001_chain : list pyval :=
  Eval vm_compute in
    chain (mine_with_nonce lone_world 1700000021 694
             (init lone_world 1700000001 (PyStr "peer5001") (PyInt 5001))).

Definition peer5002_chain : list pyval :=
  Eval vm_compute in
    chain (mine_with_nonce lone_world 1700000082 11748
          (mine_with_nonce lone_world 1700000062 2604
          (mine_with_nonce lone_world 1700000042 6064
          (mine_with_nonce lone_world 1700000022 6249
             (init lone_world 1700000002 (PyStr "peer5002") (PyInt 5002)))))).

(** The chain of the second peer with the nonce of its last block changed. *)
Definition peer5002_forged : list pyval :=
  Eval vm_compute in
    chain (mine_with_nonce lone_world 1700000082 11749
          (mine_with_nonce lone_world 1700000062 2604
          (mine_with_nonce lone_world 1700000042 6064
          (mine_with_nonce lone_world 1700000022 6249
             (init lone_world 1700000002 (PyStr "peer5002") (PyInt 5002)))))).

Definition peers : list string := ["127.0.0.1:5001"; "127.0.0.1:5002"].

Definition local_ledger : BlockChain :=
  Eval vm_compute in
    let self := mine_with_nonce lone_world 1700000040.5 823
               (mine_with_nonce lone_world 1700000020.5 2000
                  (init lone_world 1700000000.5 (PyStr "local") (PyInt 5000))) in
    mkBlockChain (transaction_pool self) (chain self) peers
      (blockchain_address self) (port self) (mining_semaphore self)
      (sync_neighbours_semaphore self) (timers self).

Definition serve (second : list pyval) (u : string) : outcome response :=
  if String.eqb u "http://127.0.0.1:5001/chain" then Ok (Response 200 peer5001_chain)
  else if String.eqb u "http://127.0.0.1:5002/chain" then Ok (Response 200 second)
  else Raise RequestException.

Definition peers_world (second : list pyval) : world :=
  World (fun _ => Raise ValueError) json_dumps sample_key_check sample_verify
        (serve second) (fun _ _ => None) (fun _ => None).

(** The node after one mining run on the two pending transfers. *)
Definition mined_ledger : BlockChain :=
  Eval vm_compute in snd (mining lone_world 3 1700000020.25 pending_ledger).

(* ===================================================================== *)
(** ** [wallet.Transaction.generate_signature] *)
(* ===================================================================== *)

(** [b.hex()] *)
Definition bytes_hex (bs : list Z) : string :=
  string_of_list_ascii (flat_map (hex_of 2) bs).

Definition is_byte (b : Z) : Prop := 0 <= b < 256.

(** The signing side of the ECDSA library: [SigningKey.from_string(b,
    curve=NIST256p)] ([None] when the bytes are taken as a key) and
    [private_key.sign(message)] for the key of these bytes. *)
Record signer : Type := Signer {
  SigningKey_from_string : list Z -> option exn;
  SigningKey_sign : list Z -> list Z -> outcome (list Z)
}.

(** [generate_signature] of a wallet transaction with these fields. *)
Definition generate_signature (W : world) (S : signer)
  (sender_private_key : pyval) (sender_blockchain_address : string)
  (recipient_blockchain_address value : pyval) : outcome string :=
  obind (py_float W value) (fun v =>
  let transaction := sorted_dict_by_key
        [ ("sender_blockchain_address", PyStr sender_blockchain_address);
          ("recipient_blockchain_address", recipient_blockchain_address);
          ("value", PyFloat v) ] in
  let message := SHA256.digest (encode_utf8 (str_of W transaction)) in
  obind (bytes_fromhex sender_private_key) (fun key_bytes =>
  match SigningKey_from_string S key_bytes with
  | Some e => Raise e
  | None =>
      obind (SigningKey_sign S key_bytes message) (fun private_key_sign =>
      Ok (bytes_hex private_key_sign))
  end)).

(** A signer for the sample runs: its signature is the one the sample
    verifier accepts. *)
Definition sample_signer : signer :=
  Signer (fun key => if (length key =? 32)%nat then None else Some MalformedPointError)
         (fun _ _ => Ok (repeat 34 64)).

Definition sample_private_key : pyval := PyStr (String.concat "" (repeat "33" 32)).

(** The entries of the pool, read as transactions. *)
Definition pool_entries (W : world) (self : BlockChain) (ts : list entry) : Prop :=
  Forall2 (is_entry W) (transaction_pool self) ts.

(** The first chain of [chains] that is valid and longer than [n], no later
    valid chain being longer than it. *)
Definition first_longest (chains : list (list pyval)) (n : nat) (c : list pyval)
  : Prop :=
  exists before after,
    chains = before ++ c :: after /\
    (n < length c)%nat /\ valid_chain c = Ok true /\
    (forall c', In c' before -> valid_chain c' = Ok true ->
                (length c' < length c)%nat) /\
    (forall c', In c' after -> valid_chain c' = Ok true ->
                (length c' <= length c)%nat).

(** A world in which the first peer serves the chain of 5 blocks and the
    second cannot be reached. *)
Definition first_peer_world : world :=
  World (fun _ => Raise ValueError) json_dumps sample_key_check sample_verify
        (fun u => if String.eqb u "http://127.0.0.1:5001/chain"
                  then Ok (Response 200 peer5002_chain)
                  else Raise RequestException)
        (fun _ _ => None) (fun _ => None).

(** A chain of two blocks whose second block passes [valid_chain] but holds
    a number where its transactions should be. *)
Definition odd_chain : list pyval :=
  Eval vm_compute in
    chain fresh_ledger ++
    [ sorted_dict_by_key
        [ ("timestamp", PyFloat 1700000030);
          ("transactions", PyInt 5);
          ("nonce", PyInt 8537);
          ("previous_hash", PyStr (hash (nth 0 (chain fresh_ledger) PyNone))) ] ].

(** Printable ASCII: the characters from the space to the tilde. *)
Definition is_printable_ascii (c : ascii) : bool :=
  let n := Z.of_N (N_of_ascii c) in (32 <=? n) && (n <=? 126).

Definition printable (s : string) : Prop :=
  Forall (fun c => is_printable_ascii c = true) (list_ascii_of_string s).

(** A chain of six dictionaries that have no key, and a world in which the
    first peer serves the valid chain of 5 blocks and the second peer this
    one. *)
Definition keyless_chain : list pyval := repeat (PyDict []) 6.

Definition keyless_world : world :=
  World (fun _ => Raise ValueError) json_dumps sample_key_check sample_verify
        (fun u => if String.eqb u "http://127.0.0.1:5001/chain"
                  then Ok (Response 200 peer5002_chain)
                  else if String.eqb u "http://127.0.0.1:5002/chain"
                  then Ok (Response 200 keyless_chain)
                  else Raise RequestException)
        (fun _ _ => None) (fun _ => None).

(** A node on port 5000 of a host where the ports 5001 and 5002 answer, from
    its start: the neighbours found, the chain of the second peer adopted, and
    a payment of the system sender pending. *)
Definition sample_network : network :=
  Network "127.0.0.1" (fun _ p => (p =? 5001) || (p =? 5002)).

Definition started_ledger : BlockChain :=
  Eval vm_compute in
    init (peers_world peer5002_chain) 1700000000.5 (PyStr "local") (PyInt 5000).

Definition synced_ledger : BlockChain :=
  Eval vm_compute in
    match sync_neighbours sample_network started_ledger with
    | Some self => self
    | None => started_ledger
    end.

Definition adopted_ledger : BlockChain :=
  Eval vm_compute in snd (resolve_conflicts (peers_world peer5002_chain) synced_ledger).

Definition funded_ledger : BlockChain :=
  Eval vm_compute in
    snd (add_transaction (peers_world peer5002_chain) MINING_SENDER (PyStr "A")
           (PyInt 3123) PyNone PyNone adopted_ledger).

(* ===================================================================== *)
(** ** The written-out library functions on known values *)
(* ===================================================================== *)

Example sha256_constants :
  length SHA256.primes = 64%nat /\ last SHA256.primes 0 = 311 /\
  hd 0 SHA256.K = 0x428a2f98 /\ last SHA256.K 0 = 0xc67178f2 /\
  hd 0 SHA256.H0 = 0x6a09e667 /\ last SHA256.H0 0 = 0x5be0cd19.
Proof. repeat split. Qed.

Example sha256_empty :
  sha256_hexdigest (encode_utf8 "") =
  "e3b0c44298fc1c149afbf4c8996fb92427ae41e4649b934ca495991b7852b855".
Proof. vm_compute. reflexivity. Qed.

Example sha256_abc :
  sha256_hexdigest (encode_utf8 "abc") =
  "ba7816bf8f01cfea414140de5dae2223b00361a396177a9cb410ff61f20015ad".
Proof. vm_compute. reflexivity. Qed.

(** The previous hash of every genesis block: [hash({})]. *)
Example hash_empty_dict :
  hash (PyDict []) =
  "44136fa355b3678a1146ad16f7e8649e94fb4fc21fe77e8310c060f61caaff8a".
Proof. vm_compute. reflexivity. Qed.

Example float_repr_samples :
  map float_repr
    [ 5; 1; 0.5; 1700000000.5; 1e22; 0x1.999999999999ap-4; 0x1.3333333333334p-2;
      1e16; 1000000000000000; 0x1.a36e2eb1c432dp-14; 0x1.4f8b588e368f1p-17;
      9007199254740992; 0x0.0000000000001p-1022; 0x1.fffffffffffffp+1023;
      (-3); (-0); infinity; neg_infinity; nan ]%float
  = [ "5.0"; "1.0"; "0.5"; "1700000000.5"; "1e+22"; "0.1"; "0.30000000000000004";
      "1e+16"; "1000000000000000.0"; "0.0001"; "1e-05";
      "9007199254740992.0"; "5e-324"; "1.7976931348623157e+308";
      "-3.0"; "-0.0"; "Infinity"; "-Infinity"; "NaN" ]%string.
Proof. vm_compute. reflexivity. Qed.

Example int_repr_samples :
  map int_repr [0; 7; 10; -12; 11748] = ["0"; "7"; "10"; "-12"; "11748"]%string.
Proof. vm_compute. reflexivity. Qed.

Example float_of_int_samples :
  map float_of_int [0; -5; 9007199254740993; 2 ^ 1024] =
  [Ok 0%float; Ok (-5)%float; Ok 9007199254740992%float; Raise OverflowError].
Proof. vm_compute. reflexivity. Qed.

Example bytes_fromhex_samples :
  map bytes_fromhex [PyStr "0a FF 10"; PyStr "0a F"; PyStr "0 a"; PyStr "zz"; PyNone] =
  [Ok [10; 255; 16]; Raise ValueError; Raise ValueError; Raise ValueError;
   Raise TypeError].
Proof. vm_compute. reflexivity. Qed.

(** Keys are sorted at every level, whatever the insertion order. *)
Example hash_of_a_block :
  hash (PyDict [ ("timestamp", PyFloat 1700000000.5);
                 ("transactions", PyList [transfer "A" "B" 5]);
                 ("nonce", PyInt 12);
                 ("previous_hash", PyStr "00ab") ])
  = hash (PyDict [ ("nonce", PyInt 12);
                   ("previous_hash", PyStr "00ab");
                   ("timestamp", PyFloat 1700000000.5);
                   ("transactions",
                    PyList [PyDict [ ("value", PyFloat 5);
                                     ("sender_blockchain_address", PyStr "A");
                                     ("recipient_blockchain_address", PyStr "B") ]]) ])
  /\
  hash (PyDict [ ("timestamp", PyFloat 1700000000.5);
                 ("transactions", PyList [transfer "A" "B" 5]);
                 ("nonce", PyInt 12);
                 ("previous_hash", PyStr "00ab") ])
  = "22d0ed989454a0713fcf421d4633f4553dc78514375f5ce8c29277fe7e3affca".
Proof. split; vm_compute; reflexivity. Qed.

(* ===================================================================== *)
(** ** The sample runs *)
(* ===================================================================== *)

(** A fresh node holds the genesis block: nonce 0, no transaction, the hash
    of the empty dictionary as previous hash. *)
Example fresh_ledger_genesis :
  chain fresh_ledger = [block_of 1700000000.5 [] 0 (hash (PyDict []))] /\
  transaction_pool fresh_ledger = [] /\
  map hash (chain fresh_ledger) =
  ["a3e9898c4312fe6aff1bd754c00e16356d1316c8f656e190e9bfd44fa4f23e45"]%string.
Proof. repeat split; vm_compute; reflexivity. Qed.

Example mined_ledger_chain :
  chain mined_ledger =
  chain fresh_ledger ++
  [ block_of 1700000020.25
      [transfer "A" "B" 5; transfer "B" "A" 2; transfer MINING_SENDER "miner2498" 1]
      2 "a3e9898c4312fe6aff1bd754c00e16356d1316c8f656e190e9bfd44fa4f23e45" ] /\
  valid_chain (chain mined_ledger) = Ok true /\
  mining lone_world 2 1700000020.25 pending_ledger =
  (Unfinished,
   set_transaction_pool
     [transfer "A" "B" 5; transfer "B" "A" 2; transfer MINING_SENDER "miner2498" 1]
     pending_ledger).
Proof. repeat split; vm_compute; reflexivity. Qed.

(** The sample chains are valid; the forged one is not. *)
Example sample_chains_valid :
  map valid_chain [peer5001_chain; peer5002_chain; chain local_ledger; peer5002_forged]
  = [Ok true; Ok true; Ok true; Ok false].
Proof. vm_compute. reflexivity. Qed.

(** When the chain of 5 blocks does not pass [valid_chain], the local chain
    of 3 is kept; a chain as long as the local one is not adopted either. *)
Example resolve_conflicts_keeps_local :
  resolve_conflicts (peers_world peer5002_forged) local_ledger = (Ok false, local_ledger)
  /\
  resolve_conflicts (peers_world (chain local_ledger)) local_ledger
  = (Ok false, local_ledger).
Proof. split; vm_compute; reflexivity. Qed.

(** A peer that cannot be reached makes [resolve_conflicts] raise. *)
Example resolve_conflicts_unreachable_peer :
  resolve_conflicts lone_world local_ledger = (Raise RequestException, local_ledger).
Proof. vm_compute. reflexivity. Qed.

(** A value that is not a number is admitted when the signature passes: no
    balance is below it. *)
Example add_transaction_nan :
  fst (add_transaction lone_world "B" (PyStr "A") (PyFloat nan) sample_public_key
         sample_signature fresh_ledger) = Ok true /\
  calculate_total_amount lone_world "B" fresh_ledger = Ok 0%float.
Proof. split; vm_compute; reflexivity. Qed.

(** A signature the verifier refuses: the exception reaches the caller of
    [add_transaction]. *)
Example add_transaction_bad_signature :
  add_transaction lone_world "B" (PyStr "A") (PyFloat 2) sample_public_key
    sample_public_key mined_ledger = (Raise BadSignatureError, mined_ledger).
Proof. vm_compute. reflexivity. Qed.

(** More than the balance: rejected with false. *)
Example add_transaction_no_value :
  add_transaction lone_world "B" (PyStr "A") (PyFloat 4) sample_public_key
    sample_signature mined_ledger = (Ok false, mined_ledger).
Proof. vm_compute. reflexivity. Qed.

(** [RE_IP]: three groups of one to three digits with their dots, one more
    group, and the end of the string (or a newline that ends it). *)
Example RE_IP_search_samples :
  map RE_IP_search
    [ "192.168.0.24"; "127.0.0.1"; "localhost"; "1.2.3"; "1.2.3.4.5"; "1234.1.1.1";
      "1.2.3.4567"; "001.02.3.007"; " 1.2.3.4"; "1.2.3.4 "; "" ]%string
  = [ Some ("192.168.0.", "24"); Some ("127.0.0.", "1"); None; None; None; None;
      None; Some ("001.02.3.", "007"); None; None; None ]%string
  /\
  RE_IP_search (String.append "10.0.0.5" (String (ascii_of_N 10) EmptyString))
  = Some ("10.0.0.", "5")%string.
Proof. split; vm_compute; reflexivity. Qed.

Example find_neighbours_samples :
  find_neighbours (fun _ p => negb (p =? 5002)) "192.168.0.24" 5001 0 3 5000 5003 =
  Some [ "192.168.0.24:5000"; "192.168.0.25:5000"; "192.168.0.26:5000";
         "192.168.0.25:5001"; "192.168.0.26:5001" ]%string
  /\
  find_neighbours (fun _ _ => true) "localhost" 5000 0 1 5000 5003 = None.
Proof. split; vm_compute; reflexivity. Qed.
(* ===================================================================== *)
(** ** [valid_chain] *)
(* ===================================================================== *)

Lemma py_eq_str_true (s : string) (v : pyval) :
  py_eq_str s v = true <-> v = PyStr s.
Proof.
  destruct v; simpl; try (split; [discriminate | intros H; discriminate H]).
  rewrite String.eqb_eq. split.
  - intros ->. reflexivity.
  - intros H. injection H as ->. reflexivity.
Qed.

Lemma check_block_true (pre b : pyval) :
  check_block pre b = Ok true <-> block_passes pre b.
Proof.
  unfold check_block, block_passes. split.
  - destruct (py_getitem b "previous_hash") as [p| |] eqn:Hp; simpl; try discriminate.
    destruct (py_eq_str (hash pre) p) eqn:He; simpl; try discriminate.
    destruct (py_getitem b "transactions") as [t| |] eqn:Ht; simpl; try discriminate.
    destruct (py_getitem b "nonce") as [n| |] eqn:Hn; simpl; try discriminate.
    intros H. injection H as H.
    exists t, p, n. apply py_eq_str_true in He. auto.
  - intros (t & p & n & Ht & Hp & Hn & He & Hv).
    rewrite Hp. simpl. apply py_eq_str_true in He. rewrite He. simpl.
    rewrite Ht. simpl. rewrite Hn. simpl. rewrite Hv. reflexivity.
Qed.

Lemma check_block_is_block (pre b : pyval) :
  is_block b -> returns_bool (check_block pre b).
Proof.
  intros (t & p & n & Ht & Hp & Hn). unfold check_block, returns_bool.
  rewrite Hp. simpl. destruct (py_eq_str (hash pre) p); simpl.
  - rewrite Ht. simpl. rewrite Hn. simpl. eauto.
  - eauto.
Qed.


(** The loop on indices is the walk over the remaining blocks. *)
Lemma valid_chain_while_walk (rest : list pyval) :
  forall (done : list pyval) (pre : pyval) (fuel : nat),
    (length rest < fuel)%nat ->
    valid_chain_while fuel (done ++ rest) pre (length done) = walk pre rest.
Proof.
  induction rest as [|b rest IH]; intros done pre fuel Hf.
  - destruct fuel as [|fuel]; [inversion Hf|]. cbn [valid_chain_while walk].
    rewrite app_nil_r. rewrite Nat.ltb_irrefl. reflexivity.
  - destruct fuel as [|fuel]; [inversion Hf|].
    cbn [valid_chain_while walk].
    assert (Hlt : (length done <? length (done ++ b :: rest))%nat = true).
    { apply Nat.ltb_lt. rewrite length_app. simpl. lia. }
    rewrite Hlt. unfold py_index.
    rewrite nth_error_app2 by lia. rewrite Nat.sub_diag. simpl nth_error.
    cbn [obind]. unfold check_block.
    destruct (py_getitem b "previous_hash") as [p| |]; cbn [obind]; auto.
    destruct (py_eq_str (hash pre) p); cbn [negb]; auto.
    destruct (py_getitem b "transactions") as [t| |]; cbn [obind]; auto.
    destruct (py_getitem b "nonce") as [n| |]; cbn [obind]; auto.
    destruct (valid_proof t p n MINING_DIFFICULTY); cbn [negb]; auto.
    specialize (IH (done ++ [b]) b fuel).
    rewrite <- app_assoc in IH. simpl in IH.
    rewrite length_app in IH. simpl in IH.
    replace (length done + 1)%nat with (S (length done)) in IH by lia.
    apply IH. simpl in Hf. lia.
Qed.

Lemma valid_chain_walk (g : pyval) (rest : list pyval) :
  valid_chain (g :: rest) = walk g rest.
Proof.
  unfold valid_chain. simpl py_index. cbn [obind].
  apply (valid_chain_while_walk rest [g] g (length (g :: rest))).
  simpl. lia.
Qed.



Lemma walk_returns_bool (rest : list pyval) :
  forall pre, Forall is_block rest -> returns_bool (walk pre rest).
Proof.
  induction rest as [|b rest IH]; intros pre Hall.
  - exists true. reflexivity.
  - inversion Hall as [|? ? Hb Hrest]; subst. cbn [walk].
    destruct (check_block_is_block pre b Hb) as [[|] Hc]; rewrite Hc; simpl.
    + apply IH. exact Hrest.
    + exists false. reflexivity.
Qed.



(** C10. [valid_chain] reads index 0 before its loop: on the empty chain it
    raises [IndexError] and returns no boolean, so a chain on which it returns
    a boolean is not empty; a chain of one block is valid. *)
Theorem valid_chain_needs_nonempty :
  valid_chain [] = Raise IndexError
  /\ (forall C, returns_bool (valid_chain C) -> C <> [])
  /\ (forall b, valid_chain [b] = Ok true).
Proof.
  split; [reflexivity|]. split.
  - intros C [b Hb] ->. discriminate Hb.
  - intros b. rewrite valid_chain_walk. reflexivity.
Qed.

(** A block without its keys is not rejected with false: the lookup raises. *)
Example valid_chain_malformed_block :
  valid_chain [PyDict []; PyDict []] = Raise KeyError /\
  valid_chain [PyDict []; PyNone] = Raise TypeError.
Proof. split; reflexivity. Qed.

(* ===================================================================== *)
(** ** [resolve_conflicts] *)
(* ===================================================================== *)

Lemma chain_ok_true (c : list pyval) :
  chain_ok c = true <-> valid_chain c = Ok true.
Proof.
  unfold chain_ok. destruct (valid_chain c) as [[|]| |]; split; congruence.
Qed.

Lemma valid_chain_returns_bool (c : list pyval) :
  c <> [] -> Forall is_block (tl c) -> returns_bool (valid_chain c).
Proof.
  destruct c as [|g rest]; [congruence|]. intros _ H.
  rewrite valid_chain_walk. apply walk_returns_bool. exact H.
Qed.

Section Resolve.

Variable W : world.

Lemma resolve_conflicts_for_pick (nodes : list string) :
  forall (answers : list response) (lc : option (list pyval)) (ml : nat),
    map (fun node => requests_get W (url node "/chain")) nodes = map Ok answers ->
    (forall c, In c (fetched_chains answers) -> Forall is_block (tl c)) ->
    resolve_conflicts_for W nodes lc ml = Ok (pick (fetched_chains answers) lc ml).
Proof.
  induction nodes as [|node nodes IH]; intros answers lc ml Hget Hwf.
  - destruct answers; [reflexivity | discriminate Hget].
  - destruct answers as [|r answers]; [discriminate Hget|].
    simpl in Hget. injection Hget as Hr Hrest.
    cbn [resolve_conflicts_for]. rewrite Hr. cbn [obind].
    unfold fetched_chains in *. cbn [filter].
    destruct (status_code r =? 200) eqn:Hs.
    + cbn [map pick].
      assert (Hwf' : forall c, In c (map response_chain
                       (filter (fun r => status_code r =? 200) answers)) ->
                     Forall is_block (tl c)).
      { intros c Hc. apply Hwf. cbn [filter]. rewrite Hs. right. exact Hc. }
      destruct (ml <? length (response_chain r))%nat eqn:Hl; cbn [andb].
      * assert (Hne : response_chain r <> []).
        { intros E. rewrite E in Hl. simpl in Hl. apply Nat.ltb_lt in Hl. lia. }
        assert (Hb : returns_bool (valid_chain (response_chain r))).
        { apply valid_chain_returns_bool; [exact Hne|].
          apply Hwf. cbn [filter]. rewrite Hs. left. reflexivity. }
        destruct Hb as [b Hb]. unfold chain_ok. rewrite Hb. cbn [obind].
        destruct b; apply IH; assumption.
      * apply IH; assumption.
    + apply IH; [assumption|].
      intros c Hc. apply Hwf. cbn [filter]. rewrite Hs. exact Hc.
Qed.

End Resolve.

(** What [pick] returns, from a running choice [lc] of length [ml]. *)
Lemma pick_spec (chains : list (list pyval)) :
  forall (lc : option (list pyval)) (ml : nat),
    (forall c0, lc = Some c0 -> length c0 = ml) ->
    match pick chains lc ml with
    | None =>
        lc = None /\
        forall c, In c chains -> (ml < length c)%nat -> valid_chain c <> Ok true
    | Some c =>
        (lc = Some c \/
         (In c chains /\ (ml < length c)%nat /\ valid_chain c = Ok true)) /\
        (ml <= length c)%nat /\
        forall c', In c' chains -> valid_chain c' = Ok true ->
                   (length c' <= length c)%nat
    end.
Proof.
  induction chains as [|c chains IH]; intros lc ml Hlc.
  - simpl. destruct lc as [c0|].
    + split; [left; reflexivity|]. split.
      * rewrite (Hlc c0 eq_refl). lia.
      * intros c' [].
    + split; [reflexivity|]. intros c [].
  - cbn [pick].
    destruct ((ml <? length c)%nat && chain_ok c) eqn:Hc.
    + apply andb_true_iff in Hc. destruct Hc as [Hl Hv].
      apply Nat.ltb_lt in Hl. apply chain_ok_true in Hv.
      specialize (IH (Some c) (length c)).
      assert (Hinv : forall c0, Some c = Some c0 -> length c0 = length c).
      { intros c0 E. injection E as <-. reflexivity. }
      specialize (IH Hinv).
      destruct (pick chains (Some c) (length c)) as [c1|].
      * destruct IH as (Hsrc & Hge & Hmax). split; [|split].
        -- right. destruct Hsrc as [E | (Hin & Hlt & Hok)].
           ++ injection E as <-. split; [left; reflexivity | split; assumption].
           ++ split; [right; exact Hin | split; [lia | exact Hok]].
        -- lia.
        -- intros c' [<- | Hin] Hok; [lia | apply Hmax; assumption].
      * destruct IH as [E _]. discriminate E.
    + specialize (IH lc ml Hlc).
      assert (Hskip : (ml < length c)%nat -> valid_chain c <> Ok true).
      { intros Hl Hv. apply andb_false_iff in Hc. destruct Hc as [Hc | Hc].
        - apply Nat.ltb_ge in Hc. lia.
        - apply chain_ok_true in Hv. congruence. }
      destruct (pick chains lc ml) as [c1|].
      * destruct IH as (Hsrc & Hge & Hmax). split; [|split].
        -- destruct Hsrc as [E | (Hin & Hlt & Hok)].
           ++ left. exact E.
           ++ right. split; [right; exact Hin | split; assumption].
        -- exact Hge.
        -- intros c' [<- | Hin] Hok; [|apply Hmax; assumption].
           destruct (Nat.lt_ge_cases ml (length c)) as [Hl | Hl].
           ++ exfalso. exact (Hskip Hl Hok).
           ++ lia.
      * destruct IH as [E Hnone]. split; [exact E|].
        intros c' [<- | Hin] Hl; [apply Hskip; exact Hl | apply Hnone; assumption].
Qed.

(** C1 as stated fails for fetched chains that are not made of blocks: the
    first peer serves a valid chain of 5 blocks, longer than the local chain
    of 3, and the second a chain of 6 dictionaries without keys. Every request
    is answered and a strictly longer valid chain has been fetched, yet
    [valid_chain] raises [KeyError] on the second chain and so does
    [resolve_conflicts], which leaves the object as it was. *)
Lemma resolve_conflicts_raises_on_keyless_chain :
  map (fun node => requests_get keyless_world (url node "/chain"))
      (neighbours local_ledger)
    = map Ok [Response 200 peer5002_chain; Response 200 keyless_chain] /\
  candidate local_ledger
    (fetched_chains [Response 200 peer5002_chain; Response 200 keyless_chain])
    peer5002_chain /\
  valid_chain keyless_chain = Raise KeyError /\
  resolve_conflicts keyless_world local_ledger = (Raise KeyError, local_ledger).
Proof.
  split; [reflexivity|]. split.
  - split; [left; reflexivity|]. split; [simpl; lia | vm_compute; reflexivity].
  - split; vm_compute; reflexivity.
Qed.

(** C1, amended. With every neighbour answering and every fetched chain made
    of blocks, [resolve_conflicts] returns true and replaces the local chain
    exactly when some fetched chain is strictly longer than the local chain
    and valid; the chain it adopts is such a chain and no valid fetched chain
    is longer. Otherwise, as when every fetched chain is at most as long as the
    local one, it returns false and leaves the object as it was. *)
Theorem resolve_conflicts_adopts_longest_valid
  (W : world) (self : BlockChain) (answers : list response) :
  map (fun node => requests_get W (url node "/chain")) (neighbours self)
    = map Ok answers ->
  (forall c, In c (fetched_chains answers) -> Forall is_block (tl c)) ->
  (fst (resolve_conflicts W self) = Ok true <->
   exists c, candidate self (fetched_chains answers) c)
  /\
  ((exists c, candidate self (fetched_chains answers) c) ->
   exists c, candidate self (fetched_chains answers) c /\
             (forall c', candidate self (fetched_chains answers) c' ->
                         (length c' <= length c)%nat) /\
             resolve_conflicts W self = (Ok true, set_chain c self))
  /\
  ((~ exists c, candidate self (fetched_chains answers) c) ->
   resolve_conflicts W self = (Ok false, self))
  /\
  ((forall c, In c (fetched_chains answers) ->
              (length c <= length (chain self))%nat) ->
   resolve_conflicts W self = (Ok false, self)).
Proof.
  intros Hget Hwf.
  pose proof (resolve_conflicts_for_pick W (neighbours self) answers None
                (length (chain self)) Hget Hwf) as Hfor.
  pose proof (pick_spec (fetched_chains answers) None (length (chain self))) as Hp.
  assert (Hinv : forall c0 : list pyval,
             @None (list pyval) = Some c0 -> length c0 = length (chain self))
    by (intros c0 E; discriminate E).
  specialize (Hp Hinv). clear Hinv.
  unfold resolve_conflicts. rewrite Hfor.
  destruct (pick (fetched_chains answers) None (length (chain self))) as [c|].
  - destruct Hp as (Hsrc & Hge & Hmax).
    destruct Hsrc as [E | (Hin & Hlt & Hok)]; [discriminate E|].
    assert (Hcand : candidate self (fetched_chains answers) c)
      by (split; [|split]; assumption).
    destruct c as [|b c]; [simpl in Hlt; lia|].
    split; [|split; [|split]].
    + simpl. split; [intros _; exists (b :: c); exact Hcand | reflexivity].
    + intros _. exists (b :: c). split; [exact Hcand|]. split; [|reflexivity].
      intros c' (Hin' & _ & Hok'). apply Hmax; assumption.
    + intros Hno. exfalso. apply Hno. exists (b :: c). exact Hcand.
    + intros Hshort. specialize (Hshort _ Hin). lia.
  - destruct Hp as [_ Hnone].
    assert (Hno : ~ exists c, candidate self (fetched_chains answers) c).
    { intros (c & Hin & Hlt & Hok). exact (Hnone c Hin Hlt Hok). }
    split; [|split; [|split]].
    + simpl. split; [discriminate | intros H; exfalso; exact (Hno H)].
    + intros H. exfalso. exact (Hno H).
    + intros _. reflexivity.
    + intros _. reflexivity.
Qed.

(* ===================================================================== *)
(** ** The pool and the chain under the methods *)
(* ===================================================================== *)

Lemma block_of_items (now : float) (ts : list pyval) (nonce : Z) (ph : string) :
  block_of now ts nonce ph =
  PyDict [ ("nonce", PyInt nonce); ("previous_hash", PyStr ph);
           ("timestamp", PyFloat now); ("transactions", PyList ts) ].
Proof. reflexivity. Qed.

Lemma transaction_of_items (sender : string) (recipient : pyval) (v : float) :
  transaction_of sender recipient v =
  PyDict [ ("recipient_blockchain_address", recipient);
           ("sender_blockchain_address", PyStr sender);
           ("value", PyFloat v) ].
Proof. reflexivity. Qed.

Section Ledger.

Variable W : world.

Lemma create_block_state (now : float) (nonce : Z) (ph : string) (self : BlockChain) :
  snd (create_block W now nonce ph self) =
  set_transaction_pool []
    (set_chain (chain self ++ [block_of now (transaction_pool self) nonce ph]) self).
Proof.
  unfold create_block.
  match goal with |- context [for_each ?f ?l] => destruct (for_each f l) end;
    reflexivity.
Qed.

Lemma create_block_result (now : float) (nonce : Z) (ph : string) (self : BlockChain) :
  fst (create_block W now nonce ph self) = Ok (block_of now (transaction_pool self) nonce ph)
  \/ exists e, fst (create_block W now nonce ph self) = Raise e.
Proof.
  unfold create_block.
  match goal with |- context [for_each ?f ?l] =>
    assert (H : for_each f l <> Unfinished);
    [ generalize l; intros l0; induction l0 as [|x l0 IH]; simpl;
      [ discriminate | destruct (f x); [discriminate | exact IH] ]
    | destruct (for_each f l) as [[]|e|] ]
  end.
  - left. reflexivity.
  - right. exists e. reflexivity.
  - congruence.
Qed.

Lemma for_each_finishes (call : string -> option exn) (nodes : list string) :
  for_each call nodes = Ok tt \/ exists e, for_each call nodes = Raise e.
Proof.
  induction nodes as [|x nodes IH]; simpl.
  - left. reflexivity.
  - destruct (call x) as [e|]; [right; exists e; reflexivity | exact IH].
Qed.

(** [add_transaction] leaves the object as it was or appends the transaction
    to the pool; it returns true exactly when it appended. *)
Lemma add_transaction_cases (sender : string)
  (recipient value pk sig : pyval) (self : BlockChain) :
  (exists v, py_float W value = Ok v /\
     add_transaction W sender recipient value pk sig self =
     (Ok true, set_transaction_pool
                 (transaction_pool self ++ [transaction_of sender recipient v]) self))
  \/
  (snd (add_transaction W sender recipient value pk sig self) = self /\
   fst (add_transaction W sender recipient value pk sig self) <> Ok true).
Proof.
  unfold add_transaction.
  destruct (py_float W value) as [v|e|]; [|right; split; [reflexivity|discriminate]..].
  destruct (String.eqb sender MINING_SENDER).
  - left. exists v. split; reflexivity.
  - destruct (verify_transaction_signature W pk sig _) as [[|]|e|];
      [|right; split; [reflexivity|discriminate]..].
    destruct (calculate_total_amount W sender self) as [total|e|];
      [|right; split; [reflexivity|discriminate]..].
    destruct (total <? v)%float.
    + right. split; [reflexivity|discriminate].
    + left. exists v. split; reflexivity.
Qed.

End Ledger.

(** What the methods other than [create_block] do to the chain and the
    pool. *)
Lemma pool_kept_or_extended (W : world) (self : BlockChain) :
  transaction_pool (snd (resolve_conflicts W self)) = transaction_pool self
  /\
  (forall sender recipient value pk sig,
      let self' := snd (add_transaction W sender recipient value pk sig self) in
      chain self' = chain self /\
      (transaction_pool self' = transaction_pool self \/
       exists t, transaction_pool self' = transaction_pool self ++ [t]))
  /\
  (forall sender recipient value pk sig,
      let self' := snd (create_transaction W sender recipient value pk sig self) in
      chain self' = chain self /\
      (transaction_pool self' = transaction_pool self \/
       exists t, transaction_pool self' = transaction_pool self ++ [t])).
Proof.
  split; [|split].
  - unfold resolve_conflicts.
    destruct (resolve_conflicts_for W (neighbours self) None (length (chain self)))
      as [[[|b c]|]| |]; reflexivity.
  - intros sender recipient value pk sig. cbv zeta.
    destruct (add_transaction_cases W sender recipient value pk sig self)
      as [(v & _ & ->) | [-> _]].
    + split; [reflexivity|]. right. eexists. reflexivity.
    + split; [reflexivity|]. left. reflexivity.
  - intros sender recipient value pk sig. cbv zeta. unfold create_transaction.
    destruct (add_transaction_cases W sender recipient value pk sig self)
      as [(v & _ & ->) | [Hs Hf]].
    + match goal with |- context [for_each ?f ?l] => destruct (for_each f l) end;
        (split; [reflexivity|]; right; eexists; reflexivity).
    + destruct (add_transaction W sender recipient value pk sig self)
        as [[[|]|e|] s]; simpl in Hs, Hf; subst; try congruence;
        (split; [reflexivity|]; left; reflexivity).
Qed.

(** C7. [create_block] appends exactly one block, built from the pool, to the
    chain and leaves the pool empty. The other methods that write the object
    do not clear the pool: [resolve_conflicts] leaves it as it was, also when
    it replaces the chain, and [add_transaction] and [create_transaction]
    leave it as it was or append one transaction. *)
Theorem only_create_block_clears_pool (W : world) (self : BlockChain) :
  (forall now nonce ph,
      let self' := snd (create_block W now nonce ph self) in
      chain self' = chain self ++ [block_of now (transaction_pool self) nonce ph]
      /\ transaction_pool self' = [])
  /\
  transaction_pool (snd (resolve_conflicts W self)) = transaction_pool self
  /\
  (forall sender recipient value pk sig,
      let self' := snd (add_transaction W sender recipient value pk sig self) in
      chain self' = chain self /\
      (transaction_pool self' = transaction_pool self \/
       exists t, transaction_pool self' = transaction_pool self ++ [t]))
  /\
  (forall sender recipient value pk sig,
      let self' := snd (create_transaction W sender recipient value pk sig self) in
      chain self' = chain self /\
      (transaction_pool self' = transaction_pool self \/
       exists t, transaction_pool self' = transaction_pool self ++ [t])).
Proof.
  split.
  - intros now nonce ph. cbv zeta. rewrite create_block_state. split; reflexivity.
  - apply pool_kept_or_extended.
Qed.

(* ===================================================================== *)
(** ** [verify_transaction_signature] and [add_transaction] *)
(* ===================================================================== *)

Lemma fromhex_raises (cs : list ascii) :
  forall e, fromhex cs = Raise e -> e = ValueError.
Proof.
  assert (H : forall n cs, (length cs <= n)%nat ->
                forall e, fromhex cs = Raise e -> e = ValueError).
  { induction n as [|n IH]; intros l Hl e He.
    - destruct l; [discriminate He | simpl in Hl; lia].
    - destruct l as [|c l]; [discriminate He|]. simpl in He, Hl.
      destruct (is_space c).
      + apply (IH l); [lia | exact He].
      + destruct (hex_value c); [|congruence].
        destruct l as [|d l]; [congruence|].
        destruct (hex_value d); [|congruence].
        destruct (fromhex l) as [bs|e'|] eqn:Hr; simpl in He; try discriminate.
        injection He as <-. apply (IH l); [simpl in Hl; lia | exact Hr]. }
  intros e. apply (H (length cs)). lia.
Qed.

Lemma bytes_fromhex_raises (v : pyval) (e : exn) :
  bytes_fromhex v = Raise e -> e = ValueError \/ e = TypeError.
Proof.
  destruct v; simpl; intros H;
    try (injection H as <-; right; reflexivity).
  left. exact (fromhex_raises _ _ H).
Qed.

(** C2 as stated fails: a signature that is not hexadecimal makes
    [verify_transaction_signature] raise [ValueError], whatever the verifier,
    the key and the transaction are; nothing is returned. *)
Lemma verify_raises_on_malformed_signature :
  bytes_fromhex (PyStr "zz") = Raise ValueError /\
  forall (W : world) (pk transaction : pyval),
    verify_transaction_signature W pk (PyStr "zz") transaction = Raise ValueError.
Proof. split; [reflexivity|]. intros W pk transaction. reflexivity. Qed.

(** C2, amended. [verify_transaction_signature] handles no exception. It
    returns true exactly when both hexadecimal strings decode, the key bytes
    are taken as a key and the ECDSA check answers true; it returns false only
    when the ECDSA check itself answers false. A signature or key that does
    not decode raises ([ValueError], or [TypeError] when it is not a string),
    a rejected key raises what the key parser raised, and what the ECDSA check
    raises (python-ecdsa: [BadSignatureError] on a mismatch) reaches the
    caller. *)
Theorem verify_transaction_signature_outcomes
  (W : world) (pk sig transaction : pyval) :
  let message := SHA256.digest (encode_utf8 (str_of W transaction)) in
  (forall b,
     verify_transaction_signature W pk sig transaction = Ok b <->
     exists s k, bytes_fromhex sig = Ok s /\ bytes_fromhex pk = Ok k /\
                 VerifyingKey_from_string W k = None /\
                 VerifyingKey_verify W k s message = Ok b)
  /\
  (forall e, bytes_fromhex sig = Raise e ->
     verify_transaction_signature W pk sig transaction = Raise e /\
     (e = ValueError \/ e = TypeError))
  /\
  (forall s e, bytes_fromhex sig = Ok s -> bytes_fromhex pk = Raise e ->
     verify_transaction_signature W pk sig transaction = Raise e /\
     (e = ValueError \/ e = TypeError))
  /\
  (forall s k e, bytes_fromhex sig = Ok s -> bytes_fromhex pk = Ok k ->
     VerifyingKey_from_string W k = Some e ->
     verify_transaction_signature W pk sig transaction = Raise e)
  /\
  (forall s k e, bytes_fromhex sig = Ok s -> bytes_fromhex pk = Ok k ->
     VerifyingKey_from_string W k = None ->
     VerifyingKey_verify W k s message = Raise e ->
     verify_transaction_signature W pk sig transaction = Raise e).
Proof.
  cbv zeta. unfold verify_transaction_signature.
  split; [|split; [|split; [|split]]].
  - intros b. split.
    + destruct (bytes_fromhex sig) as [s| |]; simpl; try discriminate.
      destruct (bytes_fromhex pk) as [k| |]; simpl; try discriminate.
      destruct (VerifyingKey_from_string W k) eqn:Hk; try discriminate.
      intros H. exists s, k. auto.
    + intros (s & k & -> & -> & Hk & Hv). simpl. rewrite Hk. exact Hv.
  - intros e He. split; [rewrite He; reflexivity|].
    exact (bytes_fromhex_raises _ _ He).
  - intros s e Hs He. split; [rewrite Hs, He; reflexivity|].
    exact (bytes_fromhex_raises _ _ He).
  - intros s k e -> -> Hk. simpl. rewrite Hk. reflexivity.
  - intros s k e -> -> Hk Hv. simpl. rewrite Hk. exact Hv.
Qed.

(** C5 as stated fails: with a sender other than the system sender and a
    signature that is not hexadecimal, [add_transaction] does not return
    false: it raises [ValueError] (pool and chain untouched), in every
    world. *)
Lemma add_transaction_raises_on_malformed_signature :
  MINING_SENDER <> "A" /\
  forall (W : world) (self : BlockChain),
    add_transaction W "A" (PyStr "B") (PyFloat 1) sample_public_key
      (PyStr "zz") self = (Raise ValueError, self).
Proof. split; [discriminate|]. intros W self. reflexivity. Qed.

(** C5, amended. For a value [float] accepts: from the system sender the
    transaction is appended and true returned, with no other check. From any
    other sender: when the signature check returns true, the transaction is
    rejected with false if the sender's balance is below the value and is
    appended with true otherwise; when the check returns false, false is
    returned; when the check (or the balance) raises, so does
    [add_transaction], and nothing is appended. The result never depends on
    what is in the pool, so a transaction already pending is admitted
    again. *)
Theorem add_transaction_admission (W : world) (sender : string)
  (recipient value pk sig : pyval) (v : float) (self : BlockChain) :
  py_float W value = Ok v ->
  let t := transaction_of sender recipient v in
  let appended := set_transaction_pool (transaction_pool self ++ [t]) self in
  let run := add_transaction W sender recipient value pk sig in
  (sender = MINING_SENDER -> run self = (Ok true, appended))
  /\
  (sender <> MINING_SENDER ->
   (forall total,
       verify_transaction_signature W pk sig t = Ok true ->
       calculate_total_amount W sender self = Ok total ->
       run self = if (total <? v)%float then (Ok false, self)
                  else (Ok true, appended))
   /\
   (verify_transaction_signature W pk sig t = Ok false ->
    run self = (Ok false, self))
   /\
   (forall e, verify_transaction_signature W pk sig t = Raise e ->
              run self = (Raise e, self))
   /\
   (forall e, verify_transaction_signature W pk sig t = Ok true ->
              calculate_total_amount W sender self = Raise e ->
              run self = (Raise e, self)))
  /\
  (forall pool,
      fst (run (set_transaction_pool pool self)) = fst (run self) /\
      (fst (run self) = Ok true ->
       transaction_pool (snd (run (set_transaction_pool pool self))) = pool ++ [t])).
Proof.
  intros Hv. cbv zeta. unfold add_transaction. rewrite Hv.
  change (sorted_dict_by_key
            [("sender_blockchain_address", PyStr sender);
             ("recipient_blockchain_address", recipient);
             ("value", PyFloat v)])
    with (transaction_of sender recipient v).
  split; [|split].
  - intros ->. rewrite String.eqb_refl. reflexivity.
  - intros Hs. apply String.eqb_neq in Hs. rewrite Hs.
    split; [|split; [|split]].
    + intros total -> ->. destruct (total <? v)%float; reflexivity.
    + intros ->. reflexivity.
    + intros e ->. reflexivity.
    + intros e -> ->. reflexivity.
  - intros pool.
    assert (Hc : calculate_total_amount W sender (set_transaction_pool pool self)
                 = calculate_total_amount W sender self) by reflexivity.
    rewrite Hc.
    destruct (String.eqb sender MINING_SENDER).
    + split; [reflexivity | intros _; reflexivity].
    + destruct (verify_transaction_signature W pk sig
                  (transaction_of sender recipient v)) as [[|]|e|];
        try (split; [reflexivity | intros H; discriminate H]).
      destruct (calculate_total_amount W sender self) as [total|e|];
        try (split; [reflexivity | intros H; discriminate H]).
      destruct (total <? v)%float;
        (split; [reflexivity | intros H; try discriminate H; reflexivity]).
Qed.

(* ===================================================================== *)
(** ** [calculate_total_amount] *)
(* ===================================================================== *)

Section Balance.

Variable W : world.

Lemma total_of_transactions_sum (address : string) (l : list pyval) :
  forall (ts : list entry) (total : float),
    Forall2 (is_entry W) l ts ->
    total_of_transactions W address l total =
    Ok (fold_left (fun total t => credit address t total) ts total).
Proof.
  induction l as [|x l IH]; intros ts total H; inversion H; subst.
  - reflexivity.
  - match goal with He : is_entry W x ?t |- _ =>
      destruct He as (val & Hval & Hf & Hr & Hs) end.
    cbn [total_of_transactions fold_left].
    rewrite Hval. cbn [obind]. rewrite Hf. cbn [obind].
    rewrite Hr. cbn [obind]. rewrite Hs. cbn [obind].
    rewrite IH with (ts := l') by assumption. reflexivity.
Qed.

Lemma total_of_blocks_sum (address : string) (blocks : list pyval) :
  forall (tss : list (list entry)) (total : float),
    Forall2 (block_entries W) blocks tss ->
    total_of_blocks W address blocks total =
    Ok (fold_left (fun total t => credit address t total) (concat tss) total).
Proof.
  induction blocks as [|b blocks IH]; intros tss total H; inversion H; subst.
  - reflexivity.
  - match goal with He : block_entries W b ?ts |- _ =>
      destruct He as (l & Hl & Hts) end.
    cbn [total_of_blocks concat]. rewrite Hl. cbn [obind py_iter].
    rewrite (total_of_transactions_sum address l _ total Hts). cbn [obind].
    rewrite fold_left_app. apply IH. assumption.
Qed.

End Balance.

(** C6. On a chain whose blocks hold transactions with a sender, a recipient
    and a value, [calculate_total_amount] returns the sum, over every block
    and every transaction of the block in chain order, of plus the value when
    the address is the recipient and minus the value when it is the sender.
    The pool is not read: any pool gives the same result. On the chain that
    holds A to B: 5 and B to A: 2 (and the miner's reward), the balance of A is
    -3 and that of B is 3. *)
Theorem calculate_total_amount_is_chain_sum
  (W : world) (address : string) (self : BlockChain) (blocks : list (list entry)) :
  Forall2 (block_entries W) (chain self) blocks ->
  calculate_total_amount W address self = Ok (balance_sum address blocks)
  /\
  (forall pool,
      calculate_total_amount W address (set_transaction_pool pool self)
      = calculate_total_amount W address self)
  /\
  calculate_total_amount W "A" mined_ledger = Ok (-3)%float
  /\
  calculate_total_amount W "B" mined_ledger = Ok 3%float.
Proof.
  intros H. split; [|split; [|split]].
  - unfold calculate_total_amount, balance_sum.
    apply total_of_blocks_sum. exact H.
  - intros pool. reflexivity.
  - vm_compute. reflexivity.
  - vm_compute. reflexivity.
Qed.

(* ===================================================================== *)
(** ** [proof_of_work] and [mining] *)
(* ===================================================================== *)

(** The search stops at the first nonce that passes, which it reaches when
    some nonce passes and the bound is large enough. *)
Lemma proof_of_work_while_finds (transactions : list pyval) (ph : string) (d : nat) :
  forall (fuel : nat) (k : Z),
    valid_proof (PyList transactions) (PyStr ph) (PyInt (k + Z.of_nat d))
      MINING_DIFFICULTY = true ->
    (d < fuel)%nat ->
    exists n, proof_of_work_while fuel transactions ph k = Ok n /\
              valid_proof (PyList transactions) (PyStr ph) (PyInt n)
                MINING_DIFFICULTY = true /\
              k <= n <= k + Z.of_nat d.
Proof.
  induction d as [|d IH]; intros fuel k Hv Hf;
    (destruct fuel as [|fuel]; [lia|]); cbn [proof_of_work_while].
  - replace (k + Z.of_nat 0) with k in Hv by lia. rewrite Hv.
    exists k. split; [reflexivity|]. split; [exact Hv | lia].
  - destruct (valid_proof (PyList transactions) (PyStr ph) (PyInt k)
                MINING_DIFFICULTY) eqn:Hk.
    + exists k. split; [reflexivity|]. split; [exact Hk | lia].
    + destruct (IH fuel (k + 1)) as (n & Hn & Hvn & Hr).
      * replace (k + 1 + Z.of_nat d) with (k + Z.of_nat (S d)) by lia. exact Hv.
      * lia.
      * exists n. split; [exact Hn|]. split; [exact Hvn | lia].
Qed.

Section Mining.

Variable W : world.

Lemma mining_reward_admitted (self : BlockChain) :
  add_transaction W MINING_SENDER (blockchain_address self)
    (PyFloat MINING_REWARD) PyNone PyNone self =
  (Ok true,
   set_transaction_pool (transaction_pool self ++ [reward_of self]) self).
Proof. reflexivity. Qed.

(** One run of [mining] whose search finds [nonce]: the state it leaves and
    what it returns. *)
Lemma mining_found (fuel : nat) (now : float) (self : BlockChain)
  (last_block : pyval) (nonce : Z) :
  py_last (chain self) = Ok last_block ->
  proof_of_work_while fuel (transaction_pool self ++ [reward_of self])
    (hash last_block) 0 = Ok nonce ->
  exists r,
    mining W fuel now self =
    (r, set_transaction_pool []
          (set_chain
             (chain self ++
              [block_of now (transaction_pool self ++ [reward_of self]) nonce
                 (hash last_block)]) self))
    /\ (r = Ok true \/ exists e, r = Raise e)
    /\ (neighbours self = [] -> r = Ok true).
Proof.
  intros Hlast Hpow. unfold mining. rewrite mining_reward_admitted.
  unfold proof_of_work.
  cbn [chain transaction_pool set_transaction_pool].
  rewrite Hlast. cbn [obind]. rewrite Hpow.
  set (self1 := set_transaction_pool (transaction_pool self ++ [reward_of self]) self).
  pose proof (create_block_state W now nonce (hash last_block) self1) as Hs.
  pose proof (create_block_result W now nonce (hash last_block) self1) as Hr.
  assert (Hn : neighbours self = [] ->
               fst (create_block W now nonce (hash last_block) self1) =
               Ok (block_of now (transaction_pool self1) nonce (hash last_block))).
  { intros E. unfold create_block. subst self1.
    cbn [neighbours set_chain set_transaction_pool]. rewrite E. reflexivity. }
  destruct (create_block W now nonce (hash last_block) self1) as [r s].
  cbn [fst snd] in Hs, Hr, Hn. subst s.
  destruct Hr as [-> | [e ->]].
  - subst self1. cbn [neighbours set_chain set_transaction_pool].
    destruct (for_each_finishes
                (fun node => requests_put W (url node "/consensus") None)
                (neighbours self)) as [Hf | [e Hf]]; rewrite Hf.
    + exists (Ok true). split; [reflexivity|]. split; [left; reflexivity | auto].
    + exists (Raise e). split; [reflexivity|].
      split; [right; exists e; reflexivity|].
      intros E. rewrite E in Hf. discriminate Hf.
  - exists (Raise e). split; [reflexivity|].
    split; [right; exists e; reflexivity|].
    intros E. specialize (Hn E). discriminate Hn.
Qed.

(** A run of [mining] that returns has appended one block and emptied the
    pool; under it the semaphore is not touched. *)
Lemma mining_returned (fuel : nat) (now : float) (self : BlockChain) (b : bool) :
  fst (mining W fuel now self) = Ok b ->
  b = true /\
  exists block,
    snd (mining W fuel now self) =
    set_transaction_pool [] (set_chain (chain self ++ [block]) self).
Proof.
  unfold mining. rewrite mining_reward_admitted. unfold proof_of_work.
  cbn [chain transaction_pool set_transaction_pool].
  destruct (py_last (chain self)) as [last_block|e|]; cbn [obind fst];
    try discriminate.
  destruct (proof_of_work_while fuel _ (hash last_block) 0) as [nonce|e|];
    cbn [fst]; try discriminate.
  set (self1 := set_transaction_pool (transaction_pool self ++ [reward_of self]) self).
  pose proof (create_block_state W now nonce (hash last_block) self1) as Hs.
  destruct (create_block W now nonce (hash last_block) self1) as [[blk|e|] s];
    cbn [fst snd] in *; try discriminate.
  subst s.
  match goal with |- context [for_each ?f ?l] => destruct (for_each f l) end;
    cbn [fst snd]; try discriminate.
  intros H. injection H as <-. split; [reflexivity|].
  eexists. reflexivity.
Qed.

Lemma mining_keeps_semaphore (fuel : nat) (now : float) (self : BlockChain) :
  mining_semaphore (snd (mining W fuel now self)) = mining_semaphore self.
Proof.
  unfold mining. rewrite mining_reward_admitted. unfold proof_of_work.
  cbn [chain transaction_pool set_transaction_pool].
  destruct (py_last (chain self)) as [last_block|e|]; cbn [obind]; try reflexivity.
  destruct (proof_of_work_while fuel _ (hash last_block) 0) as [nonce|e|];
    try reflexivity.
  set (self1 := set_transaction_pool (transaction_pool self ++ [reward_of self]) self).
  pose proof (create_block_state W now nonce (hash last_block) self1) as Hs.
  destruct (create_block W now nonce (hash last_block) self1) as [[blk|e|] s];
    cbn [fst snd] in *; subst s; try reflexivity.
  match goal with |- context [for_each ?f ?l] => destruct (for_each f l) end;
    reflexivity.
Qed.

End Mining.

(** [set_neighbours] and [sync_neighbours] write the neighbours, the timers
    and their own semaphore, nothing else. *)
Lemma set_neighbours_keeps (N : network) (self self' : BlockChain) :
  set_neighbours N self = Some self' ->
  chain self' = chain self /\
  transaction_pool self' = transaction_pool self /\
  mining_semaphore self' = mining_semaphore self.
Proof.
  unfold set_neighbours. destruct (port self); try discriminate.
  destruct (find_neighbours _ _ _ _ _ _ _); [|discriminate].
  intros E. injection E as <-. repeat split; reflexivity.
Qed.

Lemma sync_neighbours_keeps (N : network) (self self' : BlockChain) :
  sync_neighbours N self = Some self' ->
  chain self' = chain self /\
  transaction_pool self' = transaction_pool self /\
  mining_semaphore self' = mining_semaphore self.
Proof.
  unfold sync_neighbours. destruct (sync_neighbours_semaphore self) as [|n].
  - intros E. injection E as <-. repeat split; reflexivity.
  - destruct (set_neighbours N (set_sync_neighbours_semaphore n self)) as [s|] eqn:Hs;
      [|discriminate].
    intros E. injection E as <-.
    destruct (set_neighbours_keeps _ _ _ Hs) as (Hc & Hp & Hm).
    cbn [chain transaction_pool mining_semaphore set_sync_neighbours_semaphore
         add_timer] in *.
    repeat split; assumption.
Qed.

Section Reachable.

Variable W : world.

Lemma mining_chain (fuel : nat) (now : float) (self : BlockChain) :
  chain (snd (mining W fuel now self)) = chain self \/
  exists block, chain (snd (mining W fuel now self)) = chain self ++ [block].
Proof.
  unfold mining. rewrite mining_reward_admitted. unfold proof_of_work.
  cbn [chain transaction_pool set_transaction_pool].
  destruct (py_last (chain self)) as [last_block|e|]; cbn [obind];
    try (left; reflexivity).
  destruct (proof_of_work_while fuel _ (hash last_block) 0) as [nonce|e|];
    try (left; reflexivity).
  set (self1 := set_transaction_pool _ self).
  pose proof (create_block_state W now nonce (hash last_block) self1) as Hs.
  destruct (create_block W now nonce (hash last_block) self1) as [[blk|e|] s];
    cbn [fst snd] in *; subst s; try (right; eexists; reflexivity).
  match goal with |- context [for_each ?f ?l] => destruct (for_each f l) end;
    right; eexists; reflexivity.
Qed.

Lemma start_mining_chain (fuel : nat) (now : float) (self : BlockChain) :
  chain (snd (start_mining W fuel now self)) = chain self \/
  exists block, chain (snd (start_mining W fuel now self)) = chain self ++ [block].
Proof.
  unfold start_mining, acquire_mining_semaphore.
  destruct (mining_semaphore self) as [|n]; [left; reflexivity|].
  unfold start_mining_holding.
  pose proof (mining_chain fuel now (set_mining_semaphore n self)) as H.
  destruct (mining W fuel now (set_mining_semaphore n self)) as [[b|e|] s];
    exact H.
Qed.

Lemma step_keeps_chain_nonempty (self self' : BlockChain) :
  step W self self' -> chain self <> [] -> chain self' <> [].
Proof.
  assert (Happ : forall (l : list pyval) b, l ++ [b] <> []).
  { intros l b E. destruct l; discriminate E. }
  intros Hstep Hne. destruct Hstep as [N self self' Hn | N self self' Hn | | | | | | ].
  - rewrite (proj1 (set_neighbours_keeps _ _ _ Hn)). exact Hne.
  - rewrite (proj1 (sync_neighbours_keeps _ _ _ Hn)). exact Hne.
  - destruct (pool_kept_or_extended W self) as (_ & Hadd & _).
    rewrite (proj1 (Hadd sender recipient value pk sig)). exact Hne.
  - destruct (pool_kept_or_extended W self) as (_ & _ & Hct).
    rewrite (proj1 (Hct sender recipient value pk sig)). exact Hne.
  - destruct (mining_chain fuel now self) as [-> | [b ->]]; auto.
  - destruct (start_mining_chain fuel now self) as [-> | [b ->]]; auto.
  - unfold resolve_conflicts.
    destruct (resolve_conflicts_for W (neighbours self) None (length (chain self)))
      as [[[|b c]|]| |]; cbn [snd chain set_chain]; auto. discriminate.
  - exact Hne.
Qed.

(** Every state a node reaches has a last block: [chain[-1]] is there for
    [proof_of_work] and [mining]. *)
Lemma reachable_has_last_block (self : BlockChain) :
  reachable W self -> exists last_block, py_last (chain self) = Ok last_block.
Proof.
  intros H.
  assert (Hne : chain self <> []).
  { induction H as [now a p | self self' _ IH Hstep].
    - unfold init. rewrite create_block_state. cbn. discriminate.
    - exact (step_keeps_chain_nonempty self self' Hstep IH). }
  unfold py_last, py_index. destruct (chain self) as [|b l] eqn:E; [congruence|].
  destruct (nth_error (b :: l) (length (b :: l) - 1)) eqn:En; [eauto|].
  apply nth_error_None in En. simpl in En. lia.
Qed.

End Reachable.

(** C3 as stated fails on the hash of the new block: mining the two pending
    transfers of the sample node (the search stops at nonce 2) appends a
    block whose [hash], which covers the timestamp, starts with ["076"]. *)
Lemma mined_block_hash_lacks_leading_zeros :
  transaction_pool pending_ledger = [transfer "A" "B" 5; transfer "B" "A" 2] /\
  mining lone_world 3 1700000020.25 pending_ledger = (Ok true, mined_ledger) /\
  exists block,
    py_last (chain mined_ledger) = Ok block /\
    py_getitem block "nonce" = Ok (PyInt 2) /\
    hash block = "076f7d0f65fff4c02995f28f6ec141df58683075373759cfd97bf686c483de3f" /\
    str_prefix MINING_DIFFICULTY (hash block) = "076" /\
    str_zeros MINING_DIFFICULTY = "000".
Proof.
  split; [reflexivity|]. split; [vm_compute; reflexivity|].
  eexists. split; [reflexivity|]. split; [reflexivity|].
  split; [vm_compute; reflexivity|]. split; vm_compute; reflexivity.
Qed.

(** C3, amended. On a node whose pool is [T1, T2] and whose chain is not
    empty, when some nonce [n] passes [valid_proof] for the pool with the
    reward on the hash of the last block, a run of [mining] bounded by more
    than [n] tests returns (true, or the exception of a neighbour that could
    not be told; true when there is no neighbour) and leaves a chain one block
    longer, whose new last block holds exactly [T1, T2, reward], carries the
    hash of the block before it and passes [valid_proof] at the system
    difficulty: the hash of its transactions, nonce and previous hash, without
    the timestamp, starts with three zeros. The pool is left empty. *)
Theorem mining_appends_pool_and_reward (W : world) (self : BlockChain)
  (T1 T2 last_block : pyval) (n : Z) (now : float) (fuel : nat) :
  transaction_pool self = [T1; T2] ->
  py_last (chain self) = Ok last_block ->
  0 <= n ->
  valid_proof (PyList [T1; T2; reward_of self]) (PyStr (hash last_block))
    (PyInt n) MINING_DIFFICULTY = true ->
  (Z.to_nat n < fuel)%nat ->
  exists r self' block,
    mining W fuel now self = (r, self') /\
    (r = Ok true \/ exists e, r = Raise e) /\
    (neighbours self = [] -> r = Ok true) /\
    chain self' = chain self ++ [block] /\
    length (chain self') = S (length (chain self)) /\
    py_last (chain self') = Ok block /\
    py_getitem block "transactions" = Ok (PyList [T1; T2; reward_of self]) /\
    transaction_pool self' = [] /\
    block_passes last_block block /\
    (exists k,
        py_getitem block "nonce" = Ok (PyInt k) /\ 0 <= k <= n /\
        str_prefix MINING_DIFFICULTY
          (hash (sorted_dict_by_key
                   [ ("transactions", PyList [T1; T2; reward_of self]);
                     ("nonce", PyInt k);
                     ("previous_hash", PyStr (hash last_block)) ]))
        = "000").
Proof.
  intros Hpool Hlast Hn Hv Hfuel.
  destruct (proof_of_work_while_finds [T1; T2; reward_of self] (hash last_block)
              (Z.to_nat n) fuel 0) as (k & Hk & Hvk & Hrange).
  { rewrite Z2Nat.id by exact Hn. exact Hv. }
  { exact Hfuel. }
  rewrite Z2Nat.id in Hrange by exact Hn.
  destruct (mining_found W fuel now self last_block k Hlast) as (r & Hm & Hr & Hr0).
  { rewrite Hpool. exact Hk. }
  rewrite Hpool in Hm. cbn [app] in Hm.
  eexists r, _, _. split; [exact Hm|].
  split; [exact Hr|]. split; [exact Hr0|].
  split; [reflexivity|].
  split; [cbn [chain set_chain set_transaction_pool]; rewrite length_app; simpl; lia|].
  split.
  { cbn [chain set_chain set_transaction_pool]. unfold py_last, py_index.
    destruct (chain self ++ [block_of now [T1; T2; reward_of self] k (hash last_block)])
      as [|x l] eqn:E.
    - destruct (chain self); discriminate E.
    - rewrite <- E. rewrite length_app. simpl length.
      rewrite nth_error_app2 by lia.
      replace (length (chain self) + 1 - 1 - length (chain self))%nat with O by lia.
      reflexivity. }
  split; [reflexivity|]. split; [reflexivity|].
  split.
  - exists (PyList [T1; T2; reward_of self]), (PyStr (hash last_block)), (PyInt k).
    repeat split; try reflexivity. exact Hvk.
  - exists k. split; [reflexivity|]. split; [lia|].
    unfold valid_proof in Hvk. apply String.eqb_eq in Hvk. exact Hvk.
Qed.

(** C9. While the mining semaphore is held, [start_mining] returns at once
    and leaves the object as it was: no reward, no block, no timer. Nothing
    that runs under the semaphore touches it, so it stays held until the
    release. Hence two overlapping invocations, the second arriving while the
    first holds the semaphore, do together what the first does alone, and a
    run that returns has appended exactly one block. *)
Theorem start_mining_skips_while_held (W : world) (self : BlockChain)
  (fuel : nat) (now : float) (fuel2 : nat) (now2 : float) :
  mining_semaphore self = 1%nat ->
  (forall held f t, mining_semaphore held = 0%nat ->
                    start_mining W f t held = (Ok tt, held))
  /\
  (forall s f t, mining_semaphore (snd (mining W f t s)) = mining_semaphore s)
  /\
  mining_semaphore (snd (acquire_mining_semaphore self)) = 0%nat
  /\
  overlapping_start_mining W fuel now fuel2 now2 self =
    ((fst (start_mining W fuel now self), Ok tt), snd (start_mining W fuel now self))
  /\
  (fst (start_mining W fuel now self) = Ok tt ->
   exists block,
     chain (snd (overlapping_start_mining W fuel now fuel2 now2 self))
       = chain self ++ [block] /\
     transaction_pool (snd (overlapping_start_mining W fuel now fuel2 now2 self))
       = [] /\
     mining_semaphore (snd (overlapping_start_mining W fuel now fuel2 now2 self))
       = 1%nat).
Proof.
  intros Hsem.
  assert (Hskip : forall held f t, mining_semaphore held = 0%nat ->
                    start_mining W f t held = (Ok tt, held)).
  { intros held f t H. unfold start_mining, acquire_mining_semaphore.
    rewrite H. reflexivity. }
  assert (Hover : overlapping_start_mining W fuel now fuel2 now2 self =
            ((fst (start_mining W fuel now self), Ok tt),
             snd (start_mining W fuel now self))).
  { assert (Hone : start_mining W fuel now self =
                     start_mining_holding W fuel now (set_mining_semaphore 0 self)).
    { unfold start_mining, acquire_mining_semaphore. rewrite Hsem. reflexivity. }
    rewrite Hone. unfold overlapping_start_mining, acquire_mining_semaphore.
    rewrite Hsem. rewrite Hskip by reflexivity.
    destruct (start_mining_holding W fuel now (set_mining_semaphore 0 self));
      reflexivity. }
  split; [exact Hskip|]. split; [intros s f t; apply mining_keeps_semaphore|].
  split; [unfold acquire_mining_semaphore; rewrite Hsem; reflexivity|].
  split; [exact Hover|].
  rewrite Hover. cbn [snd].
  unfold start_mining, acquire_mining_semaphore. rewrite Hsem.
  unfold start_mining_holding.
  pose proof (mining_returned W fuel now (set_mining_semaphore 0 self)) as Hret.
  pose proof (mining_keeps_semaphore W fuel now (set_mining_semaphore 0 self)) as Hk.
  destruct (mining W fuel now (set_mining_semaphore 0 self)) as [[b|e|] s];
    cbn [fst snd] in *; try discriminate.
  intros _. destruct (Hret b eq_refl) as (_ & block & ->).
  exists block. repeat split.
Qed.

(* ===================================================================== *)
(** ** [hash]: key order and the shape of the digest *)
(* ===================================================================== *)

Lemma ascii_compare_lt_trans (a b c : ascii) :
  Ascii.compare a b = Lt -> Ascii.compare b c = Lt -> Ascii.compare a c = Lt.
Proof.
  unfold Ascii.compare. rewrite !N.compare_lt_iff. apply N.lt_trans.
Qed.

Lemma string_compare_lt_trans (s1 : string) :
  forall s2 s3,
    String.compare s1 s2 = Lt -> String.compare s2 s3 = Lt ->
    String.compare s1 s3 = Lt.
Proof.
  induction s1 as [|c1 s1 IH]; intros [|c2 s2] [|c3 s3]; simpl; try congruence.
  destruct (Ascii.compare c1 c2) eqn:H12; try congruence;
    destruct (Ascii.compare c2 c3) eqn:H23; try congruence; intros Ha Hb.
  - apply Ascii.compare_eq_iff in H12, H23. subst.
    replace (Ascii.compare c3 c3) with Eq.
    + exact (IH _ _ Ha Hb).
    + symmetry. unfold Ascii.compare. apply N.compare_refl.
  - apply Ascii.compare_eq_iff in H12. subst. rewrite H23. reflexivity.
  - apply Ascii.compare_eq_iff in H23. subst. rewrite H12. reflexivity.
  - rewrite (ascii_compare_lt_trans _ _ _ H12 H23). reflexivity.
Qed.

Lemma string_compare_refl (s : string) : String.compare s s = Eq.
Proof.
  induction s as [|c s IH]; simpl; [reflexivity|].
  unfold Ascii.compare. rewrite N.compare_refl. exact IH.
Qed.

Lemma string_leb_trans (s1 s2 s3 : string) :
  String.leb s1 s2 = true -> String.leb s2 s3 = true -> String.leb s1 s3 = true.
Proof.
  unfold String.leb.
  destruct (String.compare s1 s2) eqn:H12; try discriminate;
    destruct (String.compare s2 s3) eqn:H23; try discriminate; intros _ _.
  - apply String.compare_eq_iff in H12, H23. subst.
    rewrite string_compare_refl. reflexivity.
  - apply String.compare_eq_iff in H12. subst. rewrite H23. reflexivity.
  - apply String.compare_eq_iff in H23. subst. rewrite H12. reflexivity.
  - rewrite (string_compare_lt_trans _ _ _ H12 H23). reflexivity.
Qed.

Section SortItems.

Context {V : Type}.

Lemma insert_item_perm (x : string * V) (l : list (string * V)) :
  Permutation (insert_item x l) (x :: l).
Proof.
  induction l as [|y l IH]; simpl; [reflexivity|].
  destruct (String.leb (fst x) (fst y)); [reflexivity|].
  rewrite IH. apply perm_swap.
Qed.

Lemma sort_items_perm (l : list (string * V)) : Permutation (sort_items l) l.
Proof.
  induction l as [|x l IH]; simpl; [reflexivity|].
  rewrite insert_item_perm. apply perm_skip. exact IH.
Qed.

(** Inserting two items with different keys gives the same list in either
    order. *)
Lemma insert_item_comm (x y : string * V) (l : list (string * V)) :
  fst x <> fst y ->
  insert_item x (insert_item y l) = insert_item y (insert_item x l).
Proof.
  intros Hne.
  assert (Hcases : (String.leb (fst x) (fst y) = true /\
                    String.leb (fst y) (fst x) = false) \/
                   (String.leb (fst x) (fst y) = false /\
                    String.leb (fst y) (fst x) = true)).
  { destruct (String.leb (fst x) (fst y)) eqn:E1;
      destruct (String.leb (fst y) (fst x)) eqn:E2; auto.
    - exfalso. apply Hne. apply String.leb_antisym; assumption.
    - destruct (String.leb_total (fst x) (fst y)); congruence. }
  induction l as [|z l IH]; simpl.
  - destruct Hcases as [[E1 E2] | [E1 E2]]; rewrite E1, E2; reflexivity.
  - destruct (String.leb (fst y) (fst z)) eqn:Eyz;
      destruct (String.leb (fst x) (fst z)) eqn:Exz; simpl;
      destruct Hcases as [[E1 E2] | [E1 E2]];
      rewrite ?E1, ?E2, ?Eyz, ?Exz; try reflexivity.
    + rewrite (string_leb_trans _ _ _ E1 Eyz) in Exz. discriminate.
    + rewrite (string_leb_trans _ _ _ E2 Exz) in Eyz. discriminate.
    + rewrite IH. reflexivity.
    + rewrite IH. reflexivity.
Qed.

(** Sorting sees the items, not the order they were inserted in. *)
Lemma sort_items_permutation (l1 l2 : list (string * V)) :
  NoDup (map fst l1) -> Permutation l1 l2 -> sort_items l1 = sort_items l2.
Proof.
  intros Hnd Hp. induction Hp as [|x l l' Hp IH|x y l|l l' l'' Hp1 IH1 Hp2 IH2].
  - reflexivity.
  - simpl. inversion Hnd; subst. rewrite IH by assumption. reflexivity.
  - simpl. apply insert_item_comm.
    simpl in Hnd. inversion Hnd as [|? ? Hin _]; subst.
    intros E. apply Hin. left. symmetry. exact E.
  - rewrite IH1 by assumption. apply IH2.
    apply (Permutation_NoDup (l := map fst l)); [|exact Hnd].
    apply Permutation_map. exact Hp1.
Qed.

Lemma insert_item_sorted (x : string * V) (l : list (string * V)) :
  Sorted key_le l -> Sorted key_le (insert_item x l).
Proof.
  induction l as [|y l IH]; intros Hs; simpl.
  - repeat constructor.
  - destruct (String.leb (fst x) (fst y)) eqn:E.
    + constructor; [exact Hs | constructor; exact E].
    + inversion Hs as [|? ? Hs' Hhd]; subst. constructor; [apply IH; exact Hs'|].
      assert (Hyx : key_le y x).
      { unfold key_le. destruct (String.leb_total (fst x) (fst y)); congruence. }
      destruct l as [|z l]; simpl.
      * constructor. exact Hyx.
      * destruct (String.leb (fst x) (fst z)); constructor; [exact Hyx|].
        inversion Hhd; assumption.
Qed.

Lemma sort_items_sorted (l : list (string * V)) : Sorted key_le (sort_items l).
Proof.
  induction l as [|x l IH]; simpl; [constructor|].
  apply insert_item_sorted. exact IH.
Qed.

Lemma sort_items_of_sorted (l : list (string * V)) :
  Sorted key_le l -> sort_items l = l.
Proof.
  induction l as [|x l IH]; intros Hs; [reflexivity|].
  inversion Hs as [|? ? Hs' Hhd]; subst. simpl. rewrite IH by exact Hs'.
  destruct l as [|y l]; [reflexivity|]. simpl.
  inversion Hhd as [|? ? Hxy]; subst. unfold key_le in Hxy. rewrite Hxy.
  reflexivity.
Qed.

End SortItems.

Lemma insert_item_map {A B : Type} (g : A -> B) (x : string * A)
  (l : list (string * A)) :
  insert_item (fst x, g (snd x)) (map (fun kv => (fst kv, g (snd kv))) l) =
  map (fun kv => (fst kv, g (snd kv))) (insert_item x l).
Proof.
  induction l as [|y l IH]; simpl; [reflexivity|].
  destruct (String.leb (fst x) (fst y)); simpl; [reflexivity|].
  rewrite IH. reflexivity.
Qed.

Lemma sort_items_map {A B : Type} (g : A -> B) (l : list (string * A)) :
  sort_items (map (fun kv => (fst kv, g (snd kv))) l) =
  map (fun kv => (fst kv, g (snd kv))) (sort_items l).
Proof.
  induction l as [|x l IH]; simpl; [reflexivity|].
  rewrite IH. apply insert_item_map.
Qed.

(** Induction on values, through the lists and dictionaries they hold. *)
Lemma pyval_nested_ind (P : pyval -> Prop) :
  P PyNone ->
  (forall b, P (PyBool b)) ->
  (forall z, P (PyInt z)) ->
  (forall f, P (PyFloat f)) ->
  (forall s, P (PyStr s)) ->
  (forall l, Forall P l -> P (PyList l)) ->
  (forall d, Forall (fun kv => P (snd kv)) d -> P (PyDict d)) ->
  forall v, P v.
Proof.
  intros HN HB HZ HF HS HL HD.
  fix IH 1. intros [ | b | z | f | s | l | d ].
  - exact HN.
  - apply HB.
  - apply HZ.
  - apply HF.
  - apply HS.
  - apply HL. induction l as [|x l IHl]; constructor; [apply IH | exact IHl].
  - apply HD. induction d as [|[k x] d IHd]; constructor; [apply IH | exact IHd].
Qed.

Lemma json_dumps_dict (items : list (string * pyval)) :
  json_dumps (PyDict items) =
  ("{" ++ String.concat ", "
            (map render_item
               (sort_items (map (fun kv => (fst kv, json_dumps (snd kv))) items)))
       ++ "}")%string.
Proof.
  cbn [json_dumps].
  rewrite (map_ext (fun kv : string * pyval => let (k, x) := kv in (k, json_dumps x))
                   (fun kv => (fst kv, json_dumps (snd kv))))
    by (intros [k x]; reflexivity).
  reflexivity.
Qed.

Lemma map_json_dumps_same (l1 l2 : list pyval) :
  Forall (fun v1 => forall v2, same_content v1 v2 -> json_dumps v1 = json_dumps v2) l1 ->
  Forall2 same_content l1 l2 ->
  map json_dumps l1 = map json_dumps l2.
Proof.
  intros HP H2. induction H2 as [|a b la lb Hab Hrest IH]; [reflexivity|].
  inversion HP; subst. simpl. f_equal; auto.
Qed.

Lemma map_items_same (d1 d2 : list (string * pyval)) :
  Forall (fun kv => forall v2, same_content (snd kv) v2 ->
                               json_dumps (snd kv) = json_dumps v2) d1 ->
  Forall2 (fun a b => fst a = fst b /\ same_content (snd a) (snd b)) d1 d2 ->
  map (fun kv => (fst kv, json_dumps (snd kv))) d1 =
  map (fun kv => (fst kv, json_dumps (snd kv))) d2.
Proof.
  intros HP H2. induction H2 as [|a b la lb [Hk Hab] Hrest IH]; [reflexivity|].
  inversion HP; subst. simpl. rewrite Hk. f_equal; [f_equal; auto | auto].
Qed.

Lemma json_dumps_same_content (v1 : pyval) :
  forall v2, same_content v1 v2 -> json_dumps v1 = json_dumps v2.
Proof.
  induction v1 as [ | b | z | f | s | l IHl | d IHd ] using pyval_nested_ind;
    intros v2 H; inversion H; subst; try reflexivity.
  - cbn [json_dumps]. rewrite (map_json_dumps_same l l2) by assumption.
    reflexivity.
  - rewrite !json_dumps_dict.
    rewrite (map_items_same d d1') by assumption.
    rewrite (sort_items_permutation
               (map (fun kv => (fst kv, json_dumps (snd kv))) d1')
               (map (fun kv => (fst kv, json_dumps (snd kv))) d2)).
    + reflexivity.
    + rewrite <- (map_items_same d d1') by assumption.
      rewrite map_map. simpl. assumption.
    + apply Permutation_map. assumption.
Qed.

Lemma hex_digit_lower (n : Z) : is_lower_hex (hex_digit n) = true.
Proof.
  unfold hex_digit.
  destruct (Z.land n 15) as [|p|p]; try reflexivity.
  do 5 (try destruct p as [p|p|]; try reflexivity).
Qed.

Lemma hex_of_shape (n : nat) (x : Z) :
  length (hex_of n x) = n /\ forallb is_lower_hex (hex_of n x) = true.
Proof.
  unfold hex_of. split.
  - rewrite length_map, length_rev, length_seq. reflexivity.
  - apply forallb_forall. intros c Hc. apply in_map_iff in Hc.
    destruct Hc as (i & <- & _). apply hex_digit_lower.
Qed.

Lemma blocks_length (fuel : nat) :
  forall h ws, length h = 8%nat -> length (SHA256.blocks fuel h ws) = 8%nat.
Proof.
  induction fuel as [|fuel IH]; intros h ws Hh; simpl; [exact Hh|].
  destruct ws; [exact Hh|]. apply IH. reflexivity.
Qed.

Lemma string_length_of_list (l : list ascii) :
  String.length (string_of_list_ascii l) = length l.
Proof. induction l as [|c l IH]; simpl; [reflexivity | rewrite IH; reflexivity]. Qed.

Lemma sha256_hexdigest_shape (msg : list Z) :
  String.length (sha256_hexdigest msg) = 64%nat /\
  forallb is_lower_hex (list_ascii_of_string (sha256_hexdigest msg)) = true.
Proof.
  unfold sha256_hexdigest.
  assert (Hw : length (SHA256.digest_words msg) = 8%nat).
  { unfold SHA256.digest_words. apply blocks_length. reflexivity. }
  assert (Hgen : forall ws : list Z,
             length (flat_map (hex_of 8) ws) = (8 * length ws)%nat /\
             forallb is_lower_hex (flat_map (hex_of 8) ws) = true).
  { induction ws as [|w ws [IH1 IH2]]; [split; reflexivity|].
    cbn [flat_map]. destruct (hex_of_shape 8 w) as [H1 H2].
    rewrite length_app, forallb_app, H1, H2, IH1, IH2. simpl length.
    split; [lia | reflexivity]. }
  destruct (Hgen (SHA256.digest_words msg)) as [H1 H2].
  rewrite list_ascii_of_string_of_list_ascii, string_length_of_list.
  split; [rewrite H1, Hw; reflexivity | exact H2].
Qed.

(** C8. [hash] is the lowercase hexadecimal SHA-256 digest (64 characters)
    of the serialization in which every dictionary lists its items sorted by
    key. It depends on the content only: two dictionaries without repeated
    keys whose items differ in insertion order have the same hash, also when
    the reordering is inside nested dictionaries, and the dictionary rebuilt
    in key order by [sorted_dict_by_key] hashes as the original. So a block
    read back with its items in another order hashes the same. *)
Theorem hash_ignores_insertion_order :
  (forall v, hash v = sha256_hexdigest (encode_utf8 (json_dumps v)) /\
             String.length (hash v) = 64%nat /\
             forallb is_lower_hex (list_ascii_of_string (hash v)) = true)
  /\
  (forall items,
      json_dumps (PyDict items) =
      ("{" ++ String.concat ", "
                (map render_item
                   (sort_items
                      (map (fun kv => (fst kv, json_dumps (snd kv))) items)))
           ++ "}")%string /\
      Sorted key_le
        (sort_items (map (fun kv => (fst kv, json_dumps (snd kv))) items)))
  /\
  (forall d1 d2, NoDup (map fst d1) -> Permutation d1 d2 ->
                 hash (PyDict d1) = hash (PyDict d2))
  /\
  (forall v1 v2, same_content v1 v2 -> hash v1 = hash v2)
  /\
  (forall d, hash (sorted_dict_by_key d) = hash (PyDict d)).
Proof.
  split; [|split; [|split; [|split]]].
  - intros v. split; [reflexivity|]. apply sha256_hexdigest_shape.
  - intros items. split; [apply json_dumps_dict | apply sort_items_sorted].
  - intros d1 d2 Hnd Hp. unfold hash. f_equal. f_equal.
    apply json_dumps_same_content.
    apply (same_dict d1 d1 d2); [exact Hnd | | exact Hp].
    clear. induction d1 as [|a d1 IH]; constructor; [|exact IH].
    split; [reflexivity | apply same_refl].
  - intros v1 v2 H. unfold hash. f_equal. f_equal.
    apply json_dumps_same_content. exact H.
  - intros d. unfold hash, sorted_dict_by_key. f_equal. f_equal.
    rewrite !json_dumps_dict. rewrite sort_items_map.
    rewrite (sort_items_of_sorted (sort_items d)) by apply sort_items_sorted.
    rewrite <- sort_items_map. reflexivity.
Qed.

(* ===================================================================== *)
(** ** The statements at the sample data *)
(* ===================================================================== *)

(** The fork choice of the specification's example: a local chain of 3
    blocks, peers with valid chains of 2 and 5 blocks; the chain of 5 is
    adopted. *)
Lemma resolve_conflicts_adopts_longest_valid_witness :
  length (chain local_ledger) = 3%nat /\
  length peer5001_chain = 2%nat /\
  length peer5002_chain = 5%nat /\
  resolve_conflicts (peers_world peer5002_chain) local_ledger =
  (Ok true, set_chain peer5002_chain local_ledger).
Proof.
  split; [reflexivity|]. split; [reflexivity|]. split; [reflexivity|].
  pose (answers := [Response 200 peer5001_chain; Response 200 peer5002_chain]).
  assert (Hget : map (fun node =>
                        requests_get (peers_world peer5002_chain) (url node "/chain"))
                     (neighbours local_ledger) = map Ok answers)
    by reflexivity.
  assert (Hwf : forall c, In c (fetched_chains answers) -> Forall is_block (tl c)).
  { intros c [<- | [<- | []]]; simpl; repeat constructor; block_has_keys. }
  destruct (resolve_conflicts_adopts_longest_valid
              (peers_world peer5002_chain) local_ledger answers Hget Hwf)
    as (_ & Hadopt & _).
  destruct Hadopt as (c & (Hin & Hlen & _) & _ & Hres).
  - exists peer5002_chain. split; [right; left; reflexivity|].
    split; [simpl; lia | vm_compute; reflexivity].
  - destruct Hin as [<- | [<- | []]].
    + simpl in Hlen. lia.
    + exact Hres.
Defined.

(** Mining the two pending transfers of the sample node, where nonce 2
    passes. *)
Lemma mining_appends_pool_and_reward_witness :
  transaction_pool pending_ledger = [transfer "A" "B" 5; transfer "B" "A" 2] /\
  py_last (chain pending_ledger) = Ok (nth 0 (chain pending_ledger) PyNone) /\
  valid_proof
    (PyList [transfer "A" "B" 5; transfer "B" "A" 2; reward_of pending_ledger])
    (PyStr (hash (nth 0 (chain pending_ledger) PyNone))) (PyInt 2)
    MINING_DIFFICULTY = true /\
  exists r self' block,
    mining lone_world 3 1700000020.25 pending_ledger = (r, self') /\
    r = Ok true /\
    chain self' = chain pending_ledger ++ [block] /\
    transaction_pool self' = [] /\
    block_passes (nth 0 (chain pending_ledger) PyNone) block.
Proof.
  assert (Hpool : transaction_pool pending_ledger =
                  [transfer "A" "B" 5; transfer "B" "A" 2]) by reflexivity.
  assert (Hlast : py_last (chain pending_ledger) =
                  Ok (nth 0 (chain pending_ledger) PyNone)) by reflexivity.
  assert (Hv : valid_proof
                 (PyList [transfer "A" "B" 5; transfer "B" "A" 2;
                          reward_of pending_ledger])
                 (PyStr (hash (nth 0 (chain pending_ledger) PyNone))) (PyInt 2)
                 MINING_DIFFICULTY = true) by (vm_compute; reflexivity).
  split; [exact Hpool|]. split; [exact Hlast|]. split; [exact Hv|].
  destruct (mining_appends_pool_and_reward lone_world pending_ledger
              (transfer "A" "B" 5) (transfer "B" "A" 2)
              (nth 0 (chain pending_ledger) PyNone) 2 1700000020.25 3
              Hpool Hlast ltac:(lia) Hv ltac:(simpl; lia))
    as (r & self' & block & Hm & _ & Hr & Hc & _ & _ & _ & Hp & Hb & _).
  exists r, self', block. split; [exact Hm|].
  split; [apply Hr; reflexivity|]. split; [exact Hc|]. split; [exact Hp | exact Hb].
Defined.


(** B, who holds 3 on the mined chain, sends 2 to A with a signature the
    sample verifier accepts. *)
Lemma add_transaction_admission_witness :
  py_float lone_world (PyFloat 2) = Ok 2%float /\
  add_transaction lone_world "B" (PyStr "A") (PyFloat 2) sample_public_key
    sample_signature mined_ledger =
  (Ok true,
   set_transaction_pool
     (transaction_pool mined_ledger ++ [transaction_of "B" (PyStr "A") 2])
     mined_ledger).
Proof.
  split; [reflexivity|].
  destruct (add_transaction_admission lone_world "B" (PyStr "A") (PyFloat 2)
              sample_public_key sample_signature 2 mined_ledger eq_refl)
    as (_ & Hother & _).
  destruct (Hother ltac:(discriminate)) as (Hadmit & _).
  rewrite (Hadmit 3%float); [reflexivity | vm_compute; reflexivity
                            | vm_compute; reflexivity].
Defined.

(** The mined chain read as transactions, and the balance of A on it. *)
Lemma calculate_total_amount_is_chain_sum_witness :
  Forall2 (block_entries lone_world) (chain mined_ledger)
    [ [];
      [ Entry (PyStr "A") (PyStr "B") 5; Entry (PyStr "B") (PyStr "A") 2;
        Entry (PyStr "THE BLOCKCHAIN") (PyStr "miner2498") 1 ] ] /\
  calculate_total_amount lone_world "A" mined_ledger = Ok (-3)%float.
Proof.
  assert (H : Forall2 (block_entries lone_world) (chain mined_ledger)
                [ [];
                  [ Entry (PyStr "A") (PyStr "B") 5; Entry (PyStr "B") (PyStr "A") 2;
                    Entry (PyStr "THE BLOCKCHAIN") (PyStr "miner2498") 1 ] ]).
  { repeat constructor.
    - eexists. split; [reflexivity | constructor].
    - eexists. split; [reflexivity|].
      repeat constructor; eexists; repeat split; reflexivity. }
  split; [exact H|].
  destruct (calculate_total_amount_is_chain_sum lone_world "A" mined_ledger _ H)
    as (Hsum & _).
  rewrite Hsum. vm_compute. reflexivity.
Defined.

(** Two overlapping invocations on the sample node with two pending
    transfers. *)
Lemma start_mining_skips_while_held_witness :
  mining_semaphore pending_ledger = 1%nat /\
  overlapping_start_mining lone_world 3 1700000020.25 3 1700000020.5
    pending_ledger =
  ((Ok tt, Ok tt),
   add_timer (MINING_TIMER_SEC, Task_start_mining) mined_ledger).
Proof.
  split; [reflexivity|].
  destruct (start_mining_skips_while_held lone_world pending_ledger
              3 1700000020.25 3 1700000020.5 eq_refl) as (_ & _ & _ & Hover & _).
  rewrite Hover. vm_compute. reflexivity.
Defined.

(* ===================================================================== *)
(** ** More on [valid_proof], [proof_of_work] and [mining] *)
(* ===================================================================== *)

Lemma string_of_list_ascii_inj (l1 l2 : list ascii) :
  string_of_list_ascii l1 = string_of_list_ascii l2 -> l1 = l2.
Proof.
  intros H. rewrite <- (list_ascii_of_string_of_list_ascii l1),
              <- (list_ascii_of_string_of_list_ascii l2), H. reflexivity.
Qed.

Lemma firstn_repeat {A : Type} (x : A) (n m : nat) :
  (m <= n)%nat -> firstn m (repeat x n) = repeat x m.
Proof.
  revert n. induction m as [|m IH]; intros n H; [reflexivity|].
  destruct n as [|n]; [lia|]. simpl. rewrite IH by lia. reflexivity.
Qed.

Lemma str_prefix_zeros_iff (d : nat) (h : string) :
  String.eqb (str_prefix d h) (str_zeros d) = true <->
  firstn d (list_ascii_of_string h) = repeat "0"%char d.
Proof.
  unfold str_prefix, str_zeros. rewrite String.eqb_eq. split.
  - apply string_of_list_ascii_inj.
  - intros ->. reflexivity.
Qed.

Lemma hash_length (v : pyval) : length (list_ascii_of_string (hash v)) = 64%nat.
Proof.
  pose proof (proj1 (sha256_hexdigest_shape (encode_utf8 (json_dumps v)))) as H.
  unfold hash. rewrite <- H.
  generalize (sha256_hexdigest (encode_utf8 (json_dumps v))). intros s.
  induction s as [|c s IH]; simpl; [reflexivity | rewrite IH; reflexivity].
Qed.

(** X1. The difficulty only narrows [valid_proof]: every guess passes at
    difficulty 0, a guess that passes at a difficulty passes at every lower
    one, and no guess passes at a difficulty above 64, the length of the
    digest. *)
Theorem valid_proof_difficulty (transactions previous_hash nonce : pyval) :
  valid_proof transactions previous_hash nonce 0 = true
  /\
  (forall d d', (d' <= d)%nat ->
     valid_proof transactions previous_hash nonce d = true ->
     valid_proof transactions previous_hash nonce d' = true)
  /\
  (forall d, (64 < d)%nat ->
     valid_proof transactions previous_hash nonce d = false).
Proof.
  unfold valid_proof.
  set (h := hash (sorted_dict_by_key
                    [("transactions", transactions); ("nonce", nonce);
                     ("previous_hash", previous_hash)])).
  assert (Hlen : length (list_ascii_of_string h) = 64%nat) by apply hash_length.
  split; [|split].
  - apply str_prefix_zeros_iff. reflexivity.
  - intros d d' Hle H. apply str_prefix_zeros_iff in H.
    apply str_prefix_zeros_iff.
    replace d' with (Nat.min d' d) at 1 by lia.
    rewrite <- firstn_firstn, H. apply firstn_repeat. exact Hle.
  - intros d Hd.
    destruct (String.eqb (str_prefix d h) (str_zeros d)) eqn:E; [|reflexivity].
    apply str_prefix_zeros_iff in E.
    apply (f_equal (@length ascii)) in E.
    rewrite length_firstn, repeat_length, Hlen in E. lia.
Qed.

(** What the search returns when it returns: a nonce that passes, below the
    bound, every nonce before it failing. *)
Lemma proof_of_work_while_least (fuel : nat) :
  forall (transactions : list pyval) (ph : string) (k n : Z),
    proof_of_work_while fuel transactions ph k = Ok n ->
    valid_proof (PyList transactions) (PyStr ph) (PyInt n) MINING_DIFFICULTY = true /\
    k <= n < k + Z.of_nat fuel /\
    forall j, k <= j < n ->
      valid_proof (PyList transactions) (PyStr ph) (PyInt j) MINING_DIFFICULTY = false.
Proof.
  induction fuel as [|fuel IH]; intros transactions ph k n H;
    cbn [proof_of_work_while] in H; [discriminate H|].
  destruct (valid_proof (PyList transactions) (PyStr ph) (PyInt k)
              MINING_DIFFICULTY) eqn:Hk.
  - injection H as <-. split; [exact Hk|]. split; [lia|]. intros j Hj. lia.
  - destruct (IH _ _ _ _ H) as (Hv & Hr & Hbefore).
    split; [exact Hv|]. split; [lia|].
    intros j Hj. destruct (Z.eq_dec j k) as [-> | Hne]; [exact Hk|].
    apply Hbefore. lia.
Qed.

Lemma proof_of_work_while_more_fuel (fuel : nat) :
  forall (transactions : list pyval) (ph : string) (k n : Z) (fuel' : nat),
    proof_of_work_while fuel transactions ph k = Ok n ->
    (fuel <= fuel')%nat ->
    proof_of_work_while fuel' transactions ph k = Ok n.
Proof.
  induction fuel as [|fuel IH]; intros transactions ph k n fuel' H Hle;
    cbn [proof_of_work_while] in H; [discriminate H|].
  destruct fuel' as [|fuel']; [lia|]. cbn [proof_of_work_while].
  destruct (valid_proof (PyList transactions) (PyStr ph) (PyInt k)
              MINING_DIFFICULTY); [exact H|].
  apply (IH _ _ _ _ fuel' H). lia.
Qed.

(** X2. When [proof_of_work] returns a nonce, the chain has a last block,
    the nonce is not negative and passes [valid_proof] for the pool on the
    hash of that block, and it is the least such nonce: every smaller one
    fails. The bound on the search plays no part in the answer: any larger
    bound gives the same nonce. *)
Theorem proof_of_work_least_nonce (fuel : nat) (self : BlockChain) (n : Z) :
  proof_of_work fuel self = Ok n ->
  exists last_block,
    py_last (chain self) = Ok last_block /\
    0 <= n /\
    valid_proof (PyList (transaction_pool self)) (PyStr (hash last_block))
      (PyInt n) MINING_DIFFICULTY = true /\
    (forall j, 0 <= j < n ->
       valid_proof (PyList (transaction_pool self)) (PyStr (hash last_block))
         (PyInt j) MINING_DIFFICULTY = false) /\
    (forall fuel', (fuel <= fuel')%nat -> proof_of_work fuel' self = Ok n).
Proof.
  unfold proof_of_work. intros H.
  destruct (py_last (chain self)) as [last_block|e|]; cbn [obind] in *;
    try discriminate H.
  exists last_block. split; [reflexivity|].
  destruct (proof_of_work_while_least _ _ _ _ _ H) as (Hv & Hr & Hb).
  split; [lia|]. split; [exact Hv|]. split; [exact Hb|].
  intros fuel' Hle. exact (proof_of_work_while_more_fuel _ _ _ _ _ fuel' H Hle).
Qed.

Lemma proof_of_work_least_nonce_witness :
  proof_of_work 3 (set_transaction_pool
                     (transaction_pool pending_ledger ++ [reward_of pending_ledger])
                     pending_ledger) = Ok 2 /\
  valid_proof
    (PyList [transfer "A" "B" 5; transfer "B" "A" 2; reward_of pending_ledger])
    (PyStr (hash (nth 0 (chain pending_ledger) PyNone))) (PyInt 1)
    MINING_DIFFICULTY = false.
Proof.
  assert (H : proof_of_work 3
                (set_transaction_pool
                   (transaction_pool pending_ledger ++ [reward_of pending_ledger])
                   pending_ledger) = Ok 2) by (vm_compute; reflexivity).
  split; [exact H|].
  destruct (proof_of_work_least_nonce _ _ _ H) as (b & Hb & _ & _ & Hless & _).
  injection Hb as <-. apply (Hless 1). lia.
Defined.

(* ===================================================================== *)
(** ** What the chain keeps under the methods *)
(* ===================================================================== *)

Lemma walk_app (rest : list pyval) :
  forall (g b : pyval),
    walk g rest = Ok true ->
    check_block (last (g :: rest) PyNone) b = Ok true ->
    walk g (rest ++ [b]) = Ok true.
Proof.
  induction rest as [|x rest IH]; intros g b Hw Hc.
  - simpl in *. rewrite Hc. reflexivity.
  - cbn [walk app] in *.
    destruct (check_block g x) as [[|]| |]; cbn [obind] in *; try discriminate.
    apply IH; assumption.
Qed.

Lemma py_last_is_last (l : list pyval) (b : pyval) :
  py_last l = Ok b -> exists g rest, l = g :: rest /\ last (g :: rest) PyNone = b.
Proof.
  unfold py_last, py_index. destruct l as [|g rest]; [discriminate|].
  intros H. exists g, rest. split; [reflexivity|].
  destruct (nth_error (g :: rest) (length (g :: rest) - 1)) as [x|] eqn:E;
    [|discriminate H].
  injection H as <-.
  rewrite <- (nth_error_nth _ _ PyNone E).
  clear E. revert g. induction rest as [|y rest IH]; intros g; [reflexivity|].
  change (last (g :: y :: rest) PyNone) with (last (y :: rest) PyNone).
  rewrite (IH y). simpl. rewrite Nat.sub_0_r. reflexivity.
Qed.

Lemma valid_chain_app (l : list pyval) (last_block b : pyval) :
  valid_chain l = Ok true ->
  py_last l = Ok last_block ->
  block_passes last_block b ->
  valid_chain (l ++ [b]) = Ok true.
Proof.
  intros Hv Hl Hb. destruct (py_last_is_last l last_block Hl) as (g & rest & -> & Hlast).
  rewrite valid_chain_walk in Hv. cbn [app]. rewrite valid_chain_walk.
  apply walk_app; [exact Hv|]. rewrite Hlast. apply check_block_true. exact Hb.
Qed.

Section MiningOutcomes.

Variable W : world.

(** The two states a run of [mining] can leave: the reward pending and the
    chain as it was, or one block more, built from the pool and the reward on
    the nonce the search found. *)
Lemma mining_outcomes (fuel : nat) (now : float) (self : BlockChain) :
  (snd (mining W fuel now self) =
     set_transaction_pool (transaction_pool self ++ [reward_of self]) self /\
   forall b, fst (mining W fuel now self) <> Ok b)
  \/
  (exists last_block nonce,
     py_last (chain self) = Ok last_block /\
     proof_of_work_while fuel (transaction_pool self ++ [reward_of self])
       (hash last_block) 0 = Ok nonce /\
     snd (mining W fuel now self) =
       set_transaction_pool []
         (set_chain
            (chain self ++
             [block_of now (transaction_pool self ++ [reward_of self]) nonce
                (hash last_block)]) self)).
Proof.
  unfold mining. rewrite mining_reward_admitted. unfold proof_of_work.
  cbn [chain transaction_pool set_transaction_pool].
  destruct (py_last (chain self)) as [last_block|e|] eqn:Hlast; cbn [obind];
    try (left; split; [reflexivity | intros b; discriminate]).
  destruct (proof_of_work_while fuel _ (hash last_block) 0) as [nonce|e|] eqn:Hpow;
    try (left; split; [reflexivity | intros b; discriminate]).
  right. exists last_block, nonce. split; [reflexivity|]. split; [exact Hpow|].
  set (self1 := set_transaction_pool _ self).
  pose proof (create_block_state W now nonce (hash last_block) self1) as Hs.
  destruct (create_block W now nonce (hash last_block) self1) as [[blk|e|] s];
    cbn [fst snd] in *; subst s; try reflexivity.
  match goal with |- context [for_each ?f ?l] => destruct (for_each f l) end;
    reflexivity.
Qed.

Lemma mining_returned_block (fuel : nat) (now : float) (self : BlockChain) (b : bool) :
  fst (mining W fuel now self) = Ok b ->
  exists last_block nonce,
    py_last (chain self) = Ok last_block /\
    snd (mining W fuel now self) =
      set_transaction_pool []
        (set_chain
           (chain self ++
            [block_of now (transaction_pool self ++ [reward_of self]) nonce
               (hash last_block)]) self).
Proof.
  intros H. destruct (mining_outcomes fuel now self) as [[_ Hn] | (l & n & Hl & _ & Hs)].
  - exfalso. exact (Hn b H).
  - exists l, n. split; assumption.
Qed.

Lemma mined_block_passes (fuel : nat) (now : float) (transactions : list pyval)
  (last_block : pyval) (nonce : Z) :
  proof_of_work_while fuel transactions (hash last_block) 0 = Ok nonce ->
  block_passes last_block (block_of now transactions nonce (hash last_block)).
Proof.
  intros H. destruct (proof_of_work_while_least _ _ _ _ _ H) as (Hv & _).
  exists (PyList transactions), (PyStr (hash last_block)), (PyInt nonce).
  repeat split; try reflexivity. exact Hv.
Qed.

Lemma mining_chain_valid (fuel : nat) (now : float) (self : BlockChain) :
  valid_chain (chain self) = Ok true ->
  valid_chain (chain (snd (mining W fuel now self))) = Ok true.
Proof.
  intros Hv.
  destruct (mining_outcomes fuel now self) as [[-> _] | (l & n & Hl & Hp & ->)].
  - exact Hv.
  - cbn [chain set_chain set_transaction_pool].
    apply (valid_chain_app _ l); [exact Hv | exact Hl|].
    exact (mined_block_passes fuel now _ l n Hp).
Qed.

Lemma mining_keeps_timers (fuel : nat) (now : float) (self : BlockChain) :
  timers (snd (mining W fuel now self)) = timers self.
Proof.
  destruct (mining_outcomes fuel now self) as [[-> _] | (l & n & _ & _ & ->)];
    reflexivity.
Qed.

(** What the loop of [resolve_conflicts] can return: the choice it started
    from, or a chain that passed [valid_chain] and is longer than the length
    it started from. *)
Lemma resolve_conflicts_for_sound (nodes : list string) :
  forall (lc : option (list pyval)) (ml : nat) (c : list pyval),
    resolve_conflicts_for W nodes lc ml = Ok (Some c) ->
    lc = Some c \/ (valid_chain c = Ok true /\ (ml < length c)%nat).
Proof.
  induction nodes as [|node nodes IH]; intros lc ml c H; cbn [resolve_conflicts_for] in H.
  - injection H as ->. left. reflexivity.
  - destruct (requests_get W (url node "/chain")) as [r|e|]; cbn [obind] in H;
      try discriminate H.
    destruct (status_code r =? 200); [|exact (IH _ _ _ H)].
    destruct (ml <? length (response_chain r))%nat eqn:Hl; [|exact (IH _ _ _ H)].
    apply Nat.ltb_lt in Hl.
    destruct (valid_chain (response_chain r)) as [[|]|e|] eqn:Hv; cbn [obind] in H;
      try discriminate H; [|exact (IH _ _ _ H)].
    right. destruct (IH _ _ _ H) as [E | [Hvc Hlt]].
    + injection E as <-. split; assumption.
    + split; [exact Hvc | lia].
Qed.

Lemma step_chain_facts (self self' : BlockChain) :
  step W self self' ->
  (length (chain self) <= length (chain self'))%nat /\
  (valid_chain (chain self) = Ok true -> valid_chain (chain self') = Ok true).
Proof.
  intros Hstep. destruct Hstep as [N self self' Hn | N self self' Hn | | | | | | ].
  - rewrite (proj1 (set_neighbours_keeps _ _ _ Hn)). auto.
  - rewrite (proj1 (sync_neighbours_keeps _ _ _ Hn)). auto.
  - destruct (pool_kept_or_extended W self) as (_ & Hadd & _).
    rewrite (proj1 (Hadd sender recipient value pk sig)). auto.
  - destruct (pool_kept_or_extended W self) as (_ & _ & Hct).
    rewrite (proj1 (Hct sender recipient value pk sig)). auto.
  - split; [|apply mining_chain_valid].
    destruct (mining_chain W fuel now self) as [-> | [b ->]];
      [|rewrite length_app; simpl]; lia.
  - unfold start_mining, acquire_mining_semaphore.
    destruct (mining_semaphore self) as [|n]; [auto|].
    unfold start_mining_holding.
    pose proof (mining_chain W fuel now (set_mining_semaphore n self)) as Hc.
    pose proof (mining_chain_valid fuel now (set_mining_semaphore n self)) as Hv.
    destruct (mining W fuel now (set_mining_semaphore n self)) as [[b|e|] s];
      cbn [fst snd chain release_mining_semaphore add_timer set_mining_semaphore] in *;
      (split; [destruct Hc as [-> | [blk ->]]; [|rewrite length_app; simpl]; lia
              | exact Hv]).
  - unfold resolve_conflicts.
    destruct (resolve_conflicts_for W (neighbours self) None (length (chain self)))
      as [[[|b c]|]| |] eqn:Hr; cbn [snd chain set_chain]; auto.
    destruct (resolve_conflicts_for_sound _ _ _ _ Hr) as [E | [Hv Hl]];
      [discriminate E|].
    split; [lia | intros _; exact Hv].
  - auto.
Qed.

Lemma step_semaphore (self self' : BlockChain) :
  step W self self' -> (mining_semaphore self' <= mining_semaphore self)%nat.
Proof.
  intros Hstep. destruct Hstep as [N self self' Hn | N self self' Hn | | | | | | ].
  - rewrite (proj2 (proj2 (set_neighbours_keeps _ _ _ Hn))). lia.
  - rewrite (proj2 (proj2 (sync_neighbours_keeps _ _ _ Hn))). lia.
  - destruct (add_transaction_cases W sender recipient value pk sig self)
      as [(v & _ & ->) | [-> _]]; cbn; lia.
  - unfold create_transaction.
    destruct (add_transaction_cases W sender recipient value pk sig self)
      as [(v & _ & ->) | [Hs Hf]].
    + match goal with |- context [for_each ?f ?l] => destruct (for_each f l) end;
        cbn; lia.
    + destruct (add_transaction W sender recipient value pk sig self)
        as [[[|]|e|] s]; simpl in Hs, Hf; subst; try congruence; cbn; lia.
  - rewrite mining_keeps_semaphore. lia.
  - unfold start_mining, acquire_mining_semaphore.
    destruct (mining_semaphore self) as [|n] eqn:Hn; [cbn [snd]; rewrite Hn; lia|].
    unfold start_mining_holding.
    pose proof (mining_keeps_semaphore W fuel now (set_mining_semaphore n self)) as Hk.
    destruct (mining W fuel now (set_mining_semaphore n self)) as [[b|e|] s];
      cbn [fst snd mining_semaphore release_mining_semaphore add_timer
           set_mining_semaphore] in *; lia.
  - unfold resolve_conflicts.
    destruct (resolve_conflicts_for W (neighbours self) None (length (chain self)))
      as [[[|b c]|]| |]; cbn; lia.
  - cbn. lia.
Qed.

End MiningOutcomes.

(** X3. A run of [mining] keeps a valid chain valid, whatever it returns:
    the block it appends carries the hash of the last block and a nonce that
    passes [valid_proof], and when it appends nothing the chain is as it
    was. *)
Theorem mining_keeps_chain_valid (W : world) (fuel : nat) (now : float)
  (self : BlockChain) :
  valid_chain (chain self) = Ok true ->
  valid_chain (chain (snd (mining W fuel now self))) = Ok true /\
  (forall b, fst (mining W fuel now self) = Ok b ->
     exists last_block block,
       py_last (chain self) = Ok last_block /\
       chain (snd (mining W fuel now self)) = chain self ++ [block] /\
       block_passes last_block block).
Proof.
  intros Hv. split; [apply mining_chain_valid; exact Hv|].
  intros b Hb.
  destruct (mining_outcomes W fuel now self) as [[_ Hn] | (l & n & Hl & Hp & Hs)].
  - exfalso. exact (Hn b Hb).
  - exists l. eexists. split; [exact Hl|]. rewrite Hs. split; [reflexivity|].
    exact (mined_block_passes fuel now _ l n Hp).
Qed.

Lemma mining_keeps_chain_valid_witness :
  valid_chain (chain pending_ledger) = Ok true /\
  valid_chain (chain (snd (mining lone_world 3 1700000020.25 pending_ledger)))
  = Ok true.
Proof.
  assert (H : valid_chain (chain pending_ledger) = Ok true) by reflexivity.
  split; [exact H|].
  exact (proj1 (mining_keeps_chain_valid lone_world 3 1700000020.25 pending_ledger H)).
Defined.

(** [run] is three calls in a row: a state that [run] leaves is reached. *)
Lemma run_reachable (W : world) (N : network) (fuel : nat) (now : float)
  (self self' : BlockChain) (o : outcome unit) :
  reachable W self -> run W N fuel now self = Some (o, self') -> reachable W self'.
Proof.
  intros Hr. unfold run.
  destruct (sync_neighbours N self) as [s1|] eqn:Hsync; [|discriminate].
  assert (H1 : reachable W s1).
  { apply (reachable_step W self); [exact Hr|].
    exact (step_sync_neighbours W N self s1 Hsync). }
  assert (H2 : reachable W (snd (resolve_conflicts W s1))).
  { apply (reachable_step W s1); [exact H1 | apply step_resolve_conflicts]. }
  destruct (resolve_conflicts W s1) as [[b|e|] s2]; cbn [snd] in H2; intros E.
  - injection E as E.
    assert (E' : self' = snd (start_mining W fuel now s2)) by (rewrite E; reflexivity).
    subst self'. apply (reachable_step W s2); [exact H2 | apply step_start_mining].
  - injection E as _ <-. exact H2.
  - injection E as _ <-. exact H2.
Qed.

(** X4. Every state a node reaches, from [__init__] through any calls of
    [set_neighbours], [sync_neighbours], [add_transaction],
    [create_transaction], [mining], [start_mining], [resolve_conflicts] and
    the clearing of the pool (so also through [run]), whatever the sockets,
    the neighbours and the libraries answer, has a chain that passes
    [valid_chain] and is not empty, and a mining semaphore of at most 1. *)
Theorem reachable_chain_valid (W : world) (self : BlockChain) :
  reachable W self ->
  valid_chain (chain self) = Ok true /\
  chain self <> [] /\
  (mining_semaphore self <= 1)%nat.
Proof.
  intros H. induction H as [now a p | self self' _ IH Hstep].
  - unfold init. rewrite create_block_state. cbn [chain set_chain set_transaction_pool
      mining_semaphore app].
    split; [rewrite valid_chain_walk; reflexivity|]. split; [discriminate | lia].
  - destruct IH as (Hv & Hne & Hs).
    destruct (step_chain_facts W self self' Hstep) as (Hlen & Hvalid).
    pose proof (step_semaphore W self self' Hstep) as Hsem.
    split; [exact (Hvalid Hv)|]. split; [|lia].
    intros E. rewrite E in Hlen. destruct (chain self); [congruence | simpl in Hlen; lia].
Qed.

Lemma reachable_chain_valid_witness :
  neighbours synced_ledger = peers /\
  chain adopted_ledger = peer5002_chain /\
  fst (mining (peers_world peer5002_chain) 3 1700000100.5 funded_ledger) = Ok true /\
  length (chain (snd (mining (peers_world peer5002_chain) 3 1700000100.5
                        funded_ledger))) = 6%nat /\
  reachable (peers_world peer5002_chain)
    (snd (mining (peers_world peer5002_chain) 3 1700000100.5 funded_ledger)) /\
  valid_chain (chain (snd (mining (peers_world peer5002_chain) 3 1700000100.5
                             funded_ledger))) = Ok true.
Proof.
  pose (W := peers_world peer5002_chain).
  assert (H0 : reachable W started_ledger)
    by exact (reachable_init W 1700000000.5 (PyStr "local") (PyInt 5000)).
  assert (H1 : reachable W synced_ledger).
  { apply (reachable_step W started_ledger); [exact H0|].
    apply (step_sync_neighbours W sample_network). vm_compute. reflexivity. }
  assert (H2 : reachable W adopted_ledger).
  { assert (E : snd (resolve_conflicts W synced_ledger) = adopted_ledger)
      by (vm_compute; reflexivity).
    rewrite <- E. apply (reachable_step W synced_ledger); [exact H1|].
    apply step_resolve_conflicts. }
  assert (H3 : reachable W funded_ledger).
  { assert (E : snd (add_transaction W MINING_SENDER (PyStr "A") (PyInt 3123)
                       PyNone PyNone adopted_ledger) = funded_ledger)
      by (vm_compute; reflexivity).
    rewrite <- E. apply (reachable_step W adopted_ledger); [exact H2|].
    apply step_add_transaction. }
  assert (H4 : reachable W (snd (mining W 3 1700000100.5 funded_ledger))).
  { apply (reachable_step W funded_ledger); [exact H3 | apply step_mining]. }
  split; [reflexivity|]. split; [reflexivity|].
  split; [vm_compute; reflexivity|]. split; [vm_compute; reflexivity|].
  split; [exact H4|].
  exact (proj1 (reachable_chain_valid W _ H4)).
Defined.

(** X5. No call makes the chain shorter: after any method (or the clearing
    of the pool) the chain is at least as long as before, and
    [resolve_conflicts] changes it only for a strictly longer one. *)
Theorem chain_never_shrinks (W : world) (self self' : BlockChain) :
  step W self self' ->
  (length (chain self) <= length (chain self'))%nat /\
  (chain (snd (resolve_conflicts W self)) = chain self \/
   (length (chain self) < length (chain (snd (resolve_conflicts W self))))%nat).
Proof.
  intros Hstep. split; [exact (proj1 (step_chain_facts W self self' Hstep))|].
  unfold resolve_conflicts.
  destruct (resolve_conflicts_for W (neighbours self) None (length (chain self)))
    as [[[|b c]|]| |] eqn:Hr; cbn [snd chain set_chain]; auto.
  destruct (resolve_conflicts_for_sound W _ _ _ _ Hr) as [E | [_ Hl]];
    [discriminate E | right; exact Hl].
Qed.

Lemma chain_never_shrinks_witness :
  step (peers_world peer5002_chain) local_ledger
    (snd (resolve_conflicts (peers_world peer5002_chain) local_ledger)) /\
  (length (chain local_ledger) <=
   length (chain (snd (resolve_conflicts (peers_world peer5002_chain) local_ledger))))%nat.
Proof.
  assert (H : step (peers_world peer5002_chain) local_ledger
                (snd (resolve_conflicts (peers_world peer5002_chain) local_ledger)))
    by apply step_resolve_conflicts.
  split; [exact H|].
  exact (proj1 (chain_never_shrinks _ _ _ H)).
Defined.

(* ===================================================================== *)
(** ** [start_mining], [resolve_conflicts] and [create_transaction] again *)
(* ===================================================================== *)

(** X6. [start_mining] gives the semaphore back whenever it returns or
    raises: the release runs on leaving the [with] block either way. It
    starts the timer of the next run exactly when it held the semaphore and
    [mining] returned; when [mining] raises (a neighbour could not be told),
    the exception reaches the caller and no timer is started. *)
Theorem start_mining_releases (W : world) (fuel : nat) (now : float)
  (self : BlockChain) :
  (fst (start_mining W fuel now self) <> Unfinished ->
   mining_semaphore (snd (start_mining W fuel now self)) = mining_semaphore self)
  /\
  (forall e, fst (start_mining W fuel now self) = Raise e ->
     fst (mining W fuel now (set_mining_semaphore (mining_semaphore self - 1) self))
       = Raise e /\
     timers (snd (start_mining W fuel now self)) = timers self)
  /\
  (fst (start_mining W fuel now self) = Ok tt ->
   mining_semaphore self <> 0%nat ->
   timers (snd (start_mining W fuel now self)) =
   timers self ++ [(MINING_TIMER_SEC, Task_start_mining)])
  /\
  (fst (start_mining W fuel now self) = Unfinished ->
   S (mining_semaphore (snd (start_mining W fuel now self))) = mining_semaphore self).
Proof.
  unfold start_mining, acquire_mining_semaphore.
  destruct (mining_semaphore self) as [|n] eqn:Hn.
  - cbn [fst snd]. repeat split; try (intros; discriminate); try congruence.
  - unfold start_mining_holding.
    replace (S n - 1)%nat with n by lia.
    pose proof (mining_keeps_semaphore W fuel now (set_mining_semaphore n self)) as Hk.
    pose proof (mining_keeps_timers W fuel now (set_mining_semaphore n self)) as Ht.
    destruct (mining W fuel now (set_mining_semaphore n self)) as [[b|e|] s];
      cbn [fst snd mining_semaphore timers release_mining_semaphore add_timer
           set_mining_semaphore] in *.
    + repeat split; try (intros; discriminate); try congruence.
    + repeat split; try (intros; discriminate); try congruence.
    + repeat split; try (intros; discriminate); try congruence.
Qed.

Section ResolveAgain.

Variable W : world.

(** The chain [pick] returns is the first of the longest valid ones. *)
Lemma pick_first_longest (chains : list (list pyval)) :
  forall (lc : option (list pyval)) (ml : nat) (c : list pyval),
    pick chains lc ml = Some c ->
    (lc = Some c /\
     forall c', In c' chains -> valid_chain c' = Ok true -> (length c' <= ml)%nat)
    \/ first_longest chains ml c.
Proof.
  induction chains as [|c0 chains IH]; intros lc ml c H; cbn [pick] in H.
  - left. split; [exact H | intros c' []].
  - destruct ((ml <? length c0)%nat && chain_ok c0) eqn:Hc.
    + apply andb_true_iff in Hc. destruct Hc as [Hl Hv].
      apply Nat.ltb_lt in Hl. apply chain_ok_true in Hv. right.
      destruct (IH _ _ _ H) as [[E Hall] | (before & after & -> & Hlt & Hvc & Hb & Ha)].
      * injection E as <-. exists [], chains. split; [reflexivity|].
        split; [exact Hl|]. split; [exact Hv|]. split; [intros c' []|exact Hall].
      * exists (c0 :: before), after. split; [reflexivity|].
        split; [lia|]. split; [exact Hvc|]. split; [|exact Ha].
        intros c' [<- | Hin] Hv'; [exact Hlt | exact (Hb c' Hin Hv')].
    + assert (Hskip : valid_chain c0 = Ok true -> (length c0 <= ml)%nat).
      { intros Hv. apply andb_false_iff in Hc. destruct Hc as [Hc | Hc].
        - apply Nat.ltb_ge in Hc. exact Hc.
        - apply chain_ok_true in Hv. congruence. }
      destruct (IH _ _ _ H) as [[E Hall] | (before & after & -> & Hlt & Hvc & Hb & Ha)].
      * left. split; [exact E|].
        intros c' [<- | Hin] Hv'; [exact (Hskip Hv') | exact (Hall c' Hin Hv')].
      * right. exists (c0 :: before), after. split; [reflexivity|].
        split; [exact Hlt|]. split; [exact Hvc|]. split; [|exact Ha].
        intros c' [<- | Hin] Hv'; [specialize (Hskip Hv'); lia | exact (Hb c' Hin Hv')].
Qed.

(** A run of the loop that returns has seen every chain longer than its
    running maximum fail or raise the maximum; run again from a length at least
    the one it ended with, it reads no chain and keeps the choice it is
    given. *)
Lemma resolve_conflicts_for_again (nodes : list string) :
  forall (lc r : option (list pyval)) (ml : nat),
    (forall c0, lc = Some c0 -> length c0 = ml) ->
    resolve_conflicts_for W nodes lc ml = Ok r ->
    (forall c0, lc = Some c0 -> exists c, r = Some c) /\
    (forall c, r = Some c -> (ml <= length c)%nat) /\
    (forall (lc' : option (list pyval)) (ml' : nat),
        (forall c, r = Some c -> (length c <= ml')%nat) ->
        (r = None -> (ml <= ml')%nat) ->
        resolve_conflicts_for W nodes lc' ml' = Ok lc').
Proof.
  induction nodes as [|node nodes IH]; intros lc r ml Hinv H;
    cbn [resolve_conflicts_for] in H.
  - injection H as <-. split; [intros c0 E; exists c0; exact E|].
    split; [intros c E; rewrite (Hinv c E); lia|].
    intros lc' ml' _ _. reflexivity.
  - destruct (requests_get W (url node "/chain")) as [resp|e|] eqn:Hget;
      cbn [obind] in H; try discriminate H.
    assert (Hbound : forall ml', (forall c, r = Some c -> (length c <= ml')%nat) ->
                       (r = None -> (ml <= ml')%nat) ->
                       (forall c, r = Some c -> (ml <= length c)%nat) ->
                       (ml <= ml')%nat).
    { intros ml' H1 H2 H3. destruct r as [c|]; [|apply H2; reflexivity].
      specialize (H1 c eq_refl). specialize (H3 c eq_refl). lia. }
    destruct (status_code resp =? 200) eqn:Hs.
    + destruct (ml <? length (response_chain resp))%nat eqn:Hl.
      * apply Nat.ltb_lt in Hl.
        destruct (valid_chain (response_chain resp)) as [[|]|e|] eqn:Hv;
          cbn [obind] in H; try discriminate H.
        -- assert (Hinv' : forall c0, Some (response_chain resp) = Some c0 ->
                             length c0 = length (response_chain resp)).
           { intros c0 E. injection E as <-. reflexivity. }
           destruct (IH _ _ _ Hinv' H) as (Hsome & Hge & Hagain).
           destruct (Hsome _ eq_refl) as [c Hc].
           split; [intros c0 _; exists c; exact Hc|].
           split; [intros c' E; specialize (Hge c' E); lia|].
           intros lc' ml' H1 H2. cbn [resolve_conflicts_for].
           rewrite Hget. cbn [obind]. rewrite Hs.
           assert (Hlen : (length (response_chain resp) <= ml')%nat).
           { specialize (Hge c Hc). specialize (H1 c Hc). lia. }
           apply Nat.ltb_ge in Hlen. rewrite Hlen.
           apply Hagain; [exact H1|]. intros E. rewrite E in Hc. discriminate Hc.
        -- destruct (IH _ _ _ Hinv H) as (Hsome & Hge & Hagain).
           split; [exact Hsome|]. split; [exact Hge|].
           intros lc' ml' H1 H2. cbn [resolve_conflicts_for].
           rewrite Hget. cbn [obind]. rewrite Hs.
           destruct (ml' <? length (response_chain resp))%nat;
             [rewrite Hv; cbn [obind]|]; apply Hagain; assumption.
      * apply Nat.ltb_ge in Hl.
        destruct (IH _ _ _ Hinv H) as (Hsome & Hge & Hagain).
        split; [exact Hsome|]. split; [exact Hge|].
        intros lc' ml' H1 H2. cbn [resolve_conflicts_for].
        rewrite Hget. cbn [obind]. rewrite Hs.
        pose proof (Hbound ml' H1 H2 Hge) as Hb.
        assert (Hlen : (length (response_chain resp) <= ml')%nat) by lia.
        apply Nat.ltb_ge in Hlen. rewrite Hlen. apply Hagain; assumption.
    + destruct (IH _ _ _ Hinv H) as (Hsome & Hge & Hagain).
      split; [exact Hsome|]. split; [exact Hge|].
      intros lc' ml' H1 H2. cbn [resolve_conflicts_for].
      rewrite Hget. cbn [obind]. rewrite Hs. apply Hagain; assumption.
Qed.

(** The loop that got through the nodes before one whose request raises ends
    with that exception. *)
Lemma resolve_conflicts_for_stops (before : list string) :
  forall (node : string) (after : list string) (e : exn)
         (lc r : option (list pyval)) (ml : nat),
    resolve_conflicts_for W before lc ml = Ok r ->
    requests_get W (url node "/chain") = Raise e ->
    resolve_conflicts_for W (before ++ node :: after) lc ml = Raise e.
Proof.
  induction before as [|n before IH]; intros node after e lc r ml H He.
  - cbn [app resolve_conflicts_for]. rewrite He. reflexivity.
  - cbn [app resolve_conflicts_for] in *.
    destruct (requests_get W (url n "/chain")) as [resp|e'|]; cbn [obind] in *;
      try discriminate H.
    destruct (status_code resp =? 200); [|exact (IH _ _ _ _ _ _ H He)].
    destruct (ml <? length (response_chain resp))%nat; [|exact (IH _ _ _ _ _ _ H He)].
    destruct (valid_chain (response_chain resp)) as [[|]|e'|]; cbn [obind] in *;
      try discriminate H; exact (IH _ _ _ _ _ _ H He).
Qed.

End ResolveAgain.

(** X7. Among the valid fetched chains that are longer than the local one,
    [resolve_conflicts] adopts the first of the longest, in the order of the
    neighbours: every valid chain fetched before it is strictly shorter, and
    none fetched after it is longer. *)
Theorem resolve_conflicts_first_of_longest
  (W : world) (self : BlockChain) (answers : list response) :
  map (fun node => requests_get W (url node "/chain")) (neighbours self)
    = map Ok answers ->
  (forall c, In c (fetched_chains answers) -> Forall is_block (tl c)) ->
  fst (resolve_conflicts W self) = Ok true ->
  exists c,
    resolve_conflicts W self = (Ok true, set_chain c self) /\
    first_longest (fetched_chains answers) (length (chain self)) c.
Proof.
  intros Hget Hwf.
  pose proof (resolve_conflicts_for_pick W (neighbours self) answers None
                (length (chain self)) Hget Hwf) as Hfor.
  unfold resolve_conflicts. rewrite Hfor.
  destruct (pick (fetched_chains answers) None (length (chain self))) as [c|] eqn:Hp;
    [|discriminate].
  destruct (pick_first_longest _ _ _ _ Hp) as [[E _] | Hfl]; [discriminate E|].
  destruct c as [|b c]; [discriminate|]. intros _.
  exists (b :: c). split; [reflexivity | exact Hfl].
Qed.

Lemma resolve_conflicts_first_of_longest_witness :
  fst (resolve_conflicts (peers_world peer5002_chain) local_ledger) = Ok true /\
  first_longest [peer5001_chain; peer5002_chain] 3 peer5002_chain.
Proof.
  pose (answers := [Response 200 peer5001_chain; Response 200 peer5002_chain]).
  assert (Hget : map (fun node =>
                        requests_get (peers_world peer5002_chain) (url node "/chain"))
                     (neighbours local_ledger) = map Ok answers)
    by reflexivity.
  assert (Hwf : forall c, In c (fetched_chains answers) -> Forall is_block (tl c)).
  { intros c [<- | [<- | []]]; simpl; repeat constructor; block_has_keys. }
  assert (Hr : fst (resolve_conflicts (peers_world peer5002_chain) local_ledger)
               = Ok true) by (vm_compute; reflexivity).
  split; [exact Hr|].
  destruct (resolve_conflicts_first_of_longest
              (peers_world peer5002_chain) local_ledger answers Hget Hwf Hr)
    as (c & Hres & Hfl).
  assert (Hc : c = peer5002_chain).
  { assert (Hrun : resolve_conflicts (peers_world peer5002_chain) local_ledger =
                   (Ok true, set_chain peer5002_chain local_ledger))
      by (vm_compute; reflexivity).
    rewrite Hrun in Hres. injection Hres as Hres.
    symmetry. exact Hres. }
  subst c. exact Hfl.
Defined.

(** X8. Resolving twice in the same world is resolving once. When a run of
    [resolve_conflicts] returns, true or false, a second run over the same
    answers of the neighbours returns false and changes nothing, whatever the
    chains they serve: every chain longer than the one just kept or adopted
    has been read by the first run and failed [valid_chain], and no other is
    read. *)
Theorem resolve_conflicts_twice (W : world) (self : BlockChain) (b : bool) :
  fst (resolve_conflicts W self) = Ok b ->
  resolve_conflicts W (snd (resolve_conflicts W self)) =
  (Ok false, snd (resolve_conflicts W self)).
Proof.
  unfold resolve_conflicts at 1 3 4.
  destruct (resolve_conflicts_for W (neighbours self) None (length (chain self)))
    as [r|e|] eqn:Hr; cbn [fst]; try discriminate.
  intros _.
  assert (Hinv : forall c0 : list pyval,
             @None (list pyval) = Some c0 -> length c0 = length (chain self))
    by (intros c0 E; discriminate E).
  destruct (resolve_conflicts_for_again W _ _ _ _ Hinv Hr) as (_ & _ & Hagain).
  destruct r as [[|b0 c]|]; cbn [snd].
  - unfold resolve_conflicts. rewrite Hr. reflexivity.
  - unfold resolve_conflicts. cbn [neighbours chain set_chain].
    rewrite (Hagain None (length (b0 :: c))); [reflexivity| |discriminate].
    intros c' E. injection E as <-. lia.
  - unfold resolve_conflicts. rewrite Hr. reflexivity.
Qed.

Lemma resolve_conflicts_twice_witness :
  length (chain (snd (resolve_conflicts (peers_world peer5002_chain) local_ledger)))
  = 5%nat /\
  resolve_conflicts (peers_world peer5002_chain)
    (snd (resolve_conflicts (peers_world peer5002_chain) local_ledger)) =
  (Ok false, snd (resolve_conflicts (peers_world peer5002_chain) local_ledger)).
Proof.
  split; [vm_compute; reflexivity|].
  apply (resolve_conflicts_twice (peers_world peer5002_chain) local_ledger true).
  vm_compute. reflexivity.
Defined.

(** X9. A request that raises ends [resolve_conflicts]. When the loop gets
    through the neighbours before it (resolving against them alone would
    return, true or false), the exception of the first failing request reaches
    the caller and the object is left as it was: a longer valid chain fetched
    before the failure is not adopted, and the neighbours after it are not
    asked. *)
Theorem resolve_conflicts_failed_request
  (W : world) (self : BlockChain) (before after : list string) (node : string)
  (b : bool) (e : exn) :
  neighbours self = before ++ node :: after ->
  fst (resolve_conflicts W (store_neighbours before self)) = Ok b ->
  requests_get W (url node "/chain") = Raise e ->
  resolve_conflicts W self = (Raise e, self).
Proof.
  intros Hn Hb He. unfold resolve_conflicts in *. rewrite Hn.
  cbn [neighbours chain store_neighbours] in Hb.
  destruct (resolve_conflicts_for W before None (length (chain self)))
    as [r|e'|] eqn:Hr; [|discriminate Hb|discriminate Hb].
  rewrite (resolve_conflicts_for_stops W before node after e None r
             (length (chain self)) Hr He).
  reflexivity.
Qed.

Lemma resolve_conflicts_failed_request_witness :
  valid_chain peer5002_chain = Ok true /\
  (length (chain local_ledger) < length peer5002_chain)%nat /\
  resolve_conflicts first_peer_world local_ledger =
  (Raise RequestException, local_ledger).
Proof.
  split; [vm_compute; reflexivity|]. split; [simpl; lia|].
  apply (resolve_conflicts_failed_request first_peer_world local_ledger
           ["127.0.0.1:5001"] [] "127.0.0.1:5002" true RequestException).
  - reflexivity.
  - vm_compute. reflexivity.
  - reflexivity.
Defined.

(** X10. [create_transaction] leaves the object exactly as [add_transaction]
    does, also when telling a neighbour fails: the transaction then stays in
    the local pool although the call raises. It returns what
    [add_transaction] returns unless a [put] raises after an admission, and
    it is [add_transaction] when there is no neighbour or the transaction is
    not admitted. *)
Theorem create_transaction_keeps_admission (W : world) (sender : string)
  (recipient value pk sig : pyval) (self : BlockChain) :
  snd (create_transaction W sender recipient value pk sig self) =
  snd (add_transaction W sender recipient value pk sig self)
  /\
  (fst (create_transaction W sender recipient value pk sig self) =
   fst (add_transaction W sender recipient value pk sig self)
   \/
   (exists e,
      fst (create_transaction W sender recipient value pk sig self) = Raise e /\
      fst (add_transaction W sender recipient value pk sig self) = Ok true))
  /\
  (neighbours self = [] \/
   fst (add_transaction W sender recipient value pk sig self) <> Ok true ->
   create_transaction W sender recipient value pk sig self =
   add_transaction W sender recipient value pk sig self).
Proof.
  unfold create_transaction.
  destruct (add_transaction_cases W sender recipient value pk sig self)
    as [(v & _ & Ha) | [Hs Hf]].
  - rewrite Ha. cbn [fst snd neighbours set_transaction_pool].
    destruct (for_each_finishes
                (fun node => requests_put W (url node "/transactions")
                   (Some (PyDict
                      [("sender_blockchain_address", PyStr sender);
                       ("recipient_blockchain_address", recipient);
                       ("value", value); ("sender_public_key", pk);
                       ("signature", sig)])))
                (neighbours self)) as [Hf | [e Hf]]; rewrite Hf.
    + split; [reflexivity|]. split; [left; reflexivity | intros _; reflexivity].
    + split; [reflexivity|]. split; [right; exists e; split; reflexivity|].
      intros [E | E]; [rewrite E in Hf; discriminate Hf | congruence].
  - destruct (add_transaction W sender recipient value pk sig self)
      as [[[|]|e|] s]; cbn [fst snd] in *; try congruence;
      (split; [reflexivity|]; split; [left; reflexivity | intros _; reflexivity]).
Qed.

(* ===================================================================== *)
(** ** [utils.sorted_dict_by_key] and [utils.find_neighbours] *)
(* ===================================================================== *)

Lemma assoc_insert_item (x : string * pyval) (l : list (string * pyval)) (k : string) :
  ~ In (fst x) (map fst l) ->
  assoc k (insert_item x l) = if String.eqb k (fst x) then Some (snd x) else assoc k l.
Proof.
  destruct x as [kx vx]. cbn [fst snd].
  induction l as [|[ky vy] l IH]; intros Hnin; cbn [insert_item assoc fst snd].
  - reflexivity.
  - destruct (String.leb kx ky); cbn [assoc].
    + reflexivity.
    + rewrite IH by (intros Hin; apply Hnin; right; exact Hin).
      destruct (String.eqb k ky) eqn:Eky; [|reflexivity].
      destruct (String.eqb k kx) eqn:Ekx; [|reflexivity].
      apply String.eqb_eq in Eky, Ekx. subst. exfalso. apply Hnin. left. reflexivity.
Qed.

Lemma assoc_sort_items (l : list (string * pyval)) (k : string) :
  NoDup (map fst l) -> assoc k (sort_items l) = assoc k l.
Proof.
  induction l as [|[kx vx] l IH]; intros Hnd; [reflexivity|].
  inversion Hnd as [|? ? Hnin Hnd']; subst. cbn [sort_items].
  rewrite assoc_insert_item.
  - cbn [fst snd assoc]. rewrite IH by exact Hnd'. reflexivity.
  - cbn [fst]. intros Hin. apply Hnin.
    apply (Permutation_in (l := map fst (sort_items l))); [|exact Hin].
    apply Permutation_map. apply sort_items_perm.
Qed.

(** X11. [sorted_dict_by_key] keeps the items of a dictionary and puts them
    in ascending key order: every key gives the value it gave before (and a
    missing key is still missing), the items are a permutation of the
    original ones, and sorting again changes nothing. *)
Theorem sorted_dict_by_key_keeps_items (d : list (string * pyval)) :
  NoDup (map fst d) ->
  (forall k, py_getitem (sorted_dict_by_key d) k = py_getitem (PyDict d) k)
  /\
  (exists items, sorted_dict_by_key d = PyDict items /\
                 Permutation items d /\ Sorted key_le items /\
                 NoDup (map fst items))
  /\
  (forall items, sorted_dict_by_key d = PyDict items ->
                 sorted_dict_by_key items = PyDict items).
Proof.
  intros Hnd. unfold sorted_dict_by_key. split; [|split].
  - intros k. cbn [py_getitem]. rewrite assoc_sort_items by exact Hnd. reflexivity.
  - exists (sort_items d). split; [reflexivity|].
    split; [apply sort_items_perm|]. split; [apply sort_items_sorted|].
    apply (Permutation_NoDup (l := map fst d)); [|exact Hnd].
    apply Permutation_map. symmetry. apply sort_items_perm.
  - intros items H. injection H as <-.
    rewrite (sort_items_of_sorted (sort_items d)) by apply sort_items_sorted.
    reflexivity.
Qed.

Lemma sorted_dict_by_key_keeps_items_witness :
  NoDup (map fst [ ("timestamp", PyFloat 1700000000.5); ("transactions", PyList []);
                   ("nonce", PyInt 0); ("previous_hash", PyStr "00") ]) /\
  py_getitem (block_of 1700000000.5 [] 0 "00") "nonce" = Ok (PyInt 0) /\
  py_getitem (block_of 1700000000.5 [] 0 "00") "reward" = Raise KeyError.
Proof.
  assert (H : NoDup (map fst [ ("timestamp", PyFloat 1700000000.5);
                               ("transactions", PyList []);
                               ("nonce", PyInt 0); ("previous_hash", PyStr "00") ])).
  { repeat constructor; simpl; intuition discriminate. }
  split; [exact H|].
  destruct (sorted_dict_by_key_keeps_items _ H) as (Hget & _).
  unfold block_of. rewrite !Hget. split; reflexivity.
Defined.

Section FindNeighbours.

Variable is_found_host : string -> Z -> bool.

Lemma in_py_range (a b i : Z) : In i (py_range a b) <-> a <= i < b.
Proof.
  unfold py_range. rewrite in_map_iff. split.
  - intros (n & <- & Hn). apply in_seq in Hn. lia.
  - intros H. exists (Z.to_nat (i - a)). split; [lia|]. apply in_seq. lia.
Qed.

Lemma length_py_range (a b : Z) : length (py_range a b) = Z.to_nat (b - a).
Proof. unfold py_range. rewrite length_map, length_seq. reflexivity. Qed.

Lemma length_flat_map_le {A B : Type} (f : A -> list B) (l : list A) (n : nat) :
  (forall x, length (f x) <= n)%nat ->
  (length (flat_map f l) <= length l * n)%nat.
Proof.
  intros H. induction l as [|x l IH]; simpl; [lia|].
  rewrite length_app. specialize (H x). lia.
Qed.

End FindNeighbours.

(** X12. The list [find_neighbours] returns never holds the node's own
    address [my_host:my_port]. Every address in it is [host:port] for a port
    of the port range and a host made of the prefix of [my_host] and its last
    number plus an offset of the IP range, for which the probe answered true.
    It holds at most one address per port and offset. A list is returned
    only for a [my_host] that the pattern matches. *)
Theorem find_neighbours_sound (is_found_host : string -> Z -> bool)
  (my_host : string) (my_port start_ip_range end_ip_range start_port end_port : Z)
  (found : list string) :
  find_neighbours is_found_host my_host my_port start_ip_range end_ip_range
    start_port end_port = Some found ->
  (exists prefix_host last_ip,
     RE_IP_search my_host = Some (prefix_host, last_ip) /\
     forall address, In address found ->
       address <> (my_host ++ ":" ++ int_repr my_port)%string /\
       exists guess_port ip_range,
         start_port <= guess_port < end_port /\
         start_ip_range <= ip_range < end_ip_range /\
         address =
           ((prefix_host ++ int_repr (int_of_digits last_ip + ip_range))
              ++ ":" ++ int_repr guess_port)%string /\
         is_found_host
           (prefix_host ++ int_repr (int_of_digits last_ip + ip_range))%string
           guess_port = true)
  /\
  (length found <=
   Z.to_nat (end_port - start_port) * Z.to_nat (end_ip_range - start_ip_range))%nat.
Proof.
  unfold find_neighbours.
  destruct (RE_IP_search my_host) as [[prefix_host last_ip]|]; [|discriminate].
  intros H. injection H as <-. split.
  - exists prefix_host, last_ip. split; [reflexivity|].
    intros address Hin. apply in_flat_map in Hin.
    destruct Hin as (guess_port & Hport & Hin). apply in_flat_map in Hin.
    destruct Hin as (ip_range & Hip & Hin).
    apply in_py_range in Hport. apply in_py_range in Hip.
    match type of Hin with In _ (if ?c then _ else _) => destruct c eqn:Hc end;
      [|destruct Hin].
    destruct Hin as [<- | []].
    apply andb_true_iff in Hc. destruct Hc as [Hfound Hne].
    apply negb_true_iff in Hne. apply String.eqb_neq in Hne.
    split; [exact Hne|].
    exists guess_port, ip_range. repeat split; try lia; try reflexivity. exact Hfound.
  - rewrite <- (length_py_range start_port end_port).
    apply length_flat_map_le. intros guess_port.
    rewrite <- (Nat.mul_1_r (Z.to_nat (end_ip_range - start_ip_range))).
    rewrite <- (length_py_range start_ip_range end_ip_range).
    apply length_flat_map_le. intros ip_range.
    match goal with |- context [if ?c then _ else _] => destruct c end; simpl; lia.
Qed.

Lemma find_neighbours_sound_witness :
  find_neighbours (fun _ _ => true) "127.0.0.1" 5000 0 1 5000 5003 =
  Some ["127.0.0.1:5001"; "127.0.0.1:5002"]%string /\
  (length ["127.0.0.1:5001"; "127.0.0.1:5002"]%string <=
   Z.to_nat (5003 - 5000) * Z.to_nat (1 - 0))%nat.
Proof.
  assert (H : find_neighbours (fun _ _ => true) "127.0.0.1" 5000 0 1 5000 5003 =
              Some ["127.0.0.1:5001"; "127.0.0.1:5002"]%string)
    by (vm_compute; reflexivity).
  split; [exact H|].
  exact (proj2 (find_neighbours_sound _ _ _ _ _ _ _ _ H)).
Defined.

(* ===================================================================== *)
(** ** Hexadecimal text, and the wallet's signature at the ledger *)
(* ===================================================================== *)

Lemma hex_pair_roundtrip (b : Z) :
  is_byte b ->
  fromhex (hex_of 2 b) = Ok [b] /\
  forall rest, fromhex (hex_of 2 b ++ rest) =
               obind (fromhex rest) (fun bs => Ok (b :: bs)).
Proof.
  intros Hb.
  assert (Hall : forallb
            (fun n : nat =>
               let x := Z.of_nat n in
               match hex_of 2 x with
               | [h; l] =>
                   negb (is_space h) &&
                   match hex_value h, hex_value l with
                   | Some vh, Some vl => (16 * vh + vl =? x)
                   | _, _ => false
                   end
               | _ => false
               end) (seq 0 256) = true) by (vm_compute; reflexivity).
  rewrite forallb_forall in Hall.
  specialize (Hall (Z.to_nat b)).
  assert (Hin : In (Z.to_nat b) (seq 0 256)) by (apply in_seq; unfold is_byte in Hb; lia).
  specialize (Hall Hin). cbv zeta in Hall.
  rewrite Z2Nat.id in Hall by (unfold is_byte in Hb; lia).
  destruct (hex_of 2 b) as [|h [|l [|x t]]]; try discriminate Hall.
  apply andb_true_iff in Hall. destruct Hall as [Hsp Hv].
  apply negb_true_iff in Hsp.
  destruct (hex_value h) as [vh|] eqn:Eh; [|discriminate Hv].
  destruct (hex_value l) as [vl|] eqn:El; [|discriminate Hv].
  apply Z.eqb_eq in Hv.
  split.
  - cbn [fromhex]. rewrite Hsp, Eh, El. cbn [fromhex obind]. rewrite Hv. reflexivity.
  - intros rest. cbn [app fromhex]. rewrite Hsp, Eh, El.
    destruct (fromhex rest); cbn [obind]; rewrite ?Hv; reflexivity.
Qed.

Lemma fromhex_bytes_hex (bs : list Z) :
  Forall is_byte bs -> fromhex (flat_map (hex_of 2) bs) = Ok bs.
Proof.
  induction bs as [|b bs IH]; intros H; [reflexivity|].
  inversion H as [|? ? Hb Hbs]; subst. cbn [flat_map].
  rewrite (proj2 (hex_pair_roundtrip b Hb)), (IH Hbs). reflexivity.
Qed.

Lemma bytes_hex_fromhex_roundtrip_aux (bs : list Z) :
  Forall is_byte bs ->
  bytes_fromhex (PyStr (bytes_hex bs)) = Ok bs /\
  String.length (bytes_hex bs) = (2 * length bs)%nat /\
  forallb is_lower_hex (list_ascii_of_string (bytes_hex bs)) = true.
Proof.
  intros H. unfold bytes_fromhex, bytes_hex.
  rewrite list_ascii_of_string_of_list_ascii, string_length_of_list.
  split; [exact (fromhex_bytes_hex bs H)|].
  clear H. induction bs as [|b bs [IH1 IH2]]; [split; reflexivity|].
  cbn [flat_map]. destruct (hex_of_shape 2 b) as [H1 H2].
  rewrite length_app, forallb_app, H1, H2, IH1, IH2. simpl length.
  split; [lia | reflexivity].
Qed.

(** X13. What [hex()] writes, [bytes.fromhex] reads back: for every sequence
    of bytes, the hexadecimal text of the wallet (two lowercase digits per
    byte) decodes at the ledger to the same bytes. *)
Theorem bytes_hex_fromhex_roundtrip (bs : list Z) :
  Forall is_byte bs ->
  bytes_fromhex (PyStr (bytes_hex bs)) = Ok bs /\
  String.length (bytes_hex bs) = (2 * length bs)%nat /\
  forallb is_lower_hex (list_ascii_of_string (bytes_hex bs)) = true.
Proof. exact (bytes_hex_fromhex_roundtrip_aux bs). Qed.

Lemma bytes_hex_fromhex_roundtrip_witness :
  Forall is_byte [0; 10; 255; 16] /\
  bytes_hex [0; 10; 255; 16] = "000aff10"%string /\
  bytes_fromhex (PyStr "000aff10") = Ok [0; 10; 255; 16].
Proof.
  assert (H : Forall is_byte [0; 10; 255; 16])
    by (repeat constructor; unfold is_byte; lia).
  split; [exact H|]. split; [reflexivity|].
  exact (proj1 (bytes_hex_fromhex_roundtrip _ H)).
Defined.

(** X14. The wallet and the ledger agree on what is signed. When
    [generate_signature] returns a signature for a sender, a recipient and a
    value, and the ECDSA library keeps its contract for the key pair (the
    public key bytes are taken as a key, and what the private key signs is a
    byte string that the public key verifies), then
    [verify_transaction_signature] returns true for that signature, the
    hexadecimal public key and the transaction [add_transaction] builds from
    the same three fields: both hash the same text, and the signature
    survives its hexadecimal form. *)
Theorem wallet_signature_verifies (W : world) (S : signer)
  (sender_private_key : pyval) (sender : string) (recipient value : pyval)
  (v : float) (public_key_bytes : list Z) (signature : string) :
  py_float W value = Ok v ->
  generate_signature W S sender_private_key sender recipient value = Ok signature ->
  Forall is_byte public_key_bytes ->
  VerifyingKey_from_string W public_key_bytes = None ->
  (forall key_bytes message sig,
      bytes_fromhex sender_private_key = Ok key_bytes ->
      SigningKey_sign S key_bytes message = Ok sig ->
      Forall is_byte sig /\
      VerifyingKey_verify W public_key_bytes sig message = Ok true) ->
  verify_transaction_signature W (PyStr (bytes_hex public_key_bytes))
    (PyStr signature) (transaction_of sender recipient v) = Ok true.
Proof.
  intros Hv Hgen Hpub Hkey Hcontract.
  unfold generate_signature in Hgen. rewrite Hv in Hgen. cbn [obind] in Hgen.
  destruct (bytes_fromhex sender_private_key) as [key_bytes|e|] eqn:Hpriv;
    cbn [obind] in Hgen; try discriminate Hgen.
  destruct (SigningKey_from_string S key_bytes); [discriminate Hgen|].
  match type of Hgen with
  | obind (SigningKey_sign S key_bytes ?m) _ = _ =>
      destruct (SigningKey_sign S key_bytes m) as [sig|e|] eqn:Hsign
  end; cbn [obind] in Hgen; try discriminate Hgen.
  injection Hgen as <-.
  destruct (Hcontract _ _ _ eq_refl Hsign) as [Hbytes Hverify].
  unfold verify_transaction_signature.
  rewrite (proj1 (bytes_hex_fromhex_roundtrip_aux sig Hbytes)). cbn [obind].
  rewrite (proj1 (bytes_hex_fromhex_roundtrip_aux public_key_bytes Hpub)).
  cbn [obind]. rewrite Hkey. exact Hverify.
Qed.

Lemma repeat_is_byte (b : Z) (n : nat) : is_byte b -> Forall is_byte (repeat b n).
Proof. intros H. induction n; simpl; constructor; auto. Qed.

Lemma wallet_signature_verifies_witness :
  generate_signature lone_world sample_signer sample_private_key "B" (PyStr "A")
    (PyFloat 2) = Ok (bytes_hex (repeat 34 64)) /\
  verify_transaction_signature lone_world (PyStr (bytes_hex (repeat 17 64)))
    (PyStr (bytes_hex (repeat 34 64))) (transaction_of "B" (PyStr "A") 2) = Ok true.
Proof.
  assert (Hgen : generate_signature lone_world sample_signer sample_private_key "B"
                   (PyStr "A") (PyFloat 2) = Ok (bytes_hex (repeat 34 64)))
    by (vm_compute; reflexivity).
  split; [exact Hgen|].
  apply (wallet_signature_verifies lone_world sample_signer sample_private_key "B"
           (PyStr "A") (PyFloat 2) 2 (repeat 17 64) _ eq_refl Hgen).
  - apply repeat_is_byte. unfold is_byte. lia.
  - reflexivity.
  - intros key_bytes message sig _ Hsig.
    assert (E : sig = repeat 34 64) by (injection Hsig as <-; reflexivity).
    rewrite E. split; [|reflexivity].
    apply repeat_is_byte. unfold is_byte. lia.
Defined.

(* ===================================================================== *)
(** ** Values and balances *)
(* ===================================================================== *)

(** X15. A value that [float] refuses stops [add_transaction] before any
    check: the exception of [float] reaches the caller and nothing is
    appended, for the system sender as for any other, whatever the signature.
    The same holds for [create_transaction], which tells no neighbour. *)
Theorem add_transaction_value_refused (W : world) (value : pyval) (e : exn) :
  py_float W value = Raise e ->
  forall sender recipient pk sig self,
    add_transaction W sender recipient value pk sig self = (Raise e, self) /\
    create_transaction W sender recipient value pk sig self = (Raise e, self).
Proof.
  intros H sender recipient pk sig self.
  assert (Ha : add_transaction W sender recipient value pk sig self = (Raise e, self)).
  { unfold add_transaction. rewrite H. reflexivity. }
  split; [exact Ha|]. unfold create_transaction. rewrite Ha. reflexivity.
Qed.

Lemma add_transaction_value_refused_witness :
  py_float lone_world PyNone = Raise TypeError /\
  add_transaction lone_world MINING_SENDER (PyStr "A") PyNone PyNone PyNone
    fresh_ledger = (Raise TypeError, fresh_ledger).
Proof.
  assert (H : py_float lone_world PyNone = Raise TypeError) by reflexivity.
  split; [exact H|].
  exact (proj1 (add_transaction_value_refused lone_world PyNone TypeError H
                  MINING_SENDER (PyStr "A") PyNone PyNone fresh_ledger)).
Defined.

Section Amounts.

Variable W : world.

Lemma total_of_blocks_app (address : string) (l1 : list pyval) :
  forall (l2 : list pyval) (total : float),
    total_of_blocks W address (l1 ++ l2) total =
    obind (total_of_blocks W address l1 total)
          (fun t => total_of_blocks W address l2 t).
Proof.
  induction l1 as [|b l1 IH]; intros l2 total; [reflexivity|].
  cbn [app total_of_blocks].
  destruct (py_getitem b "transactions") as [ts| |]; cbn [obind]; try reflexivity.
  destruct (py_iter ts) as [l| |]; cbn [obind]; try reflexivity.
  destruct (total_of_transactions W address l total) as [t| |]; cbn [obind];
    try reflexivity.
  apply IH.
Qed.

Lemma reward_is_entry (self : BlockChain) :
  is_entry W (reward_of self)
    (Entry (PyStr MINING_SENDER) (blockchain_address self) MINING_REWARD).
Proof.
  exists (PyFloat MINING_REWARD). repeat split; reflexivity.
Qed.

Lemma Forall2_snoc {A B : Type} (R : A -> B -> Prop) (l1 : list A) (l2 : list B)
  (a : A) (b : B) :
  Forall2 R l1 l2 -> R a b -> Forall2 R (l1 ++ [a]) (l2 ++ [b]).
Proof.
  intros H Hab. induction H; simpl; constructor; auto.
Qed.

(** The balance after a run of [mining] that appended a block: the pool and
    the reward applied to the balance before. *)
Lemma mining_applies_pool (fuel : nat) (now : float) (self : BlockChain)
  (address : string) (blocks : list (list entry)) (ts : list entry) (b : bool) :
  Forall2 (block_entries W) (chain self) blocks ->
  pool_entries W self ts ->
  fst (mining W fuel now self) = Ok b ->
  calculate_total_amount W address (snd (mining W fuel now self)) =
  Ok (fold_left (fun total t => credit address t total)
        (ts ++ [Entry (PyStr MINING_SENDER) (blockchain_address self) MINING_REWARD])
        (balance_sum address blocks)).
Proof.
  intros Hchain Hpool Hret.
  destruct (mining_returned_block W fuel now self b Hret) as (l & n & _ & ->).
  unfold calculate_total_amount. cbn [chain set_chain set_transaction_pool].
  rewrite total_of_blocks_app.
  rewrite (total_of_blocks_sum W address (chain self) blocks 0%float Hchain).
  cbn [obind total_of_blocks]. rewrite block_of_items.
  cbn [py_getitem assoc String.eqb Ascii.eqb Bool.eqb obind py_iter].
  rewrite (total_of_transactions_sum W address _
             (ts ++ [Entry (PyStr MINING_SENDER) (blockchain_address self)
                       MINING_REWARD])).
  - reflexivity.
  - apply Forall2_snoc; [exact Hpool | apply reward_is_entry].
Qed.

Lemma credit_uninvolved (address : string) (ts : list entry) :
  Forall (fun t => py_eq_str address (entry_sender t) = false /\
                   py_eq_str address (entry_recipient t) = false) ts ->
  forall total, fold_left (fun total t => credit address t total) ts total = total.
Proof.
  induction ts as [|t ts IH]; intros H total; [reflexivity|].
  inversion H as [|? ? [Hs Hr] Hrest]; subst. cbn [fold_left].
  unfold credit at 2. rewrite Hs, Hr. apply IH. exact Hrest.
Qed.

End Amounts.

(** X16. A run of [mining] that returns moves the pool into the balances:
    on a chain of well-formed blocks and a pool of well-formed transactions,
    the balance of any address afterwards is its balance before with the
    pending transactions and then the reward applied, in pool order. For a
    miner (other than the system sender) that no pending transaction names,
    that is the balance before plus the reward of 1.0; for an address that
    neither the pool nor the reward names, the balance is unchanged. *)
Theorem mining_pays_pool_and_reward (W : world) (fuel : nat) (now : float)
  (self : BlockChain) (address : string) (blocks : list (list entry))
  (ts : list entry) (b : bool) :
  Forall2 (block_entries W) (chain self) blocks ->
  pool_entries W self ts ->
  fst (mining W fuel now self) = Ok b ->
  calculate_total_amount W address self = Ok (balance_sum address blocks)
  /\
  calculate_total_amount W address (snd (mining W fuel now self)) =
  Ok (fold_left (fun total t => credit address t total)
        (ts ++ [Entry (PyStr MINING_SENDER) (blockchain_address self) MINING_REWARD])
        (balance_sum address blocks))
  /\
  (Forall (fun t => py_eq_str address (entry_sender t) = false /\
                    py_eq_str address (entry_recipient t) = false) ts ->
   (blockchain_address self = PyStr address -> address <> MINING_SENDER ->
    calculate_total_amount W address (snd (mining W fuel now self)) =
    Ok (balance_sum address blocks + MINING_REWARD)%float)
   /\
   (py_eq_str address (blockchain_address self) = false ->
    address <> MINING_SENDER ->
    calculate_total_amount W address (snd (mining W fuel now self)) =
    Ok (balance_sum address blocks))).
Proof.
  intros Hchain Hpool Hret.
  pose proof (mining_applies_pool W fuel now self address blocks ts b
                Hchain Hpool Hret) as Hafter.
  split; [|split; [exact Hafter|]].
  - unfold calculate_total_amount, balance_sum.
    apply total_of_blocks_sum. exact Hchain.
  - intros Hun. rewrite Hafter, fold_left_app.
    rewrite (credit_uninvolved address ts Hun). cbn [fold_left].
    unfold credit. cbn [entry_sender entry_recipient entry_value].
    split.
    + intros -> Hne. cbn [py_eq_str]. rewrite String.eqb_refl.
      apply String.eqb_neq in Hne. rewrite Hne. reflexivity.
    + intros Hr Hne. rewrite Hr. cbn [py_eq_str].
      apply String.eqb_neq in Hne. rewrite Hne. reflexivity.
Qed.

Lemma mining_pays_pool_and_reward_witness :
  calculate_total_amount lone_world "miner2498" fresh_ledger = Ok 0%float /\
  calculate_total_amount lone_world "miner2498"
    (snd (mining lone_world 3 1700000020.25 pending_ledger)) = Ok 1%float.
Proof.
  split; [vm_compute; reflexivity|].
  assert (Hchain : Forall2 (block_entries lone_world) (chain pending_ledger) [[]]).
  { repeat constructor. eexists. split; [reflexivity | constructor]. }
  assert (Hpool : pool_entries lone_world pending_ledger
                    [Entry (PyStr "A") (PyStr "B") 5; Entry (PyStr "B") (PyStr "A") 2]).
  { unfold pool_entries. repeat constructor; eexists; repeat split; reflexivity. }
  assert (Hret : fst (mining lone_world 3 1700000020.25 pending_ledger) = Ok true)
    by (vm_compute; reflexivity).
  destruct (mining_pays_pool_and_reward lone_world 3 1700000020.25 pending_ledger
              "miner2498" _ _ true Hchain Hpool Hret) as (_ & _ & Hun).
  destruct Hun as [Hminer _].
  { repeat constructor. }
  rewrite (Hminer eq_refl ltac:(discriminate)). vm_compute. reflexivity.
Defined.

(* ===================================================================== *)
(** ** Chains in pieces, chains that cannot be summed, pending transfers *)
(* ===================================================================== *)

Lemma walk_split (r1 : list pyval) :
  forall (g b : pyval) (r2 : list pyval),
    walk g (r1 ++ b :: r2) = Ok true <->
    walk g r1 = Ok true /\
    check_block (last (g :: r1) PyNone) b = Ok true /\
    walk b r2 = Ok true.
Proof.
  induction r1 as [|x r1 IH]; intros g b r2.
  - cbn [app walk last]. split.
    + destruct (check_block g b) as [[|]| |]; cbn [obind]; try discriminate.
      intros H. split; [reflexivity | split; [reflexivity | exact H]].
    + intros (_ & -> & H). exact H.
  - cbn [app walk]. change (last (g :: x :: r1) PyNone) with (last (x :: r1) PyNone).
    destruct (check_block g x) as [[|]| |]; cbn [obind].
    + apply IH.
    + split; [discriminate | intros (H & _); discriminate H].
    + split; [discriminate | intros (H & _); discriminate H].
    + split; [discriminate | intros (H & _); discriminate H].
Qed.

(** X17. [valid_chain] goes block by block: a chain cut in two is valid
    exactly when both pieces are valid and the first block of the second
    piece follows the last block of the first. So every piece of a valid chain
    is valid, and joining valid pieces needs one check at the joint. *)
Theorem valid_chain_in_pieces (l1 l2 : list pyval) (b : pyval) :
  l1 <> [] ->
  (valid_chain (l1 ++ b :: l2) = Ok true <->
   valid_chain l1 = Ok true /\
   block_passes (last l1 PyNone) b /\
   valid_chain (b :: l2) = Ok true).
Proof.
  intros Hne. destruct l1 as [|g r1]; [congruence|].
  cbn [app]. rewrite !valid_chain_walk, walk_split, check_block_true.
  reflexivity.
Qed.

Lemma valid_chain_in_pieces_witness :
  firstn 2 peer5002_chain <> [] /\
  valid_chain (firstn 2 peer5002_chain) = Ok true /\
  valid_chain (skipn 2 peer5002_chain) = Ok true.
Proof.
  assert (Hne : firstn 2 peer5002_chain <> []) by discriminate.
  split; [exact Hne|].
  destruct (proj1 (valid_chain_in_pieces (firstn 2 peer5002_chain)
                     (skipn 3 peer5002_chain) (nth 2 peer5002_chain PyNone) Hne))
    as (H1 & _ & H2).
  - vm_compute. reflexivity.
  - split; [exact H1 | exact H2].
Defined.

Section BadBlocks.

Variable W : world.

Lemma total_of_transactions_raises (address : string) (l1 : list pyval) :
  forall (ts1 : list entry) (tx : pyval) (l2 : list pyval) (e : exn) (total : float),
    Forall2 (is_entry W) l1 ts1 ->
    obind (py_getitem tx "value") (py_float W) = Raise e ->
    total_of_transactions W address (l1 ++ tx :: l2) total = Raise e.
Proof.
  induction l1 as [|x l1 IH]; intros ts1 tx l2 e total H He; inversion H; subst.
  - cbn [app total_of_transactions].
    destruct (py_getitem tx "value") as [val| |]; cbn [obind] in *;
      try discriminate He; [|exact He].
    rewrite He. reflexivity.
  - match goal with Hx : is_entry W x ?t |- _ =>
      destruct Hx as (val & Hval & Hf & Hr & Hs) end.
    cbn [app total_of_transactions].
    rewrite Hval. cbn [obind]. rewrite Hf. cbn [obind].
    rewrite Hr. cbn [obind]. rewrite Hs. cbn [obind].
    apply (IH l'); assumption.
Qed.

End BadBlocks.

(** X18. [calculate_total_amount] has no handler: after well-formed blocks,
    a block whose transactions cannot be read (no ['transactions'], or a
    value that is no sequence), or a transaction whose value is missing or is
    refused by [float], makes it raise, for every address, also one that no
    transaction names. [valid_chain] does not look at the transactions, so
    such a chain can be valid. *)
Theorem calculate_total_amount_raises (W : world) (address : string)
  (self : BlockChain) (good : list pyval) (blocks : list (list entry))
  (bad : pyval) (rest : list pyval) :
  chain self = good ++ bad :: rest ->
  Forall2 (block_entries W) good blocks ->
  (forall e, obind (py_getitem bad "transactions") py_iter = Raise e ->
             calculate_total_amount W address self = Raise e)
  /\
  (forall l1 ts1 tx l2 e,
      py_getitem bad "transactions" = Ok (PyList (l1 ++ tx :: l2)) ->
      Forall2 (is_entry W) l1 ts1 ->
      obind (py_getitem tx "value") (py_float W) = Raise e ->
      calculate_total_amount W address self = Raise e).
Proof.
  intros Hc Hgood. unfold calculate_total_amount. rewrite Hc.
  rewrite total_of_blocks_app.
  rewrite (total_of_blocks_sum W address good blocks 0%float Hgood).
  cbn [obind total_of_blocks]. split.
  - intros e He.
    destruct (py_getitem bad "transactions") as [ts| |]; cbn [obind] in *;
      try discriminate He; [|congruence].
    rewrite He. reflexivity.
  - intros l1 ts1 tx l2 e Hts Hl1 He. rewrite Hts. cbn [obind py_iter].
    rewrite (total_of_transactions_raises W address l1 ts1 tx l2 e _ Hl1 He).
    reflexivity.
Qed.

Lemma calculate_total_amount_raises_witness :
  valid_chain odd_chain = Ok true /\
  calculate_total_amount lone_world "A" (set_chain odd_chain fresh_ledger)
  = Raise TypeError.
Proof.
  split; [vm_compute; reflexivity|].
  destruct (calculate_total_amount_raises lone_world "A"
              (set_chain odd_chain fresh_ledger) (chain fresh_ledger) [[]]
              (nth 1 odd_chain PyNone) []) as [Hraise _].
  - reflexivity.
  - repeat constructor. eexists. split; [reflexivity | constructor].
  - apply Hraise. reflexivity.
Defined.

(** X19. Pending transfers are not counted against the balance: a transfer
    that [add_transaction] admits is admitted again by the same call on the
    state it left, so the pool then holds it twice, while the sender's balance
    is what it was. *)
Theorem add_transaction_not_counting_pending (W : world) (sender : string)
  (recipient value pk sig : pyval) (self : BlockChain) :
  fst (add_transaction W sender recipient value pk sig self) = Ok true ->
  exists t,
    add_transaction W sender recipient value pk sig self =
    (Ok true, set_transaction_pool (transaction_pool self ++ [t]) self) /\
    add_transaction W sender recipient value pk sig
      (set_transaction_pool (transaction_pool self ++ [t]) self) =
    (Ok true, set_transaction_pool (transaction_pool self ++ [t; t]) self) /\
    calculate_total_amount W sender
      (set_transaction_pool (transaction_pool self ++ [t; t]) self) =
    calculate_total_amount W sender self.
Proof.
  intros H.
  destruct (add_transaction_cases W sender recipient value pk sig self)
    as [(v & Hv & Ha) | [_ Hf]]; [|congruence].
  exists (transaction_of sender recipient v). split; [exact Ha|].
  split; [|reflexivity].
  revert Ha. unfold add_transaction. rewrite Hv.
  change (sorted_dict_by_key
            [("sender_blockchain_address", PyStr sender);
             ("recipient_blockchain_address", recipient);
             ("value", PyFloat v)])
    with (transaction_of sender recipient v).
  assert (Hc : forall p, calculate_total_amount W sender (set_transaction_pool p self)
                         = calculate_total_amount W sender self) by reflexivity.
  rewrite Hc.
  destruct (String.eqb sender MINING_SENDER).
  - intros _. cbn [transaction_pool set_transaction_pool].
    rewrite <- app_assoc. reflexivity.
  - destruct (verify_transaction_signature W pk sig
                (transaction_of sender recipient v)) as [[|]|e|];
      try (intros E; discriminate E).
    destruct (calculate_total_amount W sender self) as [total|e|];
      try (intros E; discriminate E).
    destruct (total <? v)%float; [intros E; discriminate E|].
    intros _. cbn [transaction_pool set_transaction_pool].
    rewrite <- app_assoc. reflexivity.
Qed.

Lemma add_transaction_not_counting_pending_witness :
  calculate_total_amount lone_world "B" mined_ledger = Ok 3%float /\
  add_transaction lone_world "B" (PyStr "A") (PyFloat 2) sample_public_key
    sample_signature
    (set_transaction_pool [transaction_of "B" (PyStr "A") 2] mined_ledger) =
  (Ok true,
   set_transaction_pool
     [transaction_of "B" (PyStr "A") 2; transaction_of "B" (PyStr "A") 2]
     mined_ledger).
Proof.
  split; [vm_compute; reflexivity|].
  assert (H : fst (add_transaction lone_world "B" (PyStr "A") (PyFloat 2)
                     sample_public_key sample_signature mined_ledger) = Ok true)
    by (vm_compute; reflexivity).
  destruct (add_transaction_not_counting_pending lone_world "B" (PyStr "A")
              (PyFloat 2) sample_public_key sample_signature mined_ledger H)
    as (t & Hfirst & Hsecond & _).
  assert (Ht : t = transaction_of "B" (PyStr "A") 2).
  { assert (Hrun : add_transaction lone_world "B" (PyStr "A") (PyFloat 2)
                     sample_public_key sample_signature mined_ledger =
                   (Ok true,
                    set_transaction_pool
                      (transaction_pool mined_ledger ++
                       [transaction_of "B" (PyStr "A") 2]) mined_ledger))
      by (vm_compute; reflexivity).
    rewrite Hrun in Hfirst. injection Hfirst as Hfirst. symmetry. exact Hfirst. }
  subst t. exact Hsecond.
Defined.

(* ===================================================================== *)
(** ** The serialization is printable ASCII *)
(* ===================================================================== *)

Lemma list_ascii_of_string_app (s1 s2 : string) :
  list_ascii_of_string (s1 ++ s2) = list_ascii_of_string s1 ++ list_ascii_of_string s2.
Proof. induction s1 as [|c s1 IH]; simpl; [reflexivity | rewrite IH; reflexivity]. Qed.

Lemma printable_app (s1 s2 : string) :
  printable s1 -> printable s2 -> printable (s1 ++ s2).
Proof.
  unfold printable. rewrite list_ascii_of_string_app. intros H1 H2.
  apply Forall_app. split; assumption.
Qed.

Lemma printable_of_list (l : list ascii) :
  Forall (fun c => is_printable_ascii c = true) l -> printable (string_of_list_ascii l).
Proof. unfold printable. rewrite list_ascii_of_string_of_list_ascii. auto. Qed.

Lemma printable_concat (sep : string) (l : list string) :
  printable sep -> Forall printable l -> printable (String.concat sep l).
Proof.
  intros Hsep H. induction H as [|s l Hs Hl IH]; [constructor|].
  cbn [String.concat]. destruct l as [|s' l]; [exact Hs|].
  apply printable_app; [exact Hs|]. apply printable_app; [exact Hsep | exact IH].
Qed.

Lemma digit_printable (n : Z) :
  is_printable_ascii (ascii_of_N (Z.to_N (48 + n mod 10))) = true /\
  is_digit (ascii_of_N (Z.to_N (48 + n mod 10))) = true.
Proof.
  assert (H : 0 <= n mod 10 < 10) by (apply Z.mod_pos_bound; lia).
  assert (Hc : n mod 10 = 0 \/ n mod 10 = 1 \/ n mod 10 = 2 \/ n mod 10 = 3 \/
               n mod 10 = 4 \/ n mod 10 = 5 \/ n mod 10 = 6 \/ n mod 10 = 7 \/
               n mod 10 = 8 \/ n mod 10 = 9) by lia.
  repeat (destruct Hc as [-> | Hc]; [split; reflexivity|]).
  rewrite Hc. split; reflexivity.
Qed.

Lemma digits_of_pos_digits (fuel : nat) :
  forall (n : Z) (acc : list ascii),
    Forall (fun c => is_digit c = true) acc ->
    Forall (fun c => is_digit c = true) (digits_of_pos fuel n acc).
Proof.
  induction fuel as [|fuel IH]; intros n acc Hacc; cbn [digits_of_pos]; [exact Hacc|].
  destruct (n <? 10).
  - constructor; [apply digit_printable | exact Hacc].
  - apply IH. constructor; [apply digit_printable | exact Hacc].
Qed.

Lemma is_digit_printable (c : ascii) : is_digit c = true -> is_printable_ascii c = true.
Proof.
  unfold is_digit, is_printable_ascii. cbv zeta.
  rewrite !andb_true_iff, !Z.leb_le. lia.
Qed.

Lemma digits_printable (l : list ascii) :
  Forall (fun c => is_digit c = true) l ->
  Forall (fun c => is_printable_ascii c = true) l.
Proof. apply Forall_impl. exact is_digit_printable. Qed.

Lemma digits_of_digits (n : Z) : Forall (fun c => is_digit c = true) (digits_of n).
Proof. unfold digits_of. apply digits_of_pos_digits. constructor. Qed.

Lemma int_repr_printable (z : Z) : printable (int_repr z).
Proof.
  unfold int_repr. destruct (z <? 0).
  - unfold printable. cbn [list_ascii_of_string].
    constructor; [reflexivity|].
    rewrite list_ascii_of_string_of_list_ascii.
    apply digits_printable, digits_of_digits.
  - apply printable_of_list, digits_printable, digits_of_digits.
Qed.

Lemma strip_zeros_rev_forall (P : ascii -> Prop) (l : list ascii) :
  Forall P l -> Forall P (strip_zeros_rev l).
Proof.
  intros H. induction H as [|c l Hc Hl IH]; [constructor|].
  cbn [strip_zeros_rev].
  destruct c as [[] [] [] [] [] [] [] []]; try (constructor; assumption).
  exact IH.
Qed.

Lemma strip_trailing_zeros_forall (P : ascii -> Prop) (l : list ascii) :
  Forall P l -> Forall P (strip_trailing_zeros l).
Proof.
  intros H. unfold strip_trailing_zeros.
  apply Forall_rev, strip_zeros_rev_forall, Forall_rev. exact H.
Qed.

Lemma repeat_forall {A : Type} (P : A -> Prop) (x : A) (n : nat) :
  P x -> Forall P (repeat x n).
Proof. intros H. induction n; simpl; constructor; auto. Qed.

Lemma firstn_forall {A : Type} (P : A -> Prop) (n : nat) (l : list A) :
  Forall P l -> Forall P (firstn n l).
Proof.
  intros H. revert n. induction H as [|x l Hx Hl IH]; intros [|n]; simpl;
    constructor; auto.
Qed.

Lemma skipn_forall {A : Type} (P : A -> Prop) (n : nat) (l : list A) :
  Forall P l -> Forall P (skipn n l).
Proof.
  intros H. revert n. induction H as [|x l Hx Hl IH]; intros [|n]; simpl; auto.
Qed.

Lemma format_repr_printable (ds : list ascii) (decpt : Z) :
  Forall (fun c => is_digit c = true) ds ->
  Forall (fun c => is_printable_ascii c = true) (format_repr ds decpt).
Proof.
  intros Hd. pose proof (digits_printable ds Hd) as Hp.
  unfold format_repr, zeros.
  destruct ((decpt <=? -4) || (16 <? decpt)).
  - apply Forall_app. split.
    + destruct ds as [|d [|d' rest]]; [constructor | exact Hp |].
      inversion Hp as [|? ? H1 H2]; subst.
      constructor; [exact H1|]. constructor; [reflexivity | exact H2].
    + apply Forall_app. split.
      * constructor; [reflexivity|]. constructor; [|constructor].
        destruct (decpt - 1 <? 0); reflexivity.
      * destruct (Z.abs (decpt - 1) <? 10).
        -- constructor; [reflexivity|]. apply digits_printable, digits_of_digits.
        -- apply digits_printable, digits_of_digits.
  - destruct (decpt <=? 0).
    + apply Forall_app. split; [repeat constructor|].
      apply Forall_app. split; [apply repeat_forall; reflexivity | exact Hp].
    + destruct (Z.of_nat (length ds) <=? decpt).
      * apply Forall_app. split; [exact Hp|].
        apply Forall_app. split; [apply repeat_forall; reflexivity | repeat constructor].
      * apply Forall_app. split; [apply firstn_forall; exact Hp|].
        apply Forall_app. split; [repeat constructor | apply skipn_forall; exact Hp].
Qed.

Lemma float_repr_printable (f : float) : printable (float_repr f).
Proof.
  unfold float_repr.
  destruct (Prim2SF f) as [[|]|[|]| |s m e]; try (repeat constructor).
  unfold shortest_digits.
  destruct (shortest_search 17 _ _ _ _ _ 1) as [d n].
  assert (H : Forall (fun c => is_printable_ascii c = true)
                (format_repr (strip_trailing_zeros (digits_of d))
                   (Z.of_nat (length (digits_of d)) + (floor_log10 (Z.pos m) e - n + 1)))).
  { apply format_repr_printable, strip_trailing_zeros_forall, digits_of_digits. }
  destruct s.
  - unfold printable. cbn [list_ascii_of_string].
    constructor; [reflexivity|]. rewrite list_ascii_of_string_of_list_ascii. exact H.
  - apply printable_of_list. exact H.
Qed.

Lemma is_lower_hex_printable (c : ascii) :
  is_lower_hex c = true -> is_printable_ascii c = true.
Proof.
  unfold is_lower_hex, is_printable_ascii. cbv zeta.
  rewrite orb_true_iff, !andb_true_iff, !Z.leb_le. lia.
Qed.

Lemma json_escape_char_printable (c : ascii) :
  Forall (fun x => is_printable_ascii x = true) (json_escape_char c).
Proof.
  unfold json_escape_char. cbv zeta.
  set (n := Z.of_N (N_of_ascii c)).
  do 7 (match goal with
        | |- Forall _ (if ?b then _ else _) =>
            let E := fresh "E" in destruct b eqn:E; [repeat constructor|]
        end).
  destruct ((n <? 32) || (126 <? n)) eqn:E6.
  - apply Forall_app. split; [repeat constructor|].
    apply Forall_forall. intros x Hx. apply is_lower_hex_printable.
    pose proof (proj2 (hex_of_shape 4 n)) as H.
    rewrite forallb_forall in H. apply H. exact Hx.
  - constructor; [|constructor].
    unfold is_printable_ascii. cbv zeta. fold n.
    apply orb_false_iff in E6. destruct E6 as [E6 E7].
    apply Z.ltb_ge in E6, E7. apply andb_true_iff. rewrite !Z.leb_le. lia.
Qed.

Lemma json_quote_printable (s : string) : printable (json_quote s).
Proof.
  unfold json_quote. apply printable_of_list.
  apply Forall_app. split; [repeat constructor|].
  apply Forall_app. split; [|repeat constructor].
  induction (list_ascii_of_string s) as [|c l IH]; [constructor|].
  cbn [flat_map]. apply Forall_app. split; [apply json_escape_char_printable | exact IH].
Qed.

Lemma json_dumps_printable (v : pyval) : printable (json_dumps v).
Proof.
  induction v as [ | b | z | f | s | l IHl | d IHd ] using pyval_nested_ind.
  - repeat constructor.
  - destruct b; repeat constructor.
  - apply int_repr_printable.
  - apply float_repr_printable.
  - apply json_quote_printable.
  - cbn [json_dumps]. apply printable_app; [repeat constructor|].
    apply printable_app; [|repeat constructor].
    apply printable_concat; [repeat constructor|].
    induction IHl; simpl; constructor; auto.
  - rewrite json_dumps_dict. apply printable_app; [repeat constructor|].
    apply printable_app; [|repeat constructor].
    apply printable_concat; [repeat constructor|].
    apply Forall_map.
    eapply Permutation_Forall; [symmetry; apply sort_items_perm|].
    apply Forall_map.
    induction IHd as [|kv d' Hkv Hd' IH]; constructor; [|exact IH].
    unfold render_item. cbn [fst snd].
    apply printable_app; [apply json_quote_printable|].
    apply printable_app; [repeat constructor | exact Hkv].
Qed.

(** X20. Whatever the value, [json.dumps] with [ensure_ascii] writes
    printable ASCII only (characters 32 to 126: other code points leave as
    escapes), so encoding the text takes one byte per character, the
    character's code, and what is hashed is the text itself. *)
Theorem json_dumps_is_ascii (v : pyval) :
  printable (json_dumps v) /\
  encode_utf8 (json_dumps v) =
  map (fun c => Z.of_N (N_of_ascii c)) (list_ascii_of_string (json_dumps v)) /\
  length (encode_utf8 (json_dumps v)) = String.length (json_dumps v).
Proof.
  pose proof (json_dumps_printable v) as H. split; [exact H|].
  unfold encode_utf8, printable in *.
  assert (Hl : forall s, String.length s = length (list_ascii_of_string s)).
  { intros s. induction s as [|c s IH]; simpl; [reflexivity | rewrite IH; reflexivity]. }
  rewrite Hl.
  induction H as [|c l Hc Hrest [IH1 IH2]]; [split; reflexivity|].
  cbn [flat_map map length].
  unfold is_printable_ascii in Hc. cbv zeta in Hc.
  apply andb_true_iff in Hc. destruct Hc as [_ Hc]. apply Z.leb_le in Hc.
  assert (Hlt : (Z.of_N (N_of_ascii c) <? 128) = true) by (apply Z.ltb_lt; lia).
  rewrite Hlt. cbn [app length]. split; [rewrite IH1 | rewrite IH2]; reflexivity.
Qed.
